(** * ISAR target classification: model of the Python pipeline

    A shallow embedding of the training-and-evaluation pipeline
    (data_loader.py, ml_models.py, cnn_model.py, evaluation.py, config.py,
    main.py).

    Conventions.
    - A Python [int] is a [Z]; a Python [str] is the list of its code
      points; a one-dimensional NumPy array is a [list]; a [dict] keyed by
      integers is a [gmap Z _].
    - A call that may raise returns a [result]: [Ok v] or [Raise e].
    - scikit-learn, Keras and PIL objects whose numerics are not part of
      the repository (a fitted K-Means, one epoch of gradient descent, an
      opened image) are parameters of the sections that use them.  The
      small library routines whose behaviour the claims depend on
      (collections.Counter, numpy.unique, boolean-mask indexing,
      LabelEncoder, reshape, the EarlyStopping callback, the weighted
      scores) are written out from their documented behaviour. *)

From Stdlib Require Import ZArith QArith Qround Qabs Lia List Sorted.
From stdpp Require Import base tactics option list sorting strings gmap.

Local Open Scope Z_scope.

(** ** Python runtime *)

Module Py.

(** Exception classes raised along the modelled paths. *)
Inductive exn : Type :=
| IndexError
| ValueError
| RuntimeError
| FileNotFoundError
| LibraryError (code : nat).

Inductive result (A : Type) : Type :=
| Ok (a : A)
| Raise (e : exn).

Arguments Ok {A} a.
Arguments Raise {A} e.

Definition bind {A B : Type} (m : result A) (k : A -> result B) : result B :=
  match m with
  | Ok a => k a
  | Raise e => Raise e
  end.

Definition raises {A : Type} (m : result A) : Prop :=
  match m with
  | Ok _ => False
  | Raise _ => True
  end.

(** A [str] is the sequence of its Unicode code points. *)
Definition str : Type := list N.

(** Comparison of two strings: code point by code point, a proper prefix
    first. *)
Fixpoint str_compare (a b : str) : comparison :=
  match a, b with
  | [], [] => Eq
  | [], _ :: _ => Lt
  | _ :: _, [] => Gt
  | x :: a', y :: b' =>
      match N.compare x y with
      | Eq => str_compare a' b'
      | c => c
      end
  end.

(** A literal, for examples. *)
Definition lit (s : string) : str :=
  map (fun a => N.of_nat (Ascii.nat_of_ascii a)) (String.list_ascii_of_string s).

(** [s.split(sep)[0]] for a one-character separator: the part of [s] before
    its first occurrence, or all of [s]. *)
Fixpoint split_first (sep : N) (s : str) : str :=
  match s with
  | [] => []
  | c :: s' => if N.eqb c sep then [] else c :: split_first sep s'
  end.

(** [s.endswith(suffix)] *)
Definition endswith (s suffix : str) : bool :=
  bool_decide (drop (length s - length suffix) s = suffix).

(** [sorted(names)] by insertion. *)
Fixpoint insert_sorted (x : str) (l : list str) : list str :=
  match l with
  | [] => [x]
  | y :: l' =>
      match str_compare x y with
      | Gt => y :: insert_sorted x l'
      | _ => x :: y :: l'
      end
  end.

Definition sorted (l : list str) : list str := foldr insert_sorted [] l.

(** A comprehension whose body may raise: stops at the first exception. *)
Fixpoint mapM {A B : Type} (f : A -> result B) (l : list A) : result (list B) :=
  match l with
  | [] => Ok []
  | x :: l' =>
      match f x with
      | Raise e => Raise e
      | Ok y =>
          match mapM f l' with
          | Raise e => Raise e
          | Ok ys => Ok (y :: ys)
          end
      end
  end.

End Py.

Import Py.

Notation "'let*' x := m 'in' k" := (Py.bind m (fun x => k))
  (at level 10, x name, m at level 100, k at level 200).

(** ** config.py *)

Module config.

Definition IMG_SIZE : nat * nat := (64%nat, 64%nat).
Definition RANDOM_STATE : Z := 1.
Definition KMEANS_N_INIT : Z := 10.
Definition CNN_EPOCHS : nat := 50.
Definition CNN_BATCH_SIZE : nat := 32.
Definition CNN_EARLY_STOPPING_PATIENCE : nat := 5.
(** [TEST_SIZE = 0.2], kept as the fraction it stands for. *)
Definition TEST_SIZE : Q := 2 # 10.

End config.

(** ** NumPy and collections helpers used by ml_models.py *)

Module np.

(** [numpy.unique]: the distinct values in ascending order.  Written over
    a three-way comparison so that it serves integer arrays and string
    arrays alike. *)
Section Unique.
Context {A : Type} (cmp : A -> A -> comparison).

Fixpoint insert_unique (x : A) (l : list A) : list A :=
  match l with
  | [] => [x]
  | y :: l' =>
      match cmp x y with
      | Lt => x :: y :: l'
      | Eq => y :: l'
      | Gt => y :: insert_unique x l'
      end
  end.

Definition unique (a : list A) : list A := foldr insert_unique [] a.

(** [numpy.searchsorted(a, v)] (side left): how many entries of the sorted
    array [a] are strictly below [v]. *)
Fixpoint searchsorted (a : list A) (v : A) : nat :=
  match a with
  | [] => 0%nat
  | y :: a' =>
      match cmp y v with
      | Lt => S (searchsorted a' v)
      | _ => 0%nat
      end
  end.

End Unique.

(** [a == v] on an integer array: the boolean mask. *)
Definition eq_mask (a : list Z) (v : Z) : list bool :=
  map (fun c => bool_decide (c = v)) a.

(** Plain selection of the entries at which the mask holds. *)
Fixpoint select {A : Type} (y : list A) (mask : list bool) : list A :=
  match y, mask with
  | x :: y', b :: mask' => if b then x :: select y' mask' else select y' mask'
  | _, _ => []
  end.

(** [y[mask]]: NumPy refuses a mask whose length differs from the array's. *)
Definition bool_index {A : Type} (y : list A) (mask : list bool) : result (list A) :=
  if decide (length mask = length y) then Ok (select y mask)
  else Raise IndexError.

(** An n-dimensional array: its shape and its elements in row-major order. *)
Record ndarray (A : Type) : Type := { shape : list nat; data : list A }.

Arguments shape {A} _.
Arguments data {A} _.

Definition prod_dims (dims : list nat) : nat := foldr Nat.mul 1%nat dims.

(** The number of elements announced by the shape. *)
Definition size {A : Type} (X : ndarray A) : nat := prod_dims (shape X).

Definition well_formed {A : Type} (X : ndarray A) : Prop :=
  length (data X) = size X.

(** [X.reshape(-1, d1, .., dk)]: the free leading dimension is the
    quotient of the size by the product of the given ones; NumPy raises
    ValueError when that product is zero or does not divide the size. *)
Definition reshape_free_first {A : Type} (X : ndarray A) (dims : list nat)
    : result (ndarray A) :=
  let s_original := size X in
  let s_known := prod_dims dims in
  if (s_known =? 0)%nat || negb (s_original mod s_known =? 0)%nat
  then Raise ValueError
  else Ok {| shape := (s_original / s_known)%nat :: dims; data := data X |}.

(** [numpy.argmax] of one row: the first index holding the maximum;
    ValueError on an empty row. *)
Fixpoint argmax_from (best_i : nat) (best : Q) (i : nat) (row : list Q) : nat :=
  match row with
  | [] => best_i
  | x :: row' =>
      if negb (Qle_bool x best) then argmax_from i x (S i) row'
      else argmax_from best_i best (S i) row'
  end.

Definition argmax (row : list Q) : result nat :=
  match row with
  | [] => Raise ValueError
  | x :: row' => Ok (argmax_from 0%nat x 1%nat row')
  end.

End np.

Module collections.

(** [collections.Counter]: a dict from element to count.  A dict keeps its
    keys in insertion order, so the items form an association list in
    first-seen order. *)
Fixpoint incr (elem : Z) (c : list (Z * nat)) : list (Z * nat) :=
  match c with
  | [] => [(elem, 1%nat)]
  | (k, n) :: c' =>
      if decide (k = elem) then (k, S n) :: c' else (k, n) :: incr elem c'
  end.

Definition Counter (iterable : list Z) : list (Z * nat) :=
  foldl (fun c elem => incr elem c) [] iterable.

(** [max(items, key=itemgetter(1))]: the running maximum is replaced only
    by a strictly greater count, so the first maximal item is returned. *)
Fixpoint max_by_count (best : Z * nat) (items : list (Z * nat)) : Z * nat :=
  match items with
  | [] => best
  | it :: rest =>
      if (best.2 <? it.2)%nat then max_by_count it rest
      else max_by_count best rest
  end.

(** [Counter.most_common(1)]: [heapq.nlargest(1, items, key=count)], which
    is [[max(items, key=count)]], or the empty list for an empty counter. *)
Definition most_common_1 (c : list (Z * nat)) : list (Z * nat) :=
  match c with
  | [] => []
  | it :: rest => [max_by_count it rest]
  end.

End collections.

(** ** ml_models.py *)

Module ml_models.

(** [Counter(y_train[mask]).most_common(1)[0][0]] *)
Definition most_common_label (y_train : list Z) (mask : list bool) : result Z :=
  let* ys := np.bool_index y_train mask in
  match collections.most_common_1 (collections.Counter ys) with
  | [] => Raise IndexError
  | it :: _ => Ok it.1
  end.

(** The loop [for cid in np.unique(cluster_labels): ...] of [train_kmeans],
    threading the dict being filled. *)
Fixpoint train_kmeans_loop (cids : list Z) (cluster_labels y_train : list Z)
    (cluster_to_label : gmap Z Z) : result (gmap Z Z) :=
  match cids with
  | [] => Ok cluster_to_label
  | cid :: rest =>
      let mask := np.eq_mask cluster_labels cid in
      let* most_common := most_common_label y_train mask in
      train_kmeans_loop rest cluster_labels y_train
        (<[cid := most_common]> cluster_to_label)
  end.

Definition cluster_to_label_of (cluster_labels y_train : list Z) : result (gmap Z Z) :=
  train_kmeans_loop (np.unique Z.compare cluster_labels) cluster_labels y_train ∅.

(** The sentinel [predict_kmeans] returns for a cluster without an entry. *)
Definition UNKNOWN : Z := -1.

Section ClusterDerived.
(** [Features]: one row of [X].  [KMeans]: a fitted sklearn KMeans.
    [KMeans_fit n_clusters random_state n_init X] is
    [KMeans(n_clusters=.., random_state=.., n_init=..).fit(X)] and
    [KMeans_predict model X] is [model.predict(X)]; both may raise. *)
Context {Features KMeans : Type}.
Variable KMeans_fit : Z -> Z -> Z -> list Features -> result KMeans.
Variable KMeans_predict : KMeans -> list Features -> result (list Z).

Definition train_kmeans (X_train : list Features) (y_train : list Z) (n_classes : Z)
    : result (KMeans * gmap Z Z) :=
  let* model := KMeans_fit n_classes config.RANDOM_STATE config.KMEANS_N_INIT X_train in
  let* cluster_labels := KMeans_predict model X_train in
  let* cluster_to_label := cluster_to_label_of cluster_labels y_train in
  Ok (model, cluster_to_label).

Definition predict_kmeans (model : KMeans) (cluster_to_label : gmap Z Z)
    (X : list Features) : result (list Z) :=
  let* clusters := KMeans_predict model X in
  Ok (map (fun c => default UNKNOWN (cluster_to_label !! c)) clusters).

End ClusterDerived.

(** What [train_all_models] stores under each name.  The ["predict"]
    callable of an entry is fixed by the handle: the estimator's own
    [predict] for the three supervised models, and
    [fun X => predict_kmeans km mapping X] for K-Means. *)
Inductive entry (SVC DecisionTree RandomForest KMeans : Type) : Type :=
| SVM_entry (svm : SVC)
| DT_entry (dt : DecisionTree)
| RF_entry (rf : RandomForest)
| KMeans_entry (km : KMeans) (mapping : gmap Z Z).

Arguments SVM_entry {SVC DecisionTree RandomForest KMeans} svm.
Arguments DT_entry {SVC DecisionTree RandomForest KMeans} dt.
Arguments RF_entry {SVC DecisionTree RandomForest KMeans} rf.
Arguments KMeans_entry {SVC DecisionTree RandomForest KMeans} km mapping.

Section Ensemble.
(** The four estimators.  [SVC_fit X y] is [SVC( **SVM_PARAMS).fit(X, y)],
    and likewise for the tree and the forest; each may raise. *)
Context {Features SVC DecisionTree RandomForest KMeans : Type}.
Variable SVC_fit : list Features -> list Z -> result SVC.
Variable DecisionTree_fit : list Features -> list Z -> result DecisionTree.
Variable RandomForest_fit : list Features -> list Z -> result RandomForest.
Variable KMeans_fit : Z -> Z -> Z -> list Features -> result KMeans.
Variable KMeans_predict : KMeans -> list Features -> result (list Z).

Definition train_svm (X_train : list Features) (y_train : list Z) : result SVC :=
  SVC_fit X_train y_train.

Definition train_decision_tree (X_train : list Features) (y_train : list Z)
    : result DecisionTree :=
  DecisionTree_fit X_train y_train.

Definition train_random_forest (X_train : list Features) (y_train : list Z)
    : result RandomForest :=
  RandomForest_fit X_train y_train.

(** The returned dict, in insertion order.  There is no [try] in the
    function: an exception raised by a trainer leaves it at once. *)
Definition train_all_models (X_train : list Features) (y_train : list Z) (n_classes : Z)
    : result (list (string * entry SVC DecisionTree RandomForest KMeans)) :=
  let models := [] in
  let* svm := train_svm X_train y_train in
  let models := models ++ [("SVM"%string, SVM_entry svm)] in
  let* dt := train_decision_tree X_train y_train in
  let models := models ++ [("Decision Tree"%string, DT_entry dt)] in
  let* rf := train_random_forest X_train y_train in
  let models := models ++ [("Random Forest"%string, RF_entry rf)] in
  let* km_mapping := train_kmeans KMeans_fit KMeans_predict X_train y_train n_classes in
  let models := models ++ [("K-Means"%string, KMeans_entry km_mapping.1 km_mapping.2)] in
  Ok models.

End Ensemble.

(** The estimators that [run_grid_search] searches over. *)
Inductive estimator : Type :=
| SVC_estimator
| DecisionTree_estimator
| RandomForest_estimator.

(** [d[key] = value] on a dict kept as its items in insertion order: the
    value of a key that is there is replaced in place, a new key goes to
    the end. *)
Fixpoint dict_set {V : Type} (key : string) (value : V) (d : list (string * V))
    : list (string * V) :=
  match d with
  | [] => [(key, value)]
  | (k, v) :: d' =>
      if String.eqb k key then (k, value) :: d' else (k, v) :: dict_set key value d'
  end.

Section GridSearch.
(** [GridSearchCV_fit est X y] is
    [GridSearchCV(estimator, grid, cv=3, scoring="accuracy", n_jobs=-1).fit(X, y)]
    for the estimator [est] and its grid of config.py; it may raise. *)
Context {Features GridSearchCV : Type}.
Variable GridSearchCV_fit : estimator -> list Features -> list Z -> result GridSearchCV.

Definition configs : list (string * estimator) :=
  [("SVM"%string, SVC_estimator);
   ("Decision Tree"%string, DecisionTree_estimator);
   ("Random Forest"%string, RandomForest_estimator)].

(** The loop [for name, estimator, grid in configs]. *)
Fixpoint grid_search_loop (cfgs : list (string * estimator))
    (X_train : list Features) (y_train : list Z)
    (searches : list (string * GridSearchCV)) : result (list (string * GridSearchCV)) :=
  match cfgs with
  | [] => Ok searches
  | (name, est) :: rest =>
      let* gs := GridSearchCV_fit est X_train y_train in
      grid_search_loop rest X_train y_train (dict_set name gs searches)
  end.

Definition run_grid_search (X_train : list Features) (y_train : list Z)
    : result (list (string * GridSearchCV)) :=
  grid_search_loop configs X_train y_train [].

End GridSearch.

End ml_models.

(** ** sklearn.preprocessing.LabelEncoder *)

Module LabelEncoder.

(** [fit(y)] stores [classes_ = np.unique(y)]. *)
Definition fit (y : list str) : list str := np.unique str_compare y.



(** [fit_transform(y)]: [np.unique(y, return_inverse=True)]. *)
Definition fit_transform (y : list str) : list str * list Z :=
  let classes_ := fit y in
  (classes_, map (fun v => Z.of_nat (np.searchsorted str_compare classes_ v)) y).

(** [inverse_transform(ids)]: ids outside [0, len(classes_)) are refused. *)
Definition inverse_transform (classes_ : list str) (ids : list Z) : result (list str) :=
  if forallb (fun i => (0 <=? i) && (i <? Z.of_nat (length classes_))) ids
  then Ok (omap (fun i => classes_ !! Z.to_nat i) ids)
  else Raise ValueError.


Definition decode (classes_ : list str) (i : Z) : result str :=
  let* names := inverse_transform classes_ [i] in
  match names with
  | [n] => Ok n
  | _ => Raise IndexError
  end.

End LabelEncoder.


(** ** sklearn.model_selection.train_test_split with [stratify]

    The generator is a parameter: [permutation n rng] is
    [rng.permutation(n)], a shuffled [range(n)] together with the next
    state of the generator, and [seed s] is [RandomState(s)].  The
    proportions that scikit-learn computes in floating point are kept
    exactly, as numerators over their common denominator
    [class_counts.sum()]. *)

Module model_selection.

Definition sum (l : list nat) : nat := foldr Nat.add 0%nat l.

(** [np.where(a == v)]: the positions holding [v], ascending. *)
Fixpoint where_from {A : Type} `{EqDecision A} (i : nat) (a : list A) (v : A) : list nat :=
  match a with
  | [] => []
  | x :: a' =>
      if decide (x = v) then i :: where_from (S i) a' v
      else where_from (S i) a' v
  end.

Definition where_eq {A : Type} `{EqDecision A} (a : list A) (v : A) : list nat :=
  where_from 0%nat a v.

(** [a[idx]] for an index array that is in range; a position out of range
    is an IndexError. *)
Definition take_indices {A : Type} (a : list A) (idx : list nat) : result (list A) :=
  mapM (fun i => match a !! i with Some x => Ok x | None => Raise IndexError end) idx.

(** [a.take(idx, mode="clip")]: positions beyond the end read the last
    entry. *)
Definition take_clip (a : list nat) (idx : list nat) : list nat :=
  omap (fun i => a !! (Nat.min i (length a - 1))) idx.

(** [floored[inds] += 1] *)
Definition increment_at (inds : list nat) (floored : list nat) : list nat :=
  foldr (fun i fl => alter S i fl) floored inds.

(** [_validate_shuffle_split] for a float [test_size] and no
    [train_size]: [n_test = ceil(test_size * n_samples)], the rest trains;
    an empty train set is refused. *)
Definition _validate_shuffle_split (n_samples : nat) (test_size : Q) : result (nat * nat) :=
  let n_test := Z.to_nat (Qceiling (test_size * inject_Z (Z.of_nat n_samples))) in
  let n_train := (n_samples - n_test)%nat in
  if (n_train =? 0)%nat then Raise ValueError
  else Ok (n_train, n_test).

Section RandomState.
Context {RandomState : Type}.
Variable seed : Z -> RandomState.
Variable permutation : nat -> RandomState -> list nat * RandomState.

(** [rng.choice(inds, size=k, replace=False)]: the entries of [inds] at
    the first [k] positions of a shuffled range. *)
Definition choice (inds : list nat) (k : nat) (rng : RandomState)
    : list nat * RandomState :=
  let '(perm, rng) := permutation (length inds) rng in
  (omap (fun j => inds !! j) (take k perm), rng).

(** [rng.permutation(array)] *)
Definition permuted (a : list nat) (rng : RandomState) : list nat * RandomState :=
  let '(perm, rng) := permutation (length a) rng in
  (omap (fun j => a !! j) perm, rng).

(** The loop [for value in values] of [_approximate_mode]. *)
Fixpoint add_by_remainder (values remainder floored : list nat) (need_to_add : nat)
    (rng : RandomState) : list nat * RandomState :=
  match values with
  | [] => (floored, rng)
  | value :: values' =>
      let inds := where_eq remainder value in
      let add_now := Nat.min (length inds) need_to_add in
      let '(inds, rng) := choice inds add_now rng in
      let floored := increment_at inds floored in
      let need_to_add := (need_to_add - add_now)%nat in
      if (need_to_add =? 0)%nat then (floored, rng)
      else add_by_remainder values' remainder floored need_to_add rng
  end.

(** [_approximate_mode(class_counts, n_draws, rng)]: each class gets the
    floor of its share [c / sum * n_draws]; the draws still missing go to
    the classes with the largest fractional parts, ties broken at random.
    A share is [c * n_draws] over [sum]: its floor is the quotient and its
    fractional part the remainder over [sum]. *)
Definition _approximate_mode (class_counts : list nat) (n_draws : nat) (rng : RandomState)
    : list nat * RandomState :=
  let total := sum class_counts in
  let floored := map (fun c => (c * n_draws / total)%nat) class_counts in
  let need_to_add := (n_draws - sum floored)%nat in
  if (0 <? need_to_add)%nat then
    let remainder := map (fun c => (c * n_draws mod total)%nat) class_counts in
    let values := reverse (np.unique Nat.compare remainder) in
    add_by_remainder values remainder floored need_to_add rng
  else (floored, rng).

(** The loop [for i in range(n_classes)] of [_iter_indices]. *)
Fixpoint split_classes (class_indices : list (list nat)) (n_i t_i : list nat)
    (train test : list nat) (rng : RandomState)
    : list nat * list nat * RandomState :=
  match class_indices, n_i, t_i with
  | ci :: class_indices', n :: n_i', t :: t_i' =>
      let '(perm, rng) := permutation (length ci) rng in
      let perm_indices_class_i := take_clip ci perm in
      let train := train ++ take n perm_indices_class_i in
      let test := test ++ take t (drop n perm_indices_class_i) in
      split_classes class_indices' n_i' t_i' train test rng
  | _, _, _ => (train, test, rng)
  end.

(** [StratifiedShuffleSplit(test_size=n_test, train_size=n_train)]: the
    first (and only) pair of index arrays. *)
Definition stratified_shuffle_split (y : list Z) (n_train n_test : nat) (rng : RandomState)
    : result (list nat * list nat) :=
  let classes := np.unique Z.compare y in
  let n_classes := length classes in
  let class_counts := map (fun c => length (where_eq y c)) classes in
  if forallb (fun c => 2 <=? c)%nat class_counts then
    if (n_train <? n_classes)%nat then Raise ValueError
    else if (n_test <? n_classes)%nat then Raise ValueError
    else
      let class_indices := map (where_eq y) classes in
      let '(n_i, rng) := _approximate_mode class_counts n_train rng in
      let class_counts_remaining := zip_with Nat.sub class_counts n_i in
      let '(t_i, rng) := _approximate_mode class_counts_remaining n_test rng in
      let '(train, test, rng) := split_classes class_indices n_i t_i [] [] rng in
      let '(train, rng) := permuted train rng in
      let '(test, rng) := permuted test rng in
      Ok (train, test)
  else Raise ValueError.

(** [train_test_split(X, y, test_size=.., random_state=.., stratify=y)],
    with the two index arrays kept next to the four returned arrays. *)
Definition train_test_split_run {A : Type} (X : list A) (y : list Z)
    (test_size : Q) (random_state : Z)
    : result (list nat * list nat * (list A * list A * list Z * list Z)) :=
  if negb (length X =? length y)%nat then Raise ValueError
  else
    let n_samples := length X in
    let* sizes := _validate_shuffle_split n_samples test_size in
    let* tt := stratified_shuffle_split y sizes.1 sizes.2 (seed random_state) in
    let* X_train := take_indices X tt.1 in
    let* X_test := take_indices X tt.2 in
    let* y_train := take_indices y tt.1 in
    let* y_test := take_indices y tt.2 in
    Ok (tt.1, tt.2, (X_train, X_test, y_train, y_test)).

Definition train_test_split {A : Type} (X : list A) (y : list Z)
    (test_size : Q) (random_state : Z) : result (list A * list A * list Z * list Z) :=
  let* r := train_test_split_run X y test_size random_state in
  Ok r.2.

End RandomState.

End model_selection.

(** ** data_loader.py *)

Module data_loader.

Definition underscore : N := 95%N.
Definition dot_png : str := [46; 112; 110; 103]%N.

Section Loader.
(** [isdigit c] is [c.isdigit()] and [lower s] is [s.lower()], both from
    the Unicode tables of the interpreter.  The file system is read
    through [isdir] and [listdir]; [open_image folder fname] stands for
    opening, converting, resizing and flattening one file, which may
    raise. *)
Variable isdigit : N -> bool.
Variable lower : str -> str.
Context {Image : Type}.
Variable isdir : str -> bool.
Variable listdir : str -> list str.
Variable open_image : str -> str -> result Image.

(** [label = fname.split("_")[0]] followed by
    [label = "".join(c for c in label if not c.isdigit())]. *)
Definition label_of_fname (fname : str) : str :=
  let label := split_first underscore fname in
  List.filter (fun c => negb (isdigit c)) label.

(** The body of the [for fname in filenames] loop.  A file that is not a
    PNG is passed over; one whose image cannot be read is reported and
    skipped by the [except] clause.  The report is a [print] on the
    standard output, which is not part of the model. *)
Fixpoint load_loop (folder : str) (filenames : list str)
    (images : list Image) (labels : list str) : list Image * list str :=
  match filenames with
  | [] => (images, labels)
  | fname :: rest =>
      if negb (endswith (lower fname) dot_png) then
        load_loop folder rest images labels
      else
        let label := label_of_fname fname in
        match open_image folder fname with
        | Ok img => load_loop folder rest (images ++ [img]) (labels ++ [label])
        | Raise _ => load_loop folder rest images labels
        end
  end.

Definition load_images_from_folder (folder : str) : result (list Image * list str) :=
  if negb (isdir folder) then Raise FileNotFoundError
  else
    let filenames := sorted (listdir folder) in
    let '(images, labels) := load_loop folder filenames [] [] in
    match images with
    | [] => Raise RuntimeError
    | _ => Ok (images, labels)
    end.

End Loader.

(** The dict returned by [prepare_data]. *)
Record Data (Image : Type) : Type := {
  X_train : list Image;
  X_test : list Image;
  y_train : list Z;
  y_test : list Z;
  label_encoder : list str;
  class_names : list str
}.

Arguments X_train {Image} _.
Arguments X_test {Image} _.
Arguments y_train {Image} _.
Arguments y_test {Image} _.
Arguments label_encoder {Image} _.
Arguments class_names {Image} _.

Section Prepare.
(** As in the loader, plus the generator of the split and [div255 img],
    the pixel values of [img] divided by 255. *)
Variable isdigit : N -> bool.
Variable lower : str -> str.
Context {Image RandomState : Type}.
Variable isdir : str -> bool.
Variable listdir : str -> list str.
Variable open_image : str -> str -> result Image.
Variable div255 : Image -> Image.
Variable seed : Z -> RandomState.
Variable permutation : nat -> RandomState -> list nat * RandomState.

(** [prepare_data], with the index arrays of the split kept next to the
    returned dict. *)
Definition prepare_data_run (folder : str) : result (list nat * list nat * Data Image) :=
  let* loaded := load_images_from_folder isdigit lower isdir listdir open_image folder in
  let '(le, y) := LabelEncoder.fit_transform loaded.2 in
  let X := map div255 loaded.1 in
  let* r := model_selection.train_test_split_run seed permutation
              X y config.TEST_SIZE config.RANDOM_STATE in
  let '(train, test, (X_train, X_test, y_train, y_test)) := r in
  Ok (train, test,
      {| X_train := X_train; X_test := X_test; y_train := y_train; y_test := y_test;
         label_encoder := le; class_names := le |}).

Definition prepare_data (folder : str) : result (Data Image) :=
  let* r := prepare_data_run folder in
  Ok r.2.

End Prepare.

End data_loader.

(** ** cnn_model.py *)

Module cnn_model.

(** One epoch's entry of [history.history]. *)
Record logs : Type := {
  loss : Q;
  accuracy : Q;
  val_loss : Q;
  val_accuracy : Q
}.

(** A compiled Keras model: its weights and its [stop_training] flag. *)
Record Model (W : Type) : Type := {
  weights : W;
  stop_training : bool
}.

Arguments weights {W} _.
Arguments stop_training {W} _.

(** The state of [keras.callbacks.EarlyStopping(monitor="val_loss",
    min_delta=0, patience=.., restore_best_weights=True)].  [best = None]
    is the initial infinite loss. *)
Record EarlyStopping (W : Type) : Type := {
  patience : nat;
  wait : nat;
  best : option Q;
  best_weights : option W;
  best_epoch : nat;
  stopped_epoch : nat
}.

Arguments patience {W} _.
Arguments wait {W} _.
Arguments best {W} _.
Arguments best_weights {W} _.
Arguments best_epoch {W} _.
Arguments stopped_epoch {W} _.

Definition Qlt_bool (x y : Q) : bool := negb (Qle_bool y x).

(** [np.less(current - min_delta, best)] with [min_delta = 0]. *)
Definition is_improvement (current : Q) (reference : option Q) : bool :=
  match reference with
  | None => true
  | Some b => Qlt_bool current b
  end.

(** [_reshape_for_cnn]: [X.astype("float32").reshape(-1, H, W, 1)].  The
    element conversion does not touch the shape and is left implicit. *)
Definition _reshape_for_cnn {Pixel : Type} (X : np.ndarray Pixel)
    : result (np.ndarray Pixel) :=
  np.reshape_free_first X [config.IMG_SIZE.1; config.IMG_SIZE.2; 1%nat].

Section ConvNet.
(** [W]: the value of all trainable weights.  [build_cnn k]: the freshly
    initialised network for [k] classes.  [run_epoch X y Xv yv epoch w]:
    one epoch of [model.fit] started from weights [w], that is the pass
    over the augmented batches of [(X, y)] followed by the evaluation on
    the validation data [(Xv, yv)]; it yields the updated weights and the
    epoch's logs, or raises.  [Keras_predict w X]: [model.predict(X)].
    [restore_on_train_end] tells the two generations of the callback
    apart: the older one restores the best weights at the epoch where it
    stops training, the newer one when training ends. *)
Context {Pixel W : Type}.
Variable build_cnn : Z -> W.
Variable run_epoch :
  np.ndarray Pixel -> list Z -> np.ndarray Pixel -> list Z -> nat -> W -> result (W * logs).
Variable Keras_predict : W -> np.ndarray Pixel -> result (list (list Q)).
Variable restore_on_train_end : bool.

Definition EarlyStopping_init (patience : nat) : EarlyStopping W :=
  {| patience := patience; wait := 0; best := None; best_weights := None;
     best_epoch := 0; stopped_epoch := 0 |}.

(** [EarlyStopping.on_epoch_end(epoch, logs)] *)
Definition on_epoch_end (epoch : nat) (lg : logs) (st : EarlyStopping W * Model W)
    : EarlyStopping W * Model W :=
  let '(cb, model) := st in
  let current := val_loss lg in
  let cb :=
    match best_weights cb with
    | None =>
        {| patience := patience cb; wait := wait cb; best := best cb;
           best_weights := Some (weights model); best_epoch := epoch;
           stopped_epoch := stopped_epoch cb |}
    | Some _ => cb
    end in
  let cb :=
    {| patience := patience cb; wait := S (wait cb); best := best cb;
       best_weights := best_weights cb; best_epoch := best_epoch cb;
       stopped_epoch := stopped_epoch cb |} in
  if is_improvement current (best cb) then
    ({| patience := patience cb; wait := 0; best := Some current;
        best_weights := Some (weights model); best_epoch := epoch;
        stopped_epoch := stopped_epoch cb |}, model)
  else if (patience cb <=? wait cb)%nat && (0 <? epoch)%nat then
    let cb' :=
      {| patience := patience cb; wait := wait cb; best := best cb;
         best_weights := best_weights cb; best_epoch := best_epoch cb;
         stopped_epoch := epoch |} in
    let w :=
      match best_weights cb with
      | Some bw => if restore_on_train_end then weights model else bw
      | None => weights model
      end in
    (cb', {| weights := w; stop_training := true |})
  else (cb, model).

(** [EarlyStopping.on_train_end()] *)
Definition on_train_end (st : EarlyStopping W * Model W) : EarlyStopping W * Model W :=
  let '(cb, model) := st in
  match best_weights cb with
  | Some bw =>
      if restore_on_train_end
      then (cb, {| weights := bw; stop_training := stop_training model |})
      else (cb, model)
  | None => (cb, model)
  end.

(** The epoch loop of [model.fit]: at most [n] further epochs from
    [epoch] on.  After each epoch the History callback appends the logs,
    the EarlyStopping callback runs, and the loop leaves when
    [stop_training] is set. *)
Fixpoint fit_loop (X_train : np.ndarray Pixel) (y_train : list Z)
    (X_val : np.ndarray Pixel) (y_val : list Z)
    (n epoch : nat) (cb : EarlyStopping W) (model : Model W) (history : list logs)
    : result (EarlyStopping W * Model W * list logs) :=
  match n with
  | O => Ok (cb, model, history)
  | S n' =>
      let* r := run_epoch X_train y_train X_val y_val epoch (weights model) in
      let model := {| weights := r.1; stop_training := stop_training model |} in
      let history := history ++ [r.2] in
      let '(cb, model) := on_epoch_end epoch r.2 (cb, model) in
      if stop_training model then Ok (cb, model, history)
      else fit_loop X_train y_train X_val y_val n' (S epoch) cb model history
  end.

(** [model.fit(.., epochs=epochs, callbacks=[early_stop])] *)
Definition fit (X_train : np.ndarray Pixel) (y_train : list Z)
    (X_val : np.ndarray Pixel) (y_val : list Z)
    (epochs : nat) (early_stop : EarlyStopping W) (model : Model W)
    : result (EarlyStopping W * Model W * list logs) :=
  let model := {| weights := weights model; stop_training := false |} in
  let* r := fit_loop X_train y_train X_val y_val epochs 0 early_stop model [] in
  let '(cb, model) := on_train_end (r.1.1, r.1.2) in
  Ok (cb, model, r.2).

(** [train_cnn], with the callback object kept next to the returned pair
    so that its final state can be spoken about. *)
Definition train_cnn_run (X_train : np.ndarray Pixel) (y_train : list Z)
    (X_test : np.ndarray Pixel) (y_test : list Z) (num_classes : Z)
    : result (EarlyStopping W * Model W * list logs) :=
  let* X_train_cnn := _reshape_for_cnn X_train in
  let* X_test_cnn := _reshape_for_cnn X_test in
  let model := {| weights := build_cnn num_classes; stop_training := false |} in
  let early_stop := EarlyStopping_init config.CNN_EARLY_STOPPING_PATIENCE in
  fit X_train_cnn y_train X_test_cnn y_test config.CNN_EPOCHS early_stop model.

Definition train_cnn (X_train : np.ndarray Pixel) (y_train : list Z)
    (X_test : np.ndarray Pixel) (y_test : list Z) (num_classes : Z)
    : result (Model W * list logs) :=
  let* r := train_cnn_run X_train y_train X_test y_test num_classes in
  Ok (r.1.2, r.2).

(** [predict_cnn]: [np.argmax(model.predict(X_cnn), axis=1)] *)
Definition predict_cnn (model : Model W) (X : np.ndarray Pixel) : result (list nat) :=
  let* X_cnn := _reshape_for_cnn X in
  let* probs := Keras_predict (weights model) X_cnn in
  mapM np.argmax probs.

(** The weights reached after epochs [0 .. e], for stating which epoch a
    returned model comes from. *)
Fixpoint weights_after (X_train : np.ndarray Pixel) (y_train : list Z)
    (X_val : np.ndarray Pixel) (y_val : list Z) (w0 : W) (e : nat) : result W :=
  match e with
  | O =>
      let* r := run_epoch X_train y_train X_val y_val 0%nat w0 in Ok r.1
  | S e' =>
      let* w := weights_after X_train y_train X_val y_val w0 e' in
      let* r := run_epoch X_train y_train X_val y_val e w in Ok r.1
  end.

End ConvNet.

End cnn_model.

(** ** evaluation.py *)

Module evaluation.

(** The scores are rationals: every finite float is one, and the
    divisions below are the only place where a NaN could arise, which
    [zero_division=0] (and the length check) rules out for non-empty
    input.  They are the exact values of the quotients and sums, without
    the rounding of float64 arithmetic. *)
Record MetricsRecord : Type := {
  accuracy : Q;
  precision : Q;
  recall : Q;
  f1 : Q
}.

(** How many positions hold [c] in both arrays (true positives of [c]). *)
Fixpoint true_positives (c : Z) (y_true y_pred : list Z) : nat :=
  match y_true, y_pred with
  | t :: y_true', p :: y_pred' =>
      ((if bool_decide (t = c /\ p = c) then 1 else 0)
       + true_positives c y_true' y_pred')%nat
  | _, _ => 0%nat
  end.

(** How many entries equal [c]: the support of [c] in [y_true], the number
    of predicted instances of [c] in [y_pred]. *)
Definition count (c : Z) (y : list Z) : nat :=
  length (List.filter (fun v => bool_decide (v = c)) y).

(** How many positions agree. *)
Fixpoint matches (y_true y_pred : list Z) : nat :=
  match y_true, y_pred with
  | t :: y_true', p :: y_pred' =>
      ((if bool_decide (t = p) then 1 else 0) + matches y_true' y_pred')%nat
  | _, _ => 0%nat
  end.

Definition Qnat (n : nat) : Q := inject_Z (Z.of_nat n).

(** [_prf_divide(numerator, denominator, zero_division=0)] *)
Definition prf_divide (numerator denominator : nat) : Q :=
  if (denominator =? 0)%nat then 0%Q
  else (Qnat numerator / Qnat denominator)%Q.

(** The labels scored: [unique_labels(y_true, y_pred)], sorted. *)
Definition unique_labels (y_true y_pred : list Z) : list Z :=
  np.unique Z.compare (y_true ++ y_pred).

Definition precision_of (c : Z) (y_true y_pred : list Z) : Q :=
  prf_divide (true_positives c y_true y_pred) (count c y_pred).

Definition recall_of (c : Z) (y_true y_pred : list Z) : Q :=
  prf_divide (true_positives c y_true y_pred) (count c y_true).

(** F1 of one class: [2 tp / (2 tp + fp + fn)], whose denominator is the
    number of predicted plus the number of true instances. *)
Definition f1_of (c : Z) (y_true y_pred : list Z) : Q :=
  prf_divide (2 * true_positives c y_true y_pred)
             (count c y_pred + count c y_true).

Definition Qsum (l : list Q) : Q := foldr Qplus 0%Q l.

(** One class's term of the support-weighted sum. *)
Definition weighted_term (score : Z -> list Z -> list Z -> Q) (y_true y_pred : list Z)
    (c : Z) : Q :=
  (Qnat (count c y_true) * score c y_true y_pred)%Q.

(** [average="weighted"]: the per-class scores averaged with the supports
    as weights; [zero_division] (0) when the supports sum to zero. *)
Definition weighted_average (score : Z -> list Z -> list Z -> Q)
    (y_true y_pred : list Z) : Q :=
  let labels := unique_labels y_true y_pred in
  let total := foldr Nat.add 0%nat (map (fun c => count c y_true) labels) in
  if (total =? 0)%nat then 0%Q
  else (Qsum (map (weighted_term score y_true y_pred) labels) / Qnat total)%Q.

Definition accuracy_score (y_true y_pred : list Z) : Q :=
  (Qnat (matches y_true y_pred) / Qnat (length y_true))%Q.

(** [compute_metrics].  scikit-learn refuses arrays of different lengths.
    The empty input, whose accuracy is 0/0, is outside the model and is
    reported as an error as well. *)
Definition compute_metrics (y_true y_pred : list Z) : result MetricsRecord :=
  if negb (length y_true =? length y_pred)%nat then Raise ValueError
  else if (length y_true =? 0)%nat then Raise ValueError
  else Ok {| accuracy := accuracy_score y_true y_pred;
             precision := weighted_average precision_of y_true y_pred;
             recall := weighted_average recall_of y_true y_pred;
             f1 := weighted_average f1_of y_true y_pred |}.

(** [classification_report(y_true, y_pred, target_names=class_names)] as
    far as its caller can tell.  No [labels] are passed, so the labels
    reported are [unique_labels(y_true, y_pred)], and scikit-learn
    raises ValueError when [target_names] does not have as many entries.
    The text of the report is only printed and is not modelled. *)
Definition classification_report (y_true y_pred : list Z) (target_names : list str)
    : result unit :=
  if negb (length y_true =? length y_pred)%nat then Raise ValueError
  else if negb (length (unique_labels y_true y_pred) =? length target_names)%nat
  then Raise ValueError
  else Ok tt.

(** [print_report]: the metrics are computed first, then the report is
    printed, and the metrics are returned. *)
Definition print_report (name : string) (y_true y_pred : list Z) (class_names : list str)
    : result MetricsRecord :=
  let* m := compute_metrics y_true y_pred in
  let* _ := classification_report y_true y_pred class_names in
  Ok m.

End evaluation.

(** ** main.py *)

Module main.
Import ml_models.

(** The namespace returned by [parse_args]. *)
Record Args : Type := {
  data : str;
  grid_search : bool;
  skip_cnn : bool
}.

(** The rows of [X_train] or [X_test] seen as the two-dimensional array
    they are: as many rows as samples, as many columns as a row has
    pixels.  (The rows of one array are equally long: they are flattened
    images of one size.) *)
Definition as_array {Pixel : Type} (rows : list (list Pixel)) : np.ndarray Pixel :=
  {| np.shape := [length rows; match rows with [] => 0%nat | row :: _ => length row end];
     np.data := concat rows |}.

Section Main.
(** Everything the pipeline takes from its libraries: the file system and
    the image reader, the generator of the split, the four estimators
    with their [predict], the grid search, the network.  Plots and
    printed lines leave no trace in the values below and are left out. *)
Variable isdigit : N -> bool.
Variable lower : str -> str.
Context {Pixel RandomState SVC DecisionTree RandomForest KMeans GridSearchCV W : Type}.
Variable isdir : str -> bool.
Variable listdir : str -> list str.
Variable open_image : str -> str -> result (list Pixel).
Variable div255 : list Pixel -> list Pixel.
Variable seed : Z -> RandomState.
Variable permutation : nat -> RandomState -> list nat * RandomState.
Variable GridSearchCV_fit :
  estimator -> list (list Pixel) -> list Z -> result GridSearchCV.
Variable SVC_fit : list (list Pixel) -> list Z -> result SVC.
Variable DecisionTree_fit : list (list Pixel) -> list Z -> result DecisionTree.
Variable RandomForest_fit : list (list Pixel) -> list Z -> result RandomForest.
Variable KMeans_fit : Z -> Z -> Z -> list (list Pixel) -> result KMeans.
Variable SVC_predict : SVC -> list (list Pixel) -> result (list Z).
Variable DecisionTree_predict : DecisionTree -> list (list Pixel) -> result (list Z).
Variable RandomForest_predict : RandomForest -> list (list Pixel) -> result (list Z).
Variable KMeans_predict : KMeans -> list (list Pixel) -> result (list Z).
Variable build_cnn : Z -> W.
Variable run_epoch :
  np.ndarray Pixel -> list Z -> np.ndarray Pixel -> list Z -> nat -> W
  -> result (W * cnn_model.logs).
Variable Keras_predict : W -> np.ndarray Pixel -> result (list (list Q)).
Variable restore_on_train_end : bool.

(** [entry["predict"](X)] *)
Definition entry_predict (e : entry SVC DecisionTree RandomForest KMeans)
    (X : list (list Pixel)) : result (list Z) :=
  match e with
  | SVM_entry svm => SVC_predict svm X
  | DT_entry dt => DecisionTree_predict dt X
  | RF_entry rf => RandomForest_predict rf X
  | KMeans_entry km mapping => predict_kmeans KMeans_predict km mapping X
  end.

(** The loop [for name, entry in models.items()], threading [results]. *)
Fixpoint evaluate_models
    (models : list (string * entry SVC DecisionTree RandomForest KMeans))
    (X_test : list (list Pixel)) (y_test : list Z) (class_names : list str)
    (results : list (string * evaluation.MetricsRecord))
    : result (list (string * evaluation.MetricsRecord)) :=
  match models with
  | [] => Ok results
  | (name, e) :: rest =>
      let* y_pred := entry_predict e X_test in
      let* metrics := evaluation.print_report name y_test y_pred class_names in
      evaluate_models rest X_test y_test class_names (dict_set name metrics results)
  end.

(** [main()], returning the [results] table it has built when it ends. *)
Definition main_run (args : Args) : result (list (string * evaluation.MetricsRecord)) :=
  let* d := data_loader.prepare_data isdigit lower isdir listdir open_image div255
              seed permutation (data args) in
  let X_train := data_loader.X_train d in
  let X_test := data_loader.X_test d in
  let y_train := data_loader.y_train d in
  let y_test := data_loader.y_test d in
  let class_names := data_loader.class_names d in
  let n_classes := Z.of_nat (length class_names) in
  let* _ := (if grid_search args
             then let* _ := run_grid_search GridSearchCV_fit X_train y_train in Ok tt
             else Ok tt) in
  let* models := train_all_models SVC_fit DecisionTree_fit RandomForest_fit
                   KMeans_fit KMeans_predict X_train y_train n_classes in
  let* results := evaluate_models models X_test y_test class_names [] in
  if negb (skip_cnn args) then
    let* r := cnn_model.train_cnn build_cnn run_epoch restore_on_train_end
                (as_array X_train) y_train (as_array X_test) y_test n_classes in
    let* y_pred_cnn := cnn_model.predict_cnn Keras_predict r.1 (as_array X_test) in
    let* cnn_metrics := evaluation.print_report "CNN" y_test
                          (map Z.of_nat y_pred_cnn) class_names in
    Ok (dict_set "CNN" cnn_metrics results)
  else Ok results.

End Main.

End main.

(** ** Vocabulary of the statements *)

Module spec.

(** How often [l] occurs in [ys]. *)
Definition occurrences (l : Z) (ys : list Z) : nat :=
  length (List.filter (fun v => bool_decide (v = l)) ys).

(** Position of the first occurrence of [l] in [ys] ([length ys] if none). *)
Fixpoint first_index (l : Z) (ys : list Z) : nat :=
  match ys with
  | [] => 0%nat
  | y :: ys' => if decide (y = l) then 0%nat else S (first_index l ys')
  end.

(** The true labels of the training points assigned to cluster [cid], in
    training order. *)
Definition members (cluster_labels y_train : list Z) (cid : Z) : list Z :=
  np.select y_train (np.eq_mask cluster_labels cid).

(** [l] is a majority label of [ys]. *)
Definition majority (ys : list Z) (l : Z) : Prop :=
  l ∈ ys /\ forall l', (occurrences l' ys <= occurrences l ys)%nat.

(** Tie-break of the specification: the lowest class id among the
    majority labels. *)
Definition lowest_id_wins (ys : list Z) (l : Z) : Prop :=
  forall l', occurrences l' ys = occurrences l ys -> l <= l'.

(** Tie-break of the code: the majority label met first. *)
Definition first_seen_wins (ys : list Z) (l : Z) : Prop :=
  forall l', l' <> l -> occurrences l' ys = occurrences l ys ->
    (first_index l ys < first_index l' ys)%nat.

(** A class id of a [K]-class problem. *)
Definition class_id (K : Z) (l : Z) : Prop := 0 <= l < K.

(** Strictly ascending for a three-way comparison: sorted, no repeats. *)
Definition ascending {A : Type} (cmp : A -> A -> comparison) (l : list A) : Prop :=
  StronglySorted (fun x y => cmp x y = Lt) l.

(** H x W *)
Definition pixels_per_image : nat := (config.IMG_SIZE.1 * config.IMG_SIZE.2)%nat.

(** The input the CNN functions document: flat vectors [(N, H*W)]. *)
Definition flat_image_batch {A : Type} (X : np.ndarray A) : Prop :=
  exists N, np.shape X = [N; pixels_per_image].

(** Entry [e] of the history, [lg], holds the minimum validation loss and
    is the first entry to do so. *)
Definition first_minimum (history : list cnn_model.logs) (e : nat) (lg : cnn_model.logs)
    : Prop :=
  history !! e = Some lg
  /\ (forall j lg', (j < e)%nat -> history !! j = Some lg' ->
        (cnn_model.val_loss lg < cnn_model.val_loss lg')%Q)
  /\ (forall j lg', (e < j)%nat -> history !! j = Some lg' ->
        (cnn_model.val_loss lg <= cnn_model.val_loss lg')%Q).

(** The last [k] epochs of the history brought no improvement: exactly
    [k] epochs follow the first one that holds the minimum. *)
Definition stalled_for (history : list cnn_model.logs) (k : nat) : Prop :=
  exists e lg, first_minimum history e lg /\ length history = (e + 1 + k)%nat.

(** At no epoch of [history] had the validation loss failed to improve
    for [P] epochs in a row. *)
Definition never_stalled (P : nat) (history : list cnn_model.logs) : Prop :=
  forall h, h <> [] -> h `prefix_of` history ->
    exists k, (k < P)%nat /\ stalled_for h k.

(** [p] is the part of [s] before its first [sep] (all of [s] if none). *)
Definition prefix_before (sep : N) (s p : str) : Prop :=
  (sep ∉ p) /\ (s = p \/ exists rest, s = p ++ sep :: rest).

(** [label] is [p] with the characters satisfying [digit] deleted, the
    others kept in order. *)
Definition without_digits (digit : N -> bool) (p label : str) : Prop :=
  label = List.filter (fun c => negb (digit c)) p.

(** The precision term of class [c] in the support-weighted sum: the
    share of the predicted instances of [c] that are right, weighted by
    the support of [c]; zero for a class that is never predicted. *)
Definition precision_term (y_true y_pred : list Z) (c : Z) : Q :=
  if bool_decide (c ∈ y_pred)
  then (evaluation.Qnat (evaluation.count c y_true)
        * (evaluation.Qnat (evaluation.true_positives c y_true y_pred)
           / evaluation.Qnat (evaluation.count c y_pred)))%Q
  else 0%Q.

(** The fraction of the entries of [ys] that are [c] (0 for no entries). *)
Definition class_fraction (c : Z) (ys : list Z) : Q :=
  Z.of_nat (occurrences c ys) # Pos.of_nat (length ys).

(** How far the fraction of [c] in [part] is from its fraction in [full]. *)
Definition fraction_gap (c : Z) (part full : list Z) : Q :=
  Qabs (class_fraction c part - class_fraction c full).

(** The tolerance the specification gives as an example. *)
Definition five_percent : Q := 5 # 100.

(** A tolerance that no split exceeds, whatever the dataset. *)
Definition split_tolerance : Q := 1 # 4.

End spec.

(** ** Counting for the stratified split *)

Module split_counts.

(** How many of the positions [l] carry the label [c] in [y]. *)
Definition hits (y : list Z) (c : Z) (l : list nat) : nat :=
  length (filter (fun p => y !! p = Some c) l).

(** How many entries of [remainder] are positive and still among the
    values to be visited. *)
Definition pending_positive (values remainder : list nat) : nat :=
  length (filter (fun r => (0 < r)%nat /\ r ∈ values) remainder).

(** What [_approximate_mode] may give a class of [c] members when
    [n_draws] are drawn from [total]: the floor of its share, or one more
    when the share is not whole. *)
Definition share (c n_draws total m : nat) : Prop :=
  (m = c * n_draws / total
   \/ (m = c * n_draws / total + 1 /\ 0 < c * n_draws mod total))%nat.

(** Strictly descending. *)
Definition descending (values : list nat) : Prop :=
  StronglySorted (fun x y => (y < x)%nat) values.

End split_counts.

(** ** Notions for the loader *)

Module loader_spec.

Definition returns {A : Type} (m : result A) : bool :=
  match m with
  | Ok _ => true
  | Raise _ => false
  end.

(** A file the loader keeps: its lower-cased name ends in [.png] and its
    image can be read. *)
Definition usable {Image : Type} (lower : str -> str)
    (open_image : str -> str -> result Image) (folder fname : str) : bool :=
  endswith (lower fname) data_loader.dot_png && returns (open_image folder fname).

(** The order of [sorted] on strings: code point by code point. *)
Definition str_le (a b : str) : Prop := str_compare a b <> Gt.

End loader_spec.

(** ** States of the epoch loop *)

Module fit_states.
Import cnn_model spec.

Section Loop.
Context {Pixel W : Type}.
Variable run_epoch :
  np.ndarray Pixel -> list Z -> np.ndarray Pixel -> list Z -> nat -> W -> result (W * logs).
Variable restore_on_train_end : bool.
Variables (X_train : np.ndarray Pixel) (y_train : list Z).
Variables (X_val : np.ndarray Pixel) (y_val : list Z).
Variable w0 : W.
Variable P : nat.

(** Between two epochs, [epoch] of them being done. *)
Definition running (epoch : nat) (cb : EarlyStopping W) (model : Model W)
    (history : list logs) : Prop :=
  length history = epoch /\ stop_training model = false /\ patience cb = P
  /\ never_stalled P history
  /\ match epoch with
     | O => best cb = None /\ best_weights cb = None /\ wait cb = 0%nat
            /\ weights model = w0
     | S last =>
         exists e lg w_e,
           first_minimum history e lg
           /\ best cb = Some (val_loss lg)
           /\ weights_after run_epoch X_train y_train X_val y_val w0 e = Ok w_e
           /\ best_weights cb = Some w_e
           /\ (wait cb + e = last)%nat /\ (wait cb < P)%nat
           /\ weights_after run_epoch X_train y_train X_val y_val w0 last
              = Ok (weights model)
     end.

(** Once the callback has stopped training. *)
Definition stopped (cb : EarlyStopping W) (model : Model W) (history : list logs) : Prop :=
  stop_training model = true
  /\ (forall h, h `prefix_of` history -> h <> history -> never_stalled P h)
  /\ exists e lg w_e,
       first_minimum history e lg
       /\ weights_after run_epoch X_train y_train X_val y_val w0 e = Ok w_e
       /\ best_weights cb = Some w_e
       /\ length history = (e + 1 + P)%nat
       /\ (restore_on_train_end = false -> weights model = w_e).

End Loop.

End fit_states.

(** ** A one-dimensional K-Means for concrete runs

    Points are integers.  Fitting [k] clusters on data with at least [k]
    distinct values takes the [k] smallest distinct values as centres (on
    data with exactly [k] distinct values these are the centres any
    K-Means converges to); prediction is the index of the nearest centre,
    the first one on a tie. *)

Module toy.

Fixpoint nearest_from (best_i : nat) (best_d : Z) (i : nat) (x : Z) (centres : list Z) : nat :=
  match centres with
  | [] => best_i
  | c :: centres' =>
      if Z.abs (x - c) <? best_d then nearest_from i (Z.abs (x - c)) (S i) x centres'
      else nearest_from best_i best_d (S i) x centres'
  end.

Definition nearest (centres : list Z) (x : Z) : Z :=
  match centres with
  | [] => 0
  | c :: centres' => Z.of_nat (nearest_from 0%nat (Z.abs (x - c)) 1%nat x centres')
  end.

Definition KMeans_fit (n_clusters random_state n_init : Z) (X : list Z) : result (list Z) :=
  let distinct := np.unique Z.compare X in
  if (Z.of_nat (length distinct) <? n_clusters) || (n_clusters <=? 0)
  then Raise ValueError
  else Ok (take (Z.to_nat n_clusters) distinct).

Definition KMeans_predict (centres : list Z) (X : list Z) : result (list Z) :=
  Ok (map (nearest centres) X).

(** A K-Means whose centres are given from the start, whatever the rows:
    a cluster may then hold no training row. *)
Definition KMeans_fit_fixed (centres : list Z) (n_clusters random_state n_init : Z)
    (X : list Z) : result (list Z) :=
  Ok centres.

(** Estimators that always fit, and one that never does. *)
Definition fit_ok (X : list Z) (y : list Z) : result unit := Ok tt.
Definition fit_fails (X : list Z) (y : list Z) : result unit := Raise ValueError.

(** The ASCII part of [str.isdigit] and [str.lower], and a folder of three
    files whose images all open. *)
Definition isdigit (c : N) : bool := ((48 <=? c) && (c <=? 57))%N.

Definition lower (s : str) : str :=
  map (fun c => if ((65 <=? c) && (c <=? 90))%N then (c + 32)%N else c) s.

Definition isdir (folder : str) : bool := true.

Definition listdir (folder : str) : list str :=
  [lit "notes.txt"; lit "Ca1ja12_gauss_0.10.png"; lit "Avion3_clean.PNG"].

Definition open_image (folder fname : str) : result unit := Ok tt.

(** A folder of seven images: two of one class, five of another. *)
Definition listdir_seven (folder : str) : list str :=
  [lit "Avion1_clean.png"; lit "Avion2_clean.png";
   lit "Caja1_clean.png"; lit "Caja2_clean.png"; lit "Caja3_clean.png";
   lit "Caja4_clean.png"; lit "Caja5_clean.png"].

Definition div255 (img : unit) : unit := img.

(** What [prepare_data] returns for that folder under the generator that
    never shuffles. *)
Definition seven_split : data_loader.Data unit :=
  {| data_loader.X_train := [tt; tt; tt; tt; tt];
     data_loader.X_test := [tt; tt];
     data_loader.y_train := [0; 1; 1; 1; 1];
     data_loader.y_test := [0; 1];
     data_loader.label_encoder := [lit "Avion"; lit "Caja"];
     data_loader.class_names := [lit "Avion"; lit "Caja"] |}.

(** A folder of ten images, five of each of two classes. *)
Definition listdir_ten (folder : str) : list str :=
  [lit "Avion1_a.png"; lit "Avion2_a.png"; lit "Avion3_a.png"; lit "Avion4_a.png";
   lit "Avion5_a.png"; lit "Caja1_a.png"; lit "Caja2_a.png"; lit "Caja3_a.png";
   lit "Caja4_a.png"; lit "Caja5_a.png"].

(** What [prepare_data] returns for it under the generator that never
    shuffles. *)
Definition ten_split : data_loader.Data unit :=
  {| data_loader.X_train := [tt; tt; tt; tt; tt; tt; tt; tt];
     data_loader.X_test := [tt; tt];
     data_loader.y_train := [0; 0; 0; 0; 1; 1; 1; 1];
     data_loader.y_test := [0; 1];
     data_loader.label_encoder := [lit "Avion"; lit "Caja"];
     data_loader.class_names := [lit "Avion"; lit "Caja"] |}.

(** A folder of two images of one class and eight of another, images of
    64 x 64 zero pixels, and estimators on such rows: fits that keep
    nothing, a classifier that always answers class 1, a K-Means with a
    single cluster. *)
Definition listdir_two_eight (folder : str) : list str :=
  [lit "Avion1_a.png"; lit "Avion2_a.png"; lit "Caja1_a.png"; lit "Caja2_a.png";
   lit "Caja3_a.png"; lit "Caja4_a.png"; lit "Caja5_a.png"; lit "Caja6_a.png";
   lit "Caja7_a.png"; lit "Caja8_a.png"].

Definition open_row (folder fname : str) : result (list Z) := Ok (repeat 0 4096).
Definition div255_row (img : list Z) : list Z := img.
Definition search_ok (est : ml_models.estimator) (X : list (list Z)) (y : list Z)
    : result unit := Ok tt.
Definition fit_rows (X : list (list Z)) (y : list Z) : result unit := Ok tt.
Definition predict_one (model : unit) (X : list (list Z)) : result (list Z) :=
  Ok (map (fun _ => 1) X).
Definition KMeans_fit_rows (n_clusters random_state n_init : Z) (X : list (list Z))
    : result unit := Ok tt.
Definition KMeans_predict_rows (model : unit) (X : list (list Z)) : result (list Z) :=
  Ok (map (fun _ => 0) X).

(** What [prepare_data] returns for the folder of two and eight under the
    generator that never shuffles: both images of the first class are in
    the train part. *)
Definition two_eight_split : data_loader.Data (list Z) :=
  {| data_loader.X_train := repeat (repeat 0 4096) 8;
     data_loader.X_test := repeat (repeat 0 4096) 2;
     data_loader.y_train := [0; 0; 1; 1; 1; 1; 1; 1];
     data_loader.y_test := [1; 1];
     data_loader.label_encoder := [lit "Avion"; lit "Caja"];
     data_loader.class_names := [lit "Avion"; lit "Caja"] |}.

(** What [prepare_data] returns for the folder of ten with these images. *)
Definition ten_rows_split : data_loader.Data (list Z) :=
  {| data_loader.X_train := repeat (repeat 0 4096) 8;
     data_loader.X_test := repeat (repeat 0 4096) 2;
     data_loader.y_train := [0; 0; 0; 0; 1; 1; 1; 1];
     data_loader.y_test := [0; 1];
     data_loader.label_encoder := [lit "Avion"; lit "Caja"];
     data_loader.class_names := [lit "Avion"; lit "Caja"] |}.

(** A generator that never shuffles: every permutation is the identity. *)
Definition seed (s : Z) : unit := tt.
Definition permutation (n : nat) (rng : unit) : list nat * unit := (seq 0 n, tt).

(** A network whose weights are the number of epochs run so far, whose
    validation loss follows a fixed curve, and which predicts the same
    two-class distribution for every image. *)
Definition val_curve : list Q := [5; 4; 3; 3; 4; 5; 6; 7; 2; 1]%Q.

Definition build_cnn (num_classes : Z) : nat := 0%nat.

Definition run_epoch (X_train : np.ndarray Z) (y_train : list Z)
    (X_val : np.ndarray Z) (y_val : list Z) (epoch : nat) (w : nat)
    : result (nat * cnn_model.logs) :=
  Ok (S w, {| cnn_model.loss := 1; cnn_model.accuracy := 0;
              cnn_model.val_loss := nth epoch val_curve 9%Q;
              cnn_model.val_accuracy := 0 |}).

(** The same network with a validation loss that never moves, and with
    one that falls at every epoch but the last of fifty. *)
Definition run_epoch_flat (X_train : np.ndarray Z) (y_train : list Z)
    (X_val : np.ndarray Z) (y_val : list Z) (epoch : nat) (w : nat)
    : result (nat * cnn_model.logs) :=
  Ok (S w, {| cnn_model.loss := 1; cnn_model.accuracy := 0;
              cnn_model.val_loss := 1; cnn_model.val_accuracy := 0 |}).

Definition run_epoch_late_rise (X_train : np.ndarray Z) (y_train : list Z)
    (X_val : np.ndarray Z) (y_val : list Z) (epoch : nat) (w : nat)
    : result (nat * cnn_model.logs) :=
  Ok (S w, {| cnn_model.loss := 1; cnn_model.accuracy := 0;
              cnn_model.val_loss :=
                if (epoch =? 49)%nat then 100%Q
                else inject_Z (100 - Z.of_nat epoch);
              cnn_model.val_accuracy := 0 |}).

Definition Keras_predict (w : nat) (X : np.ndarray Z) : result (list (list Q)) :=
  Ok (repeat [(1 # 2)%Q; (1 # 2)%Q] (hd 0%nat (np.shape X))).

(** Two rows of 2048 pixels, and one row of 4096. *)
Definition two_half_rows : np.ndarray Z :=
  {| np.shape := [2; 2048]%nat; np.data := repeat 0 4096 |}.

Definition one_image : np.ndarray Z :=
  {| np.shape := [1; 4096]%nat; np.data := repeat 0 4096 |}.

(** Three rows of 100 pixels. *)
Definition three_short_rows : np.ndarray Z :=
  {| np.shape := [3; 100]%nat; np.data := repeat 0 300 |}.

End toy.

(** * Properties *)

(** ** Generic facts *)

Section ResultFacts.
Context {A B : Type}.

Lemma bind_Ok (m : result A) (k : A -> result B) (b : B) :
  Py.bind m k = Ok b -> exists a, m = Ok a /\ k a = Ok b.
Proof. destruct m as [a|e]; simpl; [eauto | discriminate]. Qed.

Lemma bind_Ok_l (m : result A) (k : A -> result B) (a : A) :
  m = Ok a -> Py.bind m k = k a.
Proof. by intros ->. Qed.

End ResultFacts.

(** ** collections.Counter and most_common *)

Module CounterFacts.
Import collections spec.

Lemma occurrences_app l ys zs :
  occurrences l (ys ++ zs) = (occurrences l ys + occurrences l zs)%nat.
Proof. unfold occurrences. by rewrite List.filter_app, length_app. Qed.

Lemma occurrences_cons l y ys :
  occurrences l (y :: ys)
  = ((if decide (y = l) then 1 else 0) + occurrences l ys)%nat.
Proof.
  unfold occurrences. simpl.
  case_bool_decide; case_decide; simpl; congruence.
Qed.

Lemma occurrences_pos l ys : (0 < occurrences l ys)%nat <-> l ∈ ys.
Proof.
  induction ys as [|y ys IH]; simpl.
  - unfold occurrences; simpl. split; [lia | by intros ?%elem_of_nil].
  - rewrite occurrences_cons, elem_of_cons.
    destruct (decide (y = l)) as [->|Hne]; [split; [auto | lia] |].
    simpl. rewrite IH. split; [by right | by intros [?|?]].
Qed.

Lemma first_index_lt l ys : (first_index l ys < length ys)%nat <-> l ∈ ys.
Proof.
  induction ys as [|y ys IH]; simpl.
  - split; [lia | by intros ?%elem_of_nil].
  - rewrite elem_of_cons. destruct (decide (y = l)) as [->|Hne].
    + split; [auto | lia].
    + split; [intros ?; right; apply IH; lia |].
      intros [?|Hin]; [congruence | apply IH in Hin; lia].
Qed.

Lemma first_index_app_l l ys zs :
  l ∈ ys -> first_index l (ys ++ zs) = first_index l ys.
Proof.
  induction ys as [|y ys IH]; simpl; [by intros ?%elem_of_nil |].
  intros Hin. case_decide; [done |].
  apply elem_of_cons in Hin as [?|?]; [congruence | by rewrite IH].
Qed.

Lemma first_index_app_r l ys zs :
  l ∉ ys -> first_index l (ys ++ zs) = (length ys + first_index l zs)%nat.
Proof.
  induction ys as [|y ys IH]; simpl; [done |].
  intros Hnin. apply not_elem_of_cons in Hnin as [? ?].
  case_decide; [congruence | by rewrite IH].
Qed.

(** [c[k]] of a Counter: the stored count, 0 for a missing key. *)
Fixpoint get (k : Z) (c : list (Z * nat)) : nat :=
  match c with
  | [] => 0%nat
  | (k', n) :: c' => if decide (k' = k) then n else get k c'
  end.

Lemma incr_fst e c :
  (incr e c).*1 = if decide (e ∈ c.*1) then c.*1 else c.*1 ++ [e].
Proof.
  induction c as [|[k n] c IH]; csimpl.
  - destruct (decide (e ∈ [])) as [H|H]; [by apply elem_of_nil in H | done].
  - destruct (decide (k = e)) as [->|Hne]; csimpl.
    + rewrite decide_True by (by left). done.
    + rewrite IH. destruct (decide (e ∈ c.*1)) as [Hin|Hnin].
      * rewrite decide_True by (by right). done.
      * rewrite decide_False; [done |].
        intros [?|?]%elem_of_cons; congruence.
Qed.

Lemma get_incr k e c :
  get k (incr e c) = (get k c + if decide (e = k) then 1 else 0)%nat.
Proof.
  induction c as [|[k' n] c IH]; simpl.
  - case_decide; lia.
  - destruct (decide (k' = e)) as [->|Hne]; simpl.
    + destruct (decide (e = k)); lia.
    + destruct (decide (k' = k)) as [->|?].
      * rewrite decide_False by congruence. lia.
      * apply IH.
Qed.

Lemma get_elem k n c : NoDup c.*1 -> (k, n) ∈ c -> get k c = n.
Proof.
  induction c as [|[k' n'] c IH]; csimpl; [by intros _ ?%elem_of_nil |].
  intros [Hnin Hnd]%NoDup_cons [Heq|Hin]%elem_of_cons.
  - injection Heq as -> ->. by rewrite decide_True.
  - destruct (decide (k' = k)) as [->|?]; [| by apply IH].
    exfalso. apply Hnin. apply list_elem_of_fmap. by exists (k, n).
Qed.

Lemma elem_get k c : k ∈ c.*1 -> (k, get k c) ∈ c.
Proof.
  induction c as [|[k' n'] c IH]; csimpl; [by intros ?%elem_of_nil |].
  destruct (decide (k' = k)) as [->|?]; [by left |].
  intros [?|?]%elem_of_cons; [congruence | right; by apply IH].
Qed.

(** What a Counter built from [ys] holds. *)
Record Counter_inv (ys : list Z) (c : list (Z * nat)) : Prop := {
  inv_nodup : NoDup c.*1;
  inv_keys : forall k, k ∈ c.*1 <-> k ∈ ys;
  inv_get : forall k, get k c = occurrences k ys;
  inv_order : forall i j k1 k2,
    c.*1 !! i = Some k1 -> c.*1 !! j = Some k2 -> (i < j)%nat ->
    (first_index k1 ys < first_index k2 ys)%nat
}.

Lemma Counter_snoc ys y : Counter (ys ++ [y]) = incr y (Counter ys).
Proof. unfold Counter. by rewrite foldl_app. Qed.

Lemma Counter_spec ys : Counter_inv ys (Counter ys).
Proof.
  induction ys as [|y ys IH] using rev_ind.
  - split; simpl.
    + constructor.
    + done.
    + done.
    + intros i j k1 k2 H. by rewrite lookup_nil in H.
  - destruct IH as [Hnd Hkeys Hget Hord].
    rewrite Counter_snoc.
    assert (Hfst := incr_fst y (Counter ys)).
    split.
    + rewrite Hfst. case_decide as Hin; [done |].
      apply NoDup_app. split; [done |]. split; [| apply NoDup_singleton].
      intros k Hk ->%list_elem_of_singleton. done.
    + intros k. rewrite Hfst, elem_of_app, list_elem_of_singleton.
      case_decide as Hin.
      * rewrite Hkeys. split; [by left |].
        intros [?| ->]; [done | by apply Hkeys].
      * rewrite elem_of_app, list_elem_of_singleton, Hkeys. done.
    + intros k. rewrite get_incr, Hget, occurrences_app.
      f_equal. unfold occurrences. simpl.
      destruct (decide (y = k)) as [Hy|Hy];
        [rewrite bool_decide_eq_true_2 by done
        | rewrite bool_decide_eq_false_2 by done]; done.
    + intros i j k1 k2. rewrite Hfst.
      destruct (decide (y ∈ (Counter ys).*1)) as [Hin|Hnin].
      * intros Hi Hj Hlt.
        rewrite !first_index_app_l.
        -- by eapply Hord.
        -- apply Hkeys. by eapply list_elem_of_lookup_2.
        -- apply Hkeys. by eapply list_elem_of_lookup_2.
      * intros Hi Hj Hlt.
        assert (j < length ((Counter ys).*1 ++ [y]))%nat as Hjlen
          by (by eapply lookup_lt_Some).
        rewrite length_app in Hjlen. simpl in Hjlen.
        assert (i < length (Counter ys).*1)%nat as Hilen by lia.
        rewrite lookup_app_l in Hi by done.
        assert (k1 ∈ ys) as Hk1
          by (apply Hkeys; by eapply list_elem_of_lookup_2).
        rewrite (first_index_app_l k1) by done.
        destruct (decide (j < length (Counter ys).*1)%nat) as [Hj'|Hj'].
        -- rewrite lookup_app_l in Hj by done.
           rewrite first_index_app_l.
           ++ by eapply Hord.
           ++ apply Hkeys. by eapply list_elem_of_lookup_2.
        -- rewrite lookup_app_r in Hj by lia.
           replace (j - length (Counter ys).*1)%nat with 0%nat in Hj by lia.
           simpl in Hj. injection Hj as <-.
           rewrite first_index_app_r by (by rewrite <- Hkeys).
           apply first_index_lt in Hk1. lia.
Qed.

(** [max] with a key returns the first maximal item. *)
Lemma max_by_count_spec best items :
  let r := max_by_count best items in
  exists i, (best :: items) !! i = Some r
    /\ (forall it, it ∈ best :: items -> (it.2 <= r.2)%nat)
    /\ (forall j it, (j < i)%nat -> (best :: items) !! j = Some it -> (it.2 < r.2)%nat).
Proof.
  revert best. induction items as [|it rest IH]; intros best; simpl.
  - exists 0%nat. split; [done |]. split.
    + by intros it ->%list_elem_of_singleton.
    + intros; lia.
  - destruct (best.2 <? it.2)%nat eqn:Hlt.
    + apply Nat.ltb_lt in Hlt.
      destruct (IH it) as (i & Hi & Hmax & Hbefore).
      exists (S i). split; [done |]. split.
      * intros x [->|Hx]%elem_of_cons; [| by apply Hmax].
        specialize (Hmax it (list_elem_of_here _ _)). lia.
      * intros [|j] x Hj Hx; simpl in Hx.
        -- injection Hx as <-.
           specialize (Hmax it (list_elem_of_here _ _)). lia.
        -- apply (Hbefore j); [lia | done].
    + apply Nat.ltb_ge in Hlt.
      destruct (IH best) as (i & Hi & Hmax & Hbefore).
      assert (best.2 <= (max_by_count best rest).2)%nat as Hbest
        by (apply Hmax; by left).
      destruct i as [|i].
      * exists 0%nat. split; [done |]. split; [| intros; lia].
        intros x [->|[->|Hx]%elem_of_cons]%elem_of_cons;
          [done | lia | apply Hmax; by right].
      * exists (S (S i)). split; [done |]. split.
        -- intros x [->|[->|Hx]%elem_of_cons]%elem_of_cons;
             [done | lia | apply Hmax; by right].
        -- assert (best.2 < (max_by_count best rest).2)%nat as Hb0
             by (apply (Hbefore 0%nat); [lia | done]).
           intros [|[|j]] x Hj Hx; simpl in Hx.
           ++ by injection Hx as <-.
           ++ injection Hx as <-. lia.
           ++ apply (Hbefore (S j)); [lia | done].
Qed.

End CounterFacts.

(** ** numpy.unique and numpy.searchsorted *)

Section UniqueFacts.
Context {A : Type} (cmp : A -> A -> comparison).
Hypothesis cmp_eq : forall x y, cmp x y = Eq <-> x = y.

Lemma elem_of_insert_unique z x l :
  z ∈ np.insert_unique cmp x l <-> z = x \/ z ∈ l.
Proof.
  induction l as [|y l IH]; simpl.
  - rewrite list_elem_of_singleton, elem_of_nil. tauto.
  - destruct (cmp x y) eqn:Hc.
    + apply cmp_eq in Hc as ->. rewrite elem_of_cons. tauto.
    + rewrite !elem_of_cons. tauto.
    + rewrite !elem_of_cons, IH. tauto.
Qed.

Lemma elem_of_unique z a : z ∈ np.unique cmp a <-> z ∈ a.
Proof.
  induction a as [|x a IH]; simpl; [done |].
  unfold np.unique in *. simpl.
  rewrite elem_of_insert_unique, IH, elem_of_cons. done.
Qed.

Hypothesis cmp_antisym : forall x y, cmp y x = CompOpp (cmp x y).
Hypothesis cmp_trans : forall x y z, cmp x y = Lt -> cmp y z = Lt -> cmp x z = Lt.

Local Abbreviation ascending := (spec.ascending cmp).

Lemma insert_unique_ascending x l :
  ascending l -> ascending (np.insert_unique cmp x l).
Proof.
  unfold spec.ascending. induction 1 as [|y l Hl IH Hall]; simpl.
  - repeat constructor.
  - destruct (cmp x y) eqn:Hc.
    + by constructor.
    + constructor; [by constructor |].
      constructor; [done |].
      eapply Forall_impl; [exact Hall |]. intros z Hz. simpl in Hz. by eapply cmp_trans.
    + constructor; [done |].
      apply Forall_forall. intros z [->|Hz]%elem_of_insert_unique.
      * rewrite cmp_antisym, Hc. done.
      * by eapply (proj1 (Forall_forall _ _) Hall).
Qed.

Lemma unique_ascending a : ascending (np.unique cmp a).
Proof.
  induction a as [|x a IH]; [constructor |].
  by apply insert_unique_ascending.
Qed.

Lemma ascending_NoDup l : ascending l -> NoDup l.
Proof.
  induction 1 as [|y l Hl IH Hall]; constructor; [| done].
  intros Hin. apply (proj1 (Forall_forall _ _) Hall) in Hin.
  assert (cmp y y = Eq) as Heq by (by apply cmp_eq). congruence.
Qed.

(** In an ascending array, [searchsorted] finds each entry at its own
    position. *)
Lemma searchsorted_lookup l v :
  ascending l -> v ∈ l -> l !! np.searchsorted cmp l v = Some v.
Proof.
  induction 1 as [|y l Hl IH Hall]; [by intros ?%elem_of_nil |].
  intros [->|Hin]%elem_of_cons; simpl.
  - assert (cmp y y = Eq) as -> by (by apply cmp_eq). done.
  - apply (proj1 (Forall_forall _ _) Hall) in Hin as Hlt. rewrite Hlt.
    simpl. by apply IH.
Qed.

End UniqueFacts.

Lemma Z_compare_antisym x y : (y ?= x) = CompOpp (x ?= y).
Proof. apply Z.compare_antisym. Qed.

Lemma Z_compare_trans x y z : (x ?= y) = Lt -> (y ?= z) = Lt -> (x ?= z) = Lt.
Proof. rewrite !Z.compare_lt_iff. lia. Qed.

(** ** ml_models.py: the cluster-derived classifier *)

Module ml_models_facts.
Import ml_models spec CounterFacts.

Lemma elem_of_select {A : Type} (x : A) (y : list A) (mask : list bool) :
  x ∈ np.select y mask -> x ∈ y.
Proof.
  revert mask. induction y as [|v y IH]; intros [|b mask]; simpl;
    try (by intros ?%elem_of_nil).
  destruct b.
  - intros [->|?]%elem_of_cons; [by left | right; eauto].
  - intros ?. right. eauto.
Qed.

Lemma members_nonempty cluster_labels y_train cid :
  length cluster_labels = length y_train ->
  cid ∈ cluster_labels -> members cluster_labels y_train cid <> [].
Proof.
  unfold members, np.eq_mask.
  revert y_train. induction cluster_labels as [|c cl IH]; intros [|v y]; simpl;
    try discriminate; [by intros _ ?%elem_of_nil |].
  intros Hlen [->|Hin]%elem_of_cons.
  - by rewrite bool_decide_eq_true_2.
  - destruct (bool_decide (c = cid)); [done |]. apply IH; [lia | done].
Qed.

Lemma most_common_label_Ok y mask l :
  most_common_label y mask = Ok l ->
  length mask = length y
  /\ majority (np.select y mask) l /\ first_seen_wins (np.select y mask) l.
Proof.
  unfold most_common_label, np.bool_index.
  destruct (decide (length mask = length y)) as [Hlen|]; [| discriminate].
  simpl. set (ys := np.select y mask).
  destruct (Counter_spec ys) as [Hnd Hkeys Hget Hord].
  destruct (collections.Counter ys) as [|it rest] eqn:Hc; [discriminate |].
  simpl. intros [= <-]. split; [done |].
  destruct (max_by_count_spec it rest) as (i & Hi & Hmax & Hbefore).
  set (r := collections.max_by_count it rest) in *.
  assert (r ∈ it :: rest) as Hr by (by eapply list_elem_of_lookup_2).
  assert (get r.1 (it :: rest) = r.2) as Hr2
    by (apply get_elem; [done | by destruct r]).
  assert (r.1 ∈ ys) as Hrin.
  { apply Hkeys. apply list_elem_of_fmap. by exists r. }
  assert (forall l', l' ∈ ys -> (l', occurrences l' ys) ∈ it :: rest) as Hall.
  { intros l' Hl'. rewrite <- Hget. apply elem_get. by apply Hkeys. }
  split; [split; [done |] |].
  - intros l'. rewrite <- (Hget r.1), Hr2.
    destruct (decide (l' ∈ ys)) as [Hl'|Hl'].
    + apply (Hmax _ (Hall _ Hl')).
    + assert (occurrences l' ys = 0)%nat as ->; [| lia].
      destruct (occurrences l' ys) eqn:Ho; [done |].
      exfalso. apply Hl', occurrences_pos. lia.
  - intros l' Hne Hocc.
    assert (l' ∈ ys) as Hl'.
    { apply occurrences_pos. rewrite Hocc. by apply occurrences_pos. }
    specialize (Hall _ Hl').
    apply list_elem_of_lookup_1 in Hall as [j Hj].
    assert (r.2 = occurrences l' ys) as Hr2'
      by (rewrite Hocc, <- (Hget r.1); done).
    destruct (Nat.lt_trichotomy i j) as [Hlt|[->|Hgt]].
    + apply (Hord i j); [| | done].
      * by rewrite list_lookup_fmap, Hi.
      * by rewrite list_lookup_fmap, Hj.
    + rewrite Hi in Hj. injection Hj as Hj. by rewrite Hj in Hne.
    + specialize (Hbefore _ _ Hgt Hj). simpl in Hbefore. lia.
Qed.

Lemma most_common_label_total y mask :
  length mask = length y -> np.select y mask <> [] ->
  exists l, most_common_label y mask = Ok l.
Proof.
  intros Hlen Hne. unfold most_common_label, np.bool_index.
  rewrite decide_True by done. simpl.
  destruct (Counter_spec (np.select y mask)) as [_ Hkeys _ _].
  destruct (collections.Counter (np.select y mask)) as [|it rest]; simpl; [| eauto].
  destruct (np.select y mask) as [|v ys]; [done |].
  exfalso. eapply elem_of_nil. apply (Hkeys v). by left.
Qed.

Lemma train_kmeans_loop_Ok cids cluster_labels y_train m0 m :
  train_kmeans_loop cids cluster_labels y_train m0 = Ok m ->
  forall cid,
    (cid ∈ cids ->
       exists l, m !! cid = Some l
         /\ most_common_label y_train (np.eq_mask cluster_labels cid) = Ok l)
    /\ (cid ∉ cids -> m !! cid = m0 !! cid).
Proof.
  revert m0. induction cids as [|c rest IH]; intros m0; simpl.
  - intros [= <-] cid. split; [by intros ?%elem_of_nil | done].
  - intros (l & Hl & Hloop)%bind_Ok cid.
    destruct (IH _ Hloop cid) as [Hin Hout].
    destruct (decide (cid ∈ rest)) as [Hrest|Hrest].
    + split; [auto |]. intros Hn. exfalso. apply Hn. by right.
    + split.
      * intros [->|?]%elem_of_cons; [| done].
        exists l. rewrite (Hout Hrest), lookup_insert_eq. done.
      * intros [Hne _]%not_elem_of_cons.
        rewrite (Hout Hrest), lookup_insert_ne; done.
Qed.

Lemma train_kmeans_loop_total cids cluster_labels y_train m0 :
  (forall cid, cid ∈ cids ->
     exists l, most_common_label y_train (np.eq_mask cluster_labels cid) = Ok l) ->
  exists m, train_kmeans_loop cids cluster_labels y_train m0 = Ok m.
Proof.
  revert m0. induction cids as [|c rest IH]; intros m0 Hall; simpl; [eauto |].
  destruct (Hall c) as [l Hl]; [by left |].
  rewrite Hl. simpl. apply IH. intros cid ?. apply Hall. by right.
Qed.

Lemma elem_of_unique_Z z a : z ∈ np.unique Z.compare a <-> z ∈ a.
Proof. apply elem_of_unique. intros x y. apply Z.compare_eq_iff. Qed.

(** What the mapping of a finished training holds, cluster by cluster. *)
Lemma cluster_to_label_of_Ok cluster_labels y_train mapping :
  cluster_to_label_of cluster_labels y_train = Ok mapping ->
  forall cid,
    (cid ∈ cluster_labels ->
       exists l, mapping !! cid = Some l
         /\ majority (members cluster_labels y_train cid) l
         /\ first_seen_wins (members cluster_labels y_train cid) l)
    /\ (cid ∉ cluster_labels -> mapping !! cid = None).
Proof.
  unfold cluster_to_label_of. intros Hloop cid.
  destruct (train_kmeans_loop_Ok _ _ _ _ _ Hloop cid) as [Hin Hout].
  rewrite elem_of_unique_Z in Hin, Hout. split.
  - intros Hcid. destruct (Hin Hcid) as (l & Hl & Hmc).
    exists l. split; [done |].
    by apply most_common_label_Ok in Hmc as (_ & ? & ?).
  - intros Hcid. by rewrite (Hout Hcid).
Qed.

Lemma cluster_to_label_of_total cluster_labels y_train :
  length cluster_labels = length y_train ->
  exists mapping, cluster_to_label_of cluster_labels y_train = Ok mapping.
Proof.
  intros Hlen. apply train_kmeans_loop_total.
  intros cid Hcid. apply (proj1 (elem_of_unique_Z _ _)) in Hcid.
  apply most_common_label_total.
  - unfold np.eq_mask. by rewrite length_map.
  - exact (members_nonempty cluster_labels y_train cid Hlen Hcid).
Qed.

Lemma cluster_to_label_of_values cluster_labels y_train mapping cid l :
  cluster_to_label_of cluster_labels y_train = Ok mapping ->
  mapping !! cid = Some l -> l ∈ y_train.
Proof.
  intros Hm Hl. destruct (cluster_to_label_of_Ok _ _ _ Hm cid) as [Hin Hout].
  destruct (decide (cid ∈ cluster_labels)) as [Hcid|Hcid].
  - destruct (Hin Hcid) as (l' & Hl' & [Hmem _] & _).
    assert (l' = l) as -> by congruence.
    by eapply elem_of_select.
  - rewrite (Hout Hcid) in Hl. discriminate.
Qed.

Section ClusterDerived.
Context {Features KMeans : Type}.
Variable KMeans_fit : Z -> Z -> Z -> list Features -> result KMeans.
Variable KMeans_predict : KMeans -> list Features -> result (list Z).

Lemma train_kmeans_Ok X_train y_train n_classes model mapping :
  train_kmeans KMeans_fit KMeans_predict X_train y_train n_classes = Ok (model, mapping) ->
  exists cluster_labels,
    KMeans_fit n_classes config.RANDOM_STATE config.KMEANS_N_INIT X_train = Ok model
    /\ KMeans_predict model X_train = Ok cluster_labels
    /\ cluster_to_label_of cluster_labels y_train = Ok mapping.
Proof.
  unfold train_kmeans.
  intros (m & Hfit & (cl & Hpred & (mp & Hmap & Heq)%bind_Ok)%bind_Ok)%bind_Ok.
  injection Heq as -> ->. eauto.
Qed.

Lemma train_kmeans_values X_train y_train n_classes model mapping cid l :
  train_kmeans KMeans_fit KMeans_predict X_train y_train n_classes = Ok (model, mapping) ->
  mapping !! cid = Some l -> l ∈ y_train.
Proof.
  intros (cl & _ & _ & Hmap)%train_kmeans_Ok. by eapply cluster_to_label_of_values.
Qed.

Lemma predict_kmeans_Ok model mapping X clusters :
  KMeans_predict model X = Ok clusters ->
  predict_kmeans KMeans_predict model mapping X
  = Ok (map (fun c => default UNKNOWN (mapping !! c)) clusters).
Proof. unfold predict_kmeans. by intros ->. Qed.

End ClusterDerived.

End ml_models_facts.

Module ml_models_claims.
Import ml_models spec ml_models_facts.

Section ClusterDerived.
Context {Features KMeans : Type}.
Variable KMeans_fit : Z -> Z -> Z -> list Features -> result KMeans.
Variable KMeans_predict : KMeans -> list Features -> result (list Z).

(** C1 (as amended).  When K-Means fits and assigns one cluster to each
    training row, [train_kmeans] returns a mapping whose keys are exactly
    the cluster ids that occur; each is mapped to a majority true label of
    the training points assigned to it, and when several labels tie for
    the majority the one met first among those points, in training order,
    is the one stored. *)
Theorem train_kmeans_majority_first_seen
    (X_train : list Features) (y_train : list Z) (n_classes : Z)
    (model : KMeans) (cluster_labels : list Z) :
  KMeans_fit n_classes config.RANDOM_STATE config.KMEANS_N_INIT X_train = Ok model ->
  KMeans_predict model X_train = Ok cluster_labels ->
  length cluster_labels = length y_train ->
  exists mapping,
    train_kmeans KMeans_fit KMeans_predict X_train y_train n_classes = Ok (model, mapping)
    /\ forall cid,
         (cid ∈ cluster_labels ->
            exists l, mapping !! cid = Some l
              /\ majority (members cluster_labels y_train cid) l
              /\ first_seen_wins (members cluster_labels y_train cid) l)
         /\ (cid ∉ cluster_labels -> mapping !! cid = None).
Proof.
  intros Hfit Hpred Hlen.
  destruct (cluster_to_label_of_total _ _ Hlen) as [mapping Hmap].
  exists mapping. split.
  - unfold train_kmeans. rewrite Hfit. simpl. rewrite Hpred. simpl.
    rewrite Hmap. done.
  - by apply cluster_to_label_of_Ok.
Qed.

(** C2 (as amended).  For a classifier returned by [train_kmeans] and any
    batch: when the K-Means model's own [predict] raises, [predict_kmeans]
    raises the same exception; when it returns, [predict_kmeans] returns
    one value per row, the label stored for the row's cluster, which is
    one of the training labels, or the sentinel for a cluster id without
    an entry in the mapping, never an exception of its own.  When the
    training labels are class ids in [0, K), every returned value is
    therefore a class id in [0, K) or the sentinel; and the sentinel is
    not a class id. *)
Theorem predict_kmeans_class_id_or_unknown
    (X_train : list Features) (y_train : list Z) (K : Z)
    (model : KMeans) (mapping : gmap Z Z) (X : list Features) :
  train_kmeans KMeans_fit KMeans_predict X_train y_train K = Ok (model, mapping) ->
  match KMeans_predict model X with
  | Raise e => predict_kmeans KMeans_predict model mapping X = Raise e
  | Ok clusters =>
      exists preds,
        predict_kmeans KMeans_predict model mapping X = Ok preds
        /\ length preds = length clusters
        /\ Forall2 (fun c p => match mapping !! c with
                               | Some l => p = l /\ l ∈ y_train
                               | None => p = UNKNOWN
                               end) clusters preds
        /\ (forall i c, clusters !! i = Some c -> mapping !! c = None ->
              preds !! i = Some UNKNOWN)
        /\ (Forall (class_id K) y_train ->
            Forall (fun p => class_id K p \/ p = UNKNOWN) preds)
        /\ ~ class_id K UNKNOWN
  end.
Proof.
  intros Htrain.
  destruct (KMeans_predict model X) as [clusters|e] eqn:Hpred.
  2: { unfold predict_kmeans. by rewrite Hpred. }
  exists (map (fun c => default UNKNOWN (mapping !! c)) clusters).
  split; [by apply predict_kmeans_Ok |].
  split; [by rewrite length_map |].
  split; [| split; [| split]].
  - change (map ?f clusters) with (f <$> clusters).
    apply Forall2_fmap_r, Forall_Forall2_diag, Forall_forall. intros c _.
    unfold compose.
    destruct (mapping !! c) as [l|] eqn:Hl; simpl; [| done].
    split; [done |]. by eapply train_kmeans_values.
  - intros i c Hc Hnone.
    change (map ?f clusters) with (f <$> clusters).
    by rewrite list_lookup_fmap, Hc; simpl; rewrite Hnone.
  - intros Hy. apply Forall_forall. intros p (c & -> & _)%list_elem_of_fmap.
    destruct (mapping !! c) as [l|] eqn:Hl; simpl; [left | by right].
    apply (proj1 (Forall_forall _ _) Hy).
    by eapply train_kmeans_values.
  - unfold class_id, UNKNOWN. lia.
Qed.

(** C9.  Every value stored in the mapping of a finished training occurs
    in the training label array; hence, when the training labels are all
    in [0, K), every prediction other than the sentinel is a class id that
    was present in the training data. *)
Theorem cluster_to_label_values_from_training
    (X_train : list Features) (y_train : list Z) (K : Z)
    (model : KMeans) (mapping : gmap Z Z) :
  train_kmeans KMeans_fit KMeans_predict X_train y_train K = Ok (model, mapping) ->
  (forall cid l, mapping !! cid = Some l -> l ∈ y_train)
  /\ (Forall (class_id K) y_train ->
      forall X preds p,
        predict_kmeans KMeans_predict model mapping X = Ok preds ->
        p ∈ preds -> p <> UNKNOWN -> class_id K p /\ p ∈ y_train).
Proof.
  intros Htrain. split.
  - intros cid l. by eapply train_kmeans_values.
  - intros Hy X preds p Hpreds Hp Hne.
    unfold predict_kmeans in Hpreds.
    apply bind_Ok in Hpreds as (clusters & _ & [= <-]).
    apply list_elem_of_fmap in Hp as (c & -> & _).
    destruct (mapping !! c) as [l|] eqn:Hl; simpl in *; [| done].
    assert (l ∈ y_train) by (by eapply train_kmeans_values).
    split; [| done]. by apply (proj1 (Forall_forall _ _) Hy).
Qed.

End ClusterDerived.

(** C1, as stated, fails.  Four training points in two clusters, each
    cluster holding one point of class 1 followed by one of class 0: the
    two labels tie, the lowest class id is 0, and the mapping stores 1. *)
Lemma train_kmeans_tie_keeps_first_seen_not_lowest :
  exists model mapping,
    train_kmeans toy.KMeans_fit toy.KMeans_predict [0; 0; 10; 10] [1; 0; 1; 0] 2
      = Ok (model, mapping)
    /\ toy.KMeans_predict model [0; 0; 10; 10] = Ok [0; 0; 1; 1]
    /\ members [0; 0; 1; 1] [1; 0; 1; 0] 0 = [1; 0]
    /\ mapping !! 0 = Some 1
    /\ ~ lowest_id_wins (members [0; 0; 1; 1] [1; 0; 1; 0] 0) 1.
Proof.
  eexists _, _. split; [vm_compute; reflexivity |].
  split; [reflexivity |]. split; [reflexivity |]. split; [reflexivity |].
  intros H. specialize (H 0). vm_compute in H. by apply H.
Qed.

Lemma train_kmeans_majority_first_seen_witness :
  exists mapping,
    train_kmeans toy.KMeans_fit toy.KMeans_predict [0; 0; 10; 10] [1; 0; 1; 0] 2
      = Ok ([0; 10], mapping)
    /\ forall cid,
         (cid ∈ [0; 0; 1; 1] ->
            exists l, mapping !! cid = Some l
              /\ majority (members [0; 0; 1; 1] [1; 0; 1; 0] cid) l
              /\ first_seen_wins (members [0; 0; 1; 1] [1; 0; 1; 0] cid) l)
         /\ (cid ∉ [0; 0; 1; 1] -> mapping !! cid = None).
Proof.
  apply (train_kmeans_majority_first_seen toy.KMeans_fit toy.KMeans_predict
           [0; 0; 10; 10] [1; 0; 1; 0] 2 [0; 10] [0; 0; 1; 1]);
    reflexivity.
Defined.

(** C2, as stated, fails.  [train_kmeans] stores the training labels as
    they are and never compares them with [n_classes]: trained on labels
    that are all 7 with [n_classes = 2], the classifier predicts 7, which
    is neither a class id in [0, 2) nor the sentinel. *)
Lemma predict_kmeans_returns_unchecked_label :
  exists model mapping,
    train_kmeans toy.KMeans_fit toy.KMeans_predict [0; 0; 10; 10] [7; 7; 7; 7] 2
      = Ok (model, mapping)
    /\ predict_kmeans toy.KMeans_predict model mapping [3; 9] = Ok [7; 7]
    /\ ~ (class_id 2 7 \/ 7 = UNKNOWN).
Proof.
  eexists _, _. split; [vm_compute; reflexivity |].
  split; [reflexivity |].
  unfold class_id, UNKNOWN. lia.
Qed.

(** Three centres, the third far from every training row: the mapping has
    no entry for cluster 2, and a row assigned to it gets the sentinel. *)
Lemma predict_kmeans_class_id_or_unknown_witness :
  predict_kmeans toy.KMeans_predict [0; 10; 20] {[ 0 := 1; 1 := 1 ]} [3; 19]
    = Ok [1; UNKNOWN]
  /\ exists preds,
        predict_kmeans toy.KMeans_predict [0; 10; 20] {[ 0 := 1; 1 := 1 ]} [3; 19]
          = Ok preds
        /\ length preds = length [0; 2]
        /\ Forall2 (fun c p => match ({[ 0 := 1; 1 := 1 ]} : gmap Z Z) !! c with
                               | Some l => p = l /\ l ∈ [1; 0; 1; 0]
                               | None => p = UNKNOWN
                               end) [0; 2] preds
        /\ (forall i c, [0; 2] !! i = Some c ->
              ({[ 0 := 1; 1 := 1 ]} : gmap Z Z) !! c = None ->
              preds !! i = Some UNKNOWN)
        /\ (Forall (class_id 3) [1; 0; 1; 0] ->
            Forall (fun p => class_id 3 p \/ p = UNKNOWN) preds)
        /\ ~ class_id 3 UNKNOWN.
Proof.
  split; [reflexivity |].
  apply (predict_kmeans_class_id_or_unknown
           (toy.KMeans_fit_fixed [0; 10; 20]) toy.KMeans_predict
           [0; 0; 10; 10] [1; 0; 1; 0] 3 [0; 10; 20] {[ 0 := 1; 1 := 1 ]} [3; 19]).
  vm_compute. reflexivity.
Defined.

Lemma cluster_to_label_values_from_training_witness :
  (forall cid l, ({[ 0 := 1; 1 := 1 ]} : gmap Z Z) !! cid = Some l ->
     l ∈ [1; 0; 1; 0])
  /\ (Forall (class_id 2) [1; 0; 1; 0] ->
      forall X preds p,
        predict_kmeans toy.KMeans_predict [0; 10] {[ 0 := 1; 1 := 1 ]} X = Ok preds ->
        p ∈ preds -> p <> UNKNOWN -> class_id 2 p /\ p ∈ [1; 0; 1; 0]).
Proof.
  apply (cluster_to_label_values_from_training toy.KMeans_fit toy.KMeans_predict
           [0; 0; 10; 10] [1; 0; 1; 0] 2 [0; 10] {[ 0 := 1; 1 := 1 ]}).
  vm_compute. reflexivity.
Defined.

End ml_models_claims.

(** ** ml_models.py: training the four classical models *)

Module ensemble_claims.
Import ml_models.

Section Ensemble.
Context {Features SVC DecisionTree RandomForest KMeans : Type}.
Variable SVC_fit : list Features -> list Z -> result SVC.
Variable DecisionTree_fit : list Features -> list Z -> result DecisionTree.
Variable RandomForest_fit : list Features -> list Z -> result RandomForest.
Variable KMeans_fit : Z -> Z -> Z -> list Features -> result KMeans.
Variable KMeans_predict : KMeans -> list Features -> result (list Z).

(** C3 (as amended).  [train_all_models] returns a mapping only when all
    four trainers succeed, and then it holds exactly the four entries in
    training order.  When a trainer raises, [train_all_models] raises the
    exception of the first trainer to fail, in the order SVM, Decision
    Tree, Random Forest, K-Means, and returns no mapping. *)
Theorem train_all_models_all_or_nothing
    (X_train : list Features) (y_train : list Z) (n_classes : Z) :
  let svm_r := train_svm SVC_fit X_train y_train in
  let dt_r := train_decision_tree DecisionTree_fit X_train y_train in
  let rf_r := train_random_forest RandomForest_fit X_train y_train in
  let km_r := train_kmeans KMeans_fit KMeans_predict X_train y_train n_classes in
  match train_all_models SVC_fit DecisionTree_fit RandomForest_fit
          KMeans_fit KMeans_predict X_train y_train n_classes with
  | Ok models =>
      exists svm dt rf km mapping,
        svm_r = Ok svm /\ dt_r = Ok dt /\ rf_r = Ok rf /\ km_r = Ok (km, mapping)
        /\ models = [("SVM"%string, SVM_entry svm);
                     ("Decision Tree"%string, DT_entry dt);
                     ("Random Forest"%string, RF_entry rf);
                     ("K-Means"%string, KMeans_entry km mapping)]
  | Raise e =>
      svm_r = Raise e
      \/ (~ raises svm_r /\ dt_r = Raise e)
      \/ (~ raises svm_r /\ ~ raises dt_r /\ rf_r = Raise e)
      \/ (~ raises svm_r /\ ~ raises dt_r /\ ~ raises rf_r /\ km_r = Raise e)
  end.
Proof.
  unfold train_all_models. simpl.
  destruct (train_svm SVC_fit X_train y_train) as [svm|e]; simpl; [| by left].
  destruct (train_decision_tree DecisionTree_fit X_train y_train) as [dt|e];
    simpl; [| right; left; tauto].
  destruct (train_random_forest RandomForest_fit X_train y_train) as [rf|e];
    simpl; [| right; right; left; tauto].
  destruct (train_kmeans KMeans_fit KMeans_predict X_train y_train n_classes)
    as [[km mapping]|e]; simpl; [| right; right; right; tauto].
  by exists svm, dt, rf, km, mapping.
Qed.

End Ensemble.

(** C3, as stated, fails.  With an SVM whose fit raises and three other
    trainers that succeed on the same data, [train_all_models] raises the
    SVM's exception: there is no mapping, hence no slot for the tree, the
    forest or K-Means. *)
Lemma train_all_models_one_failure_aborts_all :
  let X := [0; 0; 10; 10] in
  let y := [1; 0; 1; 0] in
  train_svm toy.fit_fails X y = Raise ValueError
  /\ train_decision_tree toy.fit_ok X y = Ok tt
  /\ train_random_forest toy.fit_ok X y = Ok tt
  /\ ~ raises (train_kmeans toy.KMeans_fit toy.KMeans_predict X y 2)
  /\ train_all_models toy.fit_fails toy.fit_ok toy.fit_ok
       toy.KMeans_fit toy.KMeans_predict X y 2 = Raise ValueError
  /\ ~ exists models,
         train_all_models toy.fit_fails toy.fit_ok toy.fit_ok
           toy.KMeans_fit toy.KMeans_predict X y 2 = Ok models.
Proof.
  repeat split; try reflexivity.
  - vm_compute. tauto.
  - intros [models H]. vm_compute in H. discriminate.
Qed.

End ensemble_claims.

(** ** Strings *)

Module StrFacts.

Lemma str_compare_eq (a b : str) : str_compare a b = Eq <-> a = b.
Proof.
  revert b. induction a as [|x a IH]; intros [|y b]; simpl; try done.
  destruct (N.compare x y) eqn:Hc.
  - apply N.compare_eq_iff in Hc as ->. rewrite IH.
    split; [by intros -> | by intros [= ->]].
  - split; [done |]. intros [= -> _]. by rewrite N.compare_refl in Hc.
  - split; [done |]. intros [= -> _]. by rewrite N.compare_refl in Hc.
Qed.

Lemma str_compare_antisym (a b : str) : str_compare b a = CompOpp (str_compare a b).
Proof.
  revert b. induction a as [|x a IH]; intros [|y b]; simpl; try done.
  rewrite (N.compare_antisym x y).
  destruct (N.compare x y); simpl; [apply IH | done | done].
Qed.

Lemma str_compare_trans (a b c : str) :
  str_compare a b = Lt -> str_compare b c = Lt -> str_compare a c = Lt.
Proof.
  revert b c. induction a as [|x a IH]; intros [|y b] [|z c]; simpl; try done.
  destruct (N.compare x y) eqn:Hxy; [| | done].
  - apply N.compare_eq_iff in Hxy as ->.
    destruct (N.compare y z); [apply IH | done | done].
  - destruct (N.compare y z) eqn:Hyz; [| | done].
    + apply N.compare_eq_iff in Hyz as <-. by rewrite Hxy.
    + intros _ _. rewrite N.compare_lt_iff in Hxy, Hyz.
      assert (x < z)%N as Hxz by lia.
      apply N.compare_lt_iff in Hxz. by rewrite Hxz.
Qed.

Lemma split_first_prefix_before (sep : N) (s : str) :
  spec.prefix_before sep s (split_first sep s).
Proof.
  unfold spec.prefix_before. induction s as [|c s [Hnin Hs]]; simpl.
  - split; [apply not_elem_of_nil | by left].
  - destruct (N.eqb c sep) eqn:Hc.
    + apply N.eqb_eq in Hc as ->. split; [apply not_elem_of_nil |].
      right. by exists s.
    + apply N.eqb_neq in Hc. split.
      * intros [?|?]%elem_of_cons; [congruence | done].
      * destruct Hs as [Hs|[rest Hs]]; [left | right; exists rest];
          simpl; by f_equal.
Qed.

Lemma elem_of_insert_sorted (z x : str) (l : list str) :
  z ∈ insert_sorted x l <-> z = x \/ z ∈ l.
Proof.
  induction l as [|y l IH]; simpl.
  - rewrite list_elem_of_singleton, elem_of_nil. tauto.
  - destruct (str_compare x y); rewrite !elem_of_cons, ?IH; tauto.
Qed.

Lemma elem_of_sorted (z : str) (l : list str) : z ∈ sorted l <-> z ∈ l.
Proof.
  induction l as [|x l IH]; [done |].
  unfold sorted in *. simpl.
  by rewrite elem_of_insert_sorted, IH, elem_of_cons.
Qed.

End StrFacts.

(** ** data_loader.py: labels from file names *)

Module data_loader_claims.
Import data_loader spec StrFacts.

Section Loader.
Variable isdigit : N -> bool.
Variable lower : str -> str.
Context {Image : Type}.
Variable isdir : str -> bool.
Variable listdir : str -> list str.
Variable open_image : str -> str -> result Image.

Lemma label_of_fname_no_digit (fname : str) (c : N) :
  c ∈ label_of_fname isdigit fname -> isdigit c = false.
Proof.
  unfold label_of_fname. rewrite list_elem_of_In, List.filter_In.
  intros [_ Hc]. by apply negb_true_iff.
Qed.

End Loader.

(** Digits inside the prefix go as well as trailing ones. *)
Example label_of_fname_inner_digits :
  label_of_fname toy.isdigit (lit "Ca1ja12_gauss_0.10.png") = lit "Caja".
Proof. reflexivity. Qed.

End data_loader_claims.

(** ** LabelEncoder *)

Module label_codec_claims.
Import spec StrFacts.

Lemma fit_ascending (names : list str) : ascending str_compare (LabelEncoder.fit names).
Proof.
  apply unique_ascending.
  - apply str_compare_eq.
  - apply str_compare_antisym.
  - apply str_compare_trans.
Qed.

Lemma elem_of_fit (names : list str) (v : str) : v ∈ LabelEncoder.fit names <-> v ∈ names.
Proof. apply elem_of_unique, str_compare_eq. Qed.

Lemma fit_searchsorted (names : list str) (n : str) :
  n ∈ names ->
  LabelEncoder.fit names
    !! np.searchsorted str_compare (LabelEncoder.fit names) n = Some n.
Proof.
  intros Hn. apply searchsorted_lookup.
  - apply str_compare_eq.
  - apply fit_ascending.
  - by apply elem_of_fit.
Qed.



End label_codec_claims.

(** ** cnn_model.py: input shape *)

Module cnn_shape_claims.
Import cnn_model spec.

Lemma reshape_for_cnn_cases {Pixel : Type} (X : np.ndarray Pixel) :
  (np.size X mod pixels_per_image <> 0 /\ _reshape_for_cnn X = Raise ValueError)%nat
  \/ (np.size X mod pixels_per_image = 0
      /\ _reshape_for_cnn X
         = Ok {| np.shape := [np.size X / pixels_per_image;
                              config.IMG_SIZE.1; config.IMG_SIZE.2; 1];
                 np.data := np.data X |})%nat.
Proof.
  unfold _reshape_for_cnn, np.reshape_free_first, pixels_per_image.
  change (np.prod_dims [config.IMG_SIZE.1; config.IMG_SIZE.2; 1%nat]) with 4096%nat.
  change (config.IMG_SIZE.1 * config.IMG_SIZE.2)%nat with 4096%nat.
  change (4096 =? 0)%nat with false.
  generalize (np.size X / 4096)%nat. generalize (np.size X mod 4096)%nat.
  intros m q. destruct (Nat.eqb_spec m 0) as [Hm|Hm]; cbn [orb negb].
  - by right.
  - by left.
Qed.

Section ConvNet.
Context {Pixel W : Type}.
Variable build_cnn : Z -> W.
Variable run_epoch :
  np.ndarray Pixel -> list Z -> np.ndarray Pixel -> list Z -> nat -> W -> result (W * logs).
Variable Keras_predict : W -> np.ndarray Pixel -> result (list (list Q)).
Variable restore_on_train_end : bool.

(** C8 (as amended).  The only shape check is the one NumPy's reshape
    performs.  An input whose number of elements is not a multiple of
    H x W is refused with ValueError by [_reshape_for_cnn], and then
    [predict_cnn] on it and [train_cnn] with it as training or as test
    data raise ValueError as well.  An input whose number of elements is
    a multiple of H x W is accepted whatever its shape, and becomes
    size / (H x W) images of H x W x 1. *)
Theorem reshape_for_cnn_checks_size_only (X : np.ndarray Pixel) :
  match _reshape_for_cnn X with
  | Raise e =>
      e = ValueError
      /\ (np.size X mod pixels_per_image)%nat <> 0%nat
      /\ (forall model,
            predict_cnn Keras_predict model X = Raise ValueError)
      /\ (forall y_train X_test y_test k,
            train_cnn build_cnn run_epoch restore_on_train_end
              X y_train X_test y_test k = Raise ValueError)
      /\ (forall X_train y_train y_test k,
            train_cnn build_cnn run_epoch restore_on_train_end
              X_train y_train X y_test k = Raise ValueError)
  | Ok X_cnn =>
      (np.size X mod pixels_per_image)%nat = 0%nat
      /\ np.shape X_cnn
         = [(np.size X / pixels_per_image)%nat; config.IMG_SIZE.1; config.IMG_SIZE.2; 1%nat]
      /\ np.data X_cnn = np.data X
  end.
Proof.
  destruct (reshape_for_cnn_cases X) as [[Hm Hr]|[Hm Hr]]; rewrite Hr.
  - split; [done |]. split; [done |]. split; [| split].
    + intros model. unfold predict_cnn. by rewrite Hr.
    + intros. unfold train_cnn, train_cnn_run. by rewrite Hr.
    + intros X_train y_train y_test k. unfold train_cnn, train_cnn_run.
      destruct (reshape_for_cnn_cases X_train) as [[_ Hr']|[_ Hr']]; rewrite Hr'; simpl;
        [done | by rewrite Hr].
  - done.
Qed.

End ConvNet.

(** C8, as stated, fails.  Two rows of 2048 pixels are not a batch of
    flat 64 x 64 images, yet the reshape accepts them as one image and
    [predict_cnn] returns one prediction for the two rows. *)
Lemma predict_cnn_accepts_wrong_row_length :
  np.well_formed toy.two_half_rows
  /\ ~ flat_image_batch toy.two_half_rows
  /\ (exists X_cnn, _reshape_for_cnn toy.two_half_rows = Ok X_cnn
        /\ np.shape X_cnn = [1; 64; 64; 1]%nat)
  /\ predict_cnn toy.Keras_predict
       {| weights := 0%nat; stop_training := false |} toy.two_half_rows = Ok [0%nat].
Proof.
  split; [reflexivity |]. split; [| split].
  - intros [N H]. discriminate.
  - eexists. split; reflexivity.
  - reflexivity.
Qed.

End cnn_shape_claims.

(** ** cnn_model.py: the epoch loop and early stopping *)

Module early_stopping_facts.
Import cnn_model spec fit_states.

Lemma is_improvement_true (c b : Q) : is_improvement c (Some b) = true -> (c < b)%Q.
Proof.
  unfold is_improvement, Qlt_bool. intros H%negb_true_iff.
  apply Qnot_le_lt. intros Hle. apply Qle_bool_iff in Hle. congruence.
Qed.

Lemma is_improvement_false (c b : Q) : is_improvement c (Some b) = false -> (b <= c)%Q.
Proof.
  unfold is_improvement, Qlt_bool. intros H%negb_false_iff.
  by apply Qle_bool_iff.
Qed.

Lemma first_minimum_improve history e lg lg' :
  first_minimum history e lg -> (val_loss lg' < val_loss lg)%Q ->
  first_minimum (history ++ [lg']) (length history) lg'.
Proof.
  intros (He & Hbefore & Hafter) Hlt. split; [| split].
  - rewrite lookup_app_r by lia. by rewrite Nat.sub_diag.
  - intros j lgj Hj Hlook. rewrite lookup_app_l in Hlook by done.
    destruct (Nat.lt_trichotomy j e) as [Hje|[->|Hje]].
    + eapply Qlt_trans; [exact Hlt | by eapply Hbefore].
    + assert (lgj = lg) as -> by congruence. done.
    + eapply Qlt_le_trans; [exact Hlt | by eapply Hafter].
  - intros j lgj Hj Hlook. apply lookup_lt_Some in Hlook.
    rewrite length_app in Hlook. simpl in Hlook. lia.
Qed.

Lemma first_minimum_keep history e lg lg' :
  first_minimum history e lg -> (val_loss lg <= val_loss lg')%Q ->
  first_minimum (history ++ [lg']) e lg.
Proof.
  intros (He & Hbefore & Hafter) Hle.
  pose proof (lookup_lt_Some _ _ _ He) as Hlen. split; [| split].
  - by rewrite lookup_app_l.
  - intros j lgj Hj Hlook. rewrite lookup_app_l in Hlook by lia. by eapply Hbefore.
  - intros j lgj Hj Hlook.
    destruct (decide (j < length history)%nat) as [Hjl|Hjl].
    + rewrite lookup_app_l in Hlook by done. by eapply Hafter.
    + rewrite lookup_app_r in Hlook by lia.
      destruct (j - length history)%nat; simpl in Hlook; [| done].
      by injection Hlook as <-.
Qed.

Lemma first_minimum_unique history e lg e' lg' :
  first_minimum history e lg -> first_minimum history e' lg' -> e = e'.
Proof.
  intros (He & Hbefore & Hafter) (He' & Hbefore' & Hafter').
  destruct (Nat.lt_trichotomy e e') as [Hlt|[->|Hlt]]; [| done |].
  - exfalso. specialize (Hbefore' _ _ Hlt He). specialize (Hafter _ _ Hlt He').
    by apply Qlt_not_le in Hbefore'.
  - exfalso. specialize (Hbefore _ _ Hlt He'). specialize (Hafter' _ _ Hlt He).
    by apply Qlt_not_le in Hbefore.
Qed.

Lemma prefix_snoc_cases {A : Type} (h l : list A) (x : A) :
  h `prefix_of` (l ++ [x]) -> h `prefix_of` l \/ h = l ++ [x].
Proof.
  intros [k Hk]. destruct k as [|y k _] using rev_ind.
  - right. by rewrite app_nil_r in Hk.
  - left. rewrite app_assoc in Hk. apply app_inj_tail in Hk as [-> _].
    by exists k.
Qed.

Lemma never_stalled_snoc P history lg k :
  never_stalled P history -> (k < P)%nat -> stalled_for (history ++ [lg]) k ->
  never_stalled P (history ++ [lg]).
Proof.
  intros Hns Hk Hst h Hne [Hpre| ->]%prefix_snoc_cases; [by apply Hns |].
  by exists k.
Qed.

Section Loop.
Context {Pixel W : Type}.
Variable run_epoch :
  np.ndarray Pixel -> list Z -> np.ndarray Pixel -> list Z -> nat -> W -> result (W * logs).
Variable restore_on_train_end : bool.
Variables (X_train : np.ndarray Pixel) (y_train : list Z).
Variables (X_val : np.ndarray Pixel) (y_val : list Z).
Variable w0 : W.
Variable P : nat.
Hypothesis P_pos : (0 < P)%nat.

Local Abbreviation epoch_of := (run_epoch X_train y_train X_val y_val).
Local Abbreviation after := (weights_after run_epoch X_train y_train X_val y_val w0).
Local Abbreviation running := (running run_epoch X_train y_train X_val y_val w0 P).
Local Abbreviation stopped :=
  (stopped run_epoch restore_on_train_end X_train y_train X_val y_val w0 P).

Lemma after_next epoch (model : Model W) history cb w' lg :
  running epoch cb model history ->
  epoch_of epoch (weights model) = Ok (w', lg) ->
  after epoch = Ok w'.
Proof.
  intros (_ & _ & _ & _ & Hrest) Hrun. destruct epoch as [|last]; simpl.
  - destruct Hrest as (_ & _ & _ & <-). by rewrite Hrun.
  - destruct Hrest as (e & lge & w_e & _ & _ & _ & _ & _ & _ & ->). simpl.
    by rewrite Hrun.
Qed.

Lemma on_epoch_end_step epoch cb (model : Model W) history w' lg cb' model' :
  running epoch cb model history ->
  epoch_of epoch (weights model) = Ok (w', lg) ->
  on_epoch_end restore_on_train_end epoch lg
    (cb, {| weights := w'; stop_training := stop_training model |}) = (cb', model') ->
  running (S epoch) cb' model' (history ++ [lg])
  \/ stopped cb' model' (history ++ [lg]).
Proof.
  intros Hinv Hrun Hstep.
  pose proof (after_next _ _ _ _ _ _ Hinv Hrun) as Hafter.
  destruct Hinv as (Hlen & Hstop & Hpat & Hns & Hrest).
  unfold on_epoch_end in Hstep. destruct epoch as [|last].
  - destruct Hrest as (Hbest & Hbw & Hwait & Hw).
    rewrite Hbw in Hstep. cbn [best best_weights wait patience stopped_epoch] in Hstep.
    rewrite Hbest in Hstep. cbn [is_improvement] in Hstep.
    injection Hstep as <- <-. left.
    destruct history; [| done].
    assert (first_minimum [lg] 0 lg) as Hmin.
    { split; [done |]. split; [intros; lia |].
      intros [|j] lgj Hj Hlook; [lia | done]. }
    split; [done |]. split; [done |]. split; [done |].
    split.
    { apply never_stalled_snoc with (k := 0%nat); [done | done |].
      by exists 0%nat, lg. }
    exists 0%nat, lg, w'. simpl.
    split; [done |]. split; [done |]. split; [done |]. split; [done |].
    split; [lia |]. split; [lia | done].
  - destruct Hrest as (e & lge & w_e & Hmin & Hbest & Hwe & Hbw & Hwait & Hlt & Hlast).
    rewrite Hbw in Hstep. cbn [best best_weights wait patience stopped_epoch] in Hstep.
    rewrite Hbest in Hstep.
    destruct (is_improvement (val_loss lg) (Some (val_loss lge))) eqn:Himp.
    + injection Hstep as <- <-. left.
      assert (first_minimum (history ++ [lg]) (S last) lg) as Hmin'.
      { rewrite <- Hlen. eapply first_minimum_improve;
          [exact Hmin | by apply is_improvement_true]. }
      split; [rewrite length_app; simpl; lia |].
      split; [done |]. split; [done |].
      split.
      { apply never_stalled_snoc with (k := 0%nat); [done | done |].
        exists (S last), lg. split; [done |]. rewrite length_app. simpl. lia. }
      exists (S last), lg, w'.
      simpl. split; [done |]. split; [done |]. split; [done |]. split; [done |].
      split; [lia |]. split; [lia | done].
    + apply is_improvement_false in Himp.
      pose proof (first_minimum_keep _ _ _ _ Hmin Himp) as Hmin'.
      rewrite Hpat in Hstep. cbn [Nat.ltb Nat.leb andb] in Hstep.
      destruct (P <=? S (wait cb))%nat eqn:Hp; cbn [andb] in Hstep.
      * apply Nat.leb_le in Hp. injection Hstep as <- <-. right.
        split; [done |]. split.
        { intros h [Hpre| ->]%prefix_snoc_cases Hneq; [| done].
          intros h' Hne' Hpre'. apply Hns; [done |]. by etrans. }
        exists e, lge, w_e.
        split; [done |]. split; [done |]. split; [done |].
        split; [rewrite length_app; simpl; lia |].
        simpl. rewrite Hbw. by intros ->.
      * apply Nat.leb_gt in Hp. injection Hstep as <- <-. left.
        split; [rewrite length_app; simpl; lia |].
        split; [done |]. split; [done |].
        split.
        { apply never_stalled_snoc with (k := S (wait cb)); [done | lia |].
          exists e, lge. split; [done |]. rewrite length_app. simpl. lia. }
        exists e, lge, w_e. simpl.
        split; [done |]. split; [done |]. split; [done |]. split; [done |].
        split; [lia |]. split; [lia | done].
Qed.

Lemma fit_loop_Ok n epoch cb (model : Model W) history cb' model' history' :
  fit_loop run_epoch restore_on_train_end X_train y_train X_val y_val
    n epoch cb model history = Ok (cb', model', history') ->
  running epoch cb model history ->
  (running (epoch + n) cb' model' history' \/ stopped cb' model' history')
  /\ (length history' <= epoch + n)%nat.
Proof.
  revert epoch cb model history.
  induction n as [|n IH]; intros epoch cb model history; cbn [fit_loop].
  - intros [= <- <- <-] Hinv. rewrite Nat.add_0_r. split; [by left |].
    destruct Hinv as (-> & _). lia.
  - intros ([w' lg] & Hrun & Hrest)%bind_Ok Hinv. cbn [fst snd] in Hrest.
    destruct (on_epoch_end restore_on_train_end epoch lg
                (cb, {| weights := w'; stop_training := stop_training model |}))
      as [cb1 model1] eqn:Hstep.
    destruct (on_epoch_end_step _ _ _ _ _ _ _ _ Hinv Hrun Hstep) as [Hnext|Hstopped].
    + destruct Hnext as (Hlen & Hstop & Hnext).
      rewrite Hstop in Hrest.
      destruct (IH _ _ _ _ Hrest (conj Hlen (conj Hstop Hnext))) as [Hr Hl].
      rewrite Nat.add_succ_r. simpl in Hr. split; [done | lia].
    + pose proof Hstopped as (Hstop & _). rewrite Hstop in Hrest.
      injection Hrest as <- <- <-. split; [by right |].
      destruct Hinv as (Hlen & _). rewrite length_app. simpl. lia.
Qed.

Lemma fit_loop_total n epoch cb (model : Model W) history :
  (forall e w, ~ raises (epoch_of e w)) ->
  ~ raises (fit_loop run_epoch restore_on_train_end X_train y_train X_val y_val
              n epoch cb model history).
Proof.
  intros Hrun. revert epoch cb model history.
  induction n as [|n IH]; intros epoch cb model history; cbn [fit_loop];
    [simpl; tauto |].
  specialize (Hrun epoch (weights model)).
  destruct (epoch_of epoch (weights model)) as [[w' lg]|err];
    cbn [Py.bind fst snd raises] in *; [| tauto].
  destruct (on_epoch_end restore_on_train_end epoch lg _) as [cb1 model1].
  destruct (stop_training model1); [simpl; tauto | apply IH].
Qed.

End Loop.

End early_stopping_facts.

Module cnn_training_claims.
Import cnn_model spec fit_states early_stopping_facts.

Section ConvNet.
Context {Pixel W : Type}.
Variable build_cnn : Z -> W.
Variable run_epoch :
  np.ndarray Pixel -> list Z -> np.ndarray Pixel -> list Z -> nat -> W -> result (W * logs).
Variable restore_on_train_end : bool.

Lemma on_train_end_stop (cb cb' : EarlyStopping W) (model model' : Model W) :
  on_train_end restore_on_train_end (cb, model) = (cb', model') ->
  cb' = cb /\ stop_training model' = stop_training model
  /\ ((restore_on_train_end = false /\ weights model' = weights model)
      \/ (best_weights cb = None /\ weights model' = weights model)
      \/ (restore_on_train_end = true /\ best_weights cb = Some (weights model'))).
Proof.
  unfold on_train_end. destruct (best_weights cb) as [bw|] eqn:Hbw.
  - destruct restore_on_train_end; intros [= <- <-]; simpl.
    + split; [done |]. split; [done |]. right. right. done.
    + split; [done |]. split; [done |]. left. done.
  - intros [= <- <-]. split; [done |]. split; [done |]. right. left. done.
Qed.

(** C4.  Provided both inputs pass the reshape and no epoch raises,
    [train_cnn] returns.  Whenever it returns, the history holds at least
    one and at most [CNN_EPOCHS] = 50 epochs, and training went on only
    while the validation loss had not yet failed to improve for
    [CNN_EARLY_STOPPING_PATIENCE] = 5 epochs in a row.  When early
    stopping triggered, exactly 5 epochs follow the first epoch that holds
    the minimum validation loss of the history, and the returned weights
    are those reached at the end of that epoch.  Otherwise all 50 epochs
    were run. *)
Theorem train_cnn_early_stopping
    (X_train : np.ndarray Pixel) (y_train : list Z)
    (X_test : np.ndarray Pixel) (y_test : list Z) (num_classes : Z) :
  (~ raises (_reshape_for_cnn X_train) ->
   ~ raises (_reshape_for_cnn X_test) ->
   (forall X y Xv yv e w, ~ raises (run_epoch X y Xv yv e w)) ->
   ~ raises (train_cnn build_cnn run_epoch restore_on_train_end
               X_train y_train X_test y_test num_classes))
  /\ forall model history,
       train_cnn build_cnn run_epoch restore_on_train_end
         X_train y_train X_test y_test num_classes = Ok (model, history) ->
       (1 <= length history <= config.CNN_EPOCHS)%nat
       /\ (forall h, h `prefix_of` history -> h <> history ->
             never_stalled config.CNN_EARLY_STOPPING_PATIENCE h)
       /\ exists X_train_cnn X_test_cnn e lg,
            _reshape_for_cnn X_train = Ok X_train_cnn
            /\ _reshape_for_cnn X_test = Ok X_test_cnn
            /\ first_minimum history e lg
            /\ if stop_training model then
                 length history = (e + 1 + config.CNN_EARLY_STOPPING_PATIENCE)%nat
                 /\ weights_after run_epoch X_train_cnn y_train X_test_cnn y_test
                      (build_cnn num_classes) e = Ok (weights model)
               else
                 length history = config.CNN_EPOCHS
                 /\ never_stalled config.CNN_EARLY_STOPPING_PATIENCE history.
Proof.
  split.
  - intros Hx Hxt Hrun. unfold train_cnn, train_cnn_run, fit.
    destruct (_reshape_for_cnn X_train) as [Xc|]; [| done].
    destruct (_reshape_for_cnn X_test) as [Xtc|]; [| done].
    cbn [Py.bind].
    match goal with
    | |- context [fit_loop ?re ?r ?a ?b ?c ?d ?n ?e ?cb ?m ?h] =>
        pose proof (fit_loop_total re r a b c d n e cb m h (Hrun a b c d)) as Htot;
        destruct (fit_loop re r a b c d n e cb m h) as [[[cb1 m1] h1]|]
    end; [| done].
    cbn [Py.bind fst snd].
    destruct (on_train_end restore_on_train_end (cb1, m1)). simpl. tauto.
  - intros model history. unfold train_cnn, train_cnn_run, fit.
    intros ([[cb m] h] & Hrun & [= <- <-])%bind_Ok.
    apply bind_Ok in Hrun as (Xc & HXc & Hrun).
    apply bind_Ok in Hrun as (Xtc & HXtc & Hrun).
    apply bind_Ok in Hrun as ([[cb1 m1] h1] & Hloop & Hend).
    cbn [fst snd] in Hend.
    destruct (on_train_end restore_on_train_end (cb1, m1)) as [cb2 m2] eqn:Hte.
    injection Hend as <- <- <-.
    apply on_train_end_stop in Hte as (-> & Hstop & Hw).
    set (P := config.CNN_EARLY_STOPPING_PATIENCE) in *.
    set (w0 := build_cnn num_classes) in *.
    assert (running run_epoch Xc y_train Xtc y_test w0 P 0
              (EarlyStopping_init P) {| weights := w0; stop_training := false |} [])
      as Hinit.
    { split; [done |]. split; [done |]. split; [done |]. split; [| done].
      intros h' Hne Hpre. apply prefix_nil_inv in Hpre. done. }
    destruct (fit_loop_Ok run_epoch restore_on_train_end Xc y_train Xtc y_test w0 P
                ltac:(unfold P, config.CNN_EARLY_STOPPING_PATIENCE; lia)
                _ _ _ _ _ _ _ _ Hloop Hinit) as [[Hr|Hs] Hlen].
    + destruct Hr as (Hl & Hst & _ & Hns & e & lg & w_e & Hmin & _).
      simpl in Hl. rewrite Hstop, Hst.
      split; [unfold config.CNN_EPOCHS in *; lia |].
      split; [intros h' Hpre _ h'' Hne Hpre''; apply Hns; [done | by etrans] |].
      exists Xc, Xtc, e, lg. done.
    + destruct Hs as (Hst & Hproper & e & lg & w_e & Hmin & Hwe & Hbw & Hl & Hrest).
      rewrite Hstop, Hst.
      split; [unfold config.CNN_EPOCHS in *; lia |].
      split; [done |].
      exists Xc, Xtc, e, lg.
      split; [done |]. split; [done |]. split; [done |]. split; [done |].
      rewrite Hwe. f_equal.
      destruct Hw as [[Hflag Hw]|[[Hnone Hw]|[Hflag Hw]]].
      * rewrite Hw. symmetry. by apply Hrest.
      * congruence.
      * congruence.
Qed.

End ConvNet.

Lemma train_cnn_early_stopping_witness :
  exists model history,
    train_cnn toy.build_cnn toy.run_epoch false
      toy.one_image [0] toy.one_image [0] 2 = Ok (model, history)
    /\ stop_training model = true
    /\ length history = 8%nat
    /\ (1 <= length history <= config.CNN_EPOCHS)%nat
    /\ (forall h, h `prefix_of` history -> h <> history ->
          never_stalled config.CNN_EARLY_STOPPING_PATIENCE h)
    /\ exists X_train_cnn X_test_cnn e lg,
         _reshape_for_cnn toy.one_image = Ok X_train_cnn
         /\ _reshape_for_cnn toy.one_image = Ok X_test_cnn
         /\ first_minimum history e lg
         /\ if stop_training model then
              length history = (e + 1 + config.CNN_EARLY_STOPPING_PATIENCE)%nat
              /\ weights_after toy.run_epoch X_train_cnn [0] X_test_cnn [0]
                   (toy.build_cnn 2) e = Ok (weights model)
            else
              length history = config.CNN_EPOCHS
              /\ never_stalled config.CNN_EARLY_STOPPING_PATIENCE history.
Proof.
  destruct (train_cnn_early_stopping toy.build_cnn toy.run_epoch false
              toy.one_image [0] toy.one_image [0] 2) as [_ Hprop].
  eexists _, _. split; [vm_compute; reflexivity |].
  split; [reflexivity |]. split; [reflexivity |].
  apply Hprop. vm_compute. reflexivity.
Defined.

End cnn_training_claims.

(** ** evaluation.py *)

Module evaluation_claims.
Import evaluation.

Lemma matches_refl (y : list Z) : matches y y = length y.
Proof.
  induction y as [|v y IH]; simpl; [done |].
  by rewrite bool_decide_eq_true_2, IH.
Qed.

Lemma true_positives_refl (c : Z) (y : list Z) : true_positives c y y = count c y.
Proof.
  unfold count. induction y as [|v y IH]; simpl; [done |].
  rewrite IH. destruct (decide (v = c)) as [->|Hne].
  - by rewrite !bool_decide_eq_true_2.
  - rewrite !bool_decide_eq_false_2; [done | done | tauto].
Qed.

Lemma count_pos (c : Z) (y : list Z) : c ∈ y -> (0 < count c y)%nat.
Proof.
  unfold count. induction y as [|v y IH]; [by intros ?%elem_of_nil |].
  intros [->|Hin]%elem_of_cons; simpl.
  - rewrite bool_decide_eq_true_2 by done. simpl. lia.
  - specialize (IH Hin). destruct (bool_decide (v = c)); simpl; lia.
Qed.

Lemma Qnat_pos (n : nat) : (0 < n)%nat -> ~ (Qnat n == 0)%Q.
Proof.
  intros Hn Heq. unfold Qnat, Qeq in Heq. simpl in Heq. lia.
Qed.

Lemma prf_divide_same (n : nat) : (0 < n)%nat -> (prf_divide n n == 1)%Q.
Proof.
  intros Hn. unfold prf_divide.
  destruct (Nat.eqb_spec n 0) as [->|_]; [lia |].
  apply Qmult_inv_r. by apply Qnat_pos.
Qed.

Lemma Qnat_add (n m : nat) : (Qnat (n + m) == Qnat n + Qnat m)%Q.
Proof. unfold Qnat. rewrite Nat2Z.inj_add, inject_Z_plus. reflexivity. Qed.

(** A score that is 1 on every label sums, weighted, to the total support. *)
Lemma Qsum_weighted_ones (score : Z -> list Z -> list Z -> Q)
    (y_true y_pred : list Z) (labels : list Z) :
  (forall c, c ∈ labels -> (score c y_true y_pred == 1)%Q) ->
  (Qsum (map (weighted_term score y_true y_pred) labels)
   == Qnat (foldr Nat.add 0%nat (map (fun c => count c y_true) labels)))%Q.
Proof.
  induction labels as [|c labels IH]; intros Hone; simpl; [done |].
  rewrite Qnat_add, IH by (intros; apply Hone; by right).
  unfold weighted_term. rewrite (Hone c) by (by left). ring.
Qed.

Lemma elem_of_unique_labels (c : Z) (y_true y_pred : list Z) :
  c ∈ unique_labels y_true y_pred <-> c ∈ y_true \/ c ∈ y_pred.
Proof.
  unfold unique_labels. rewrite <- elem_of_app.
  apply elem_of_unique. intros x y. apply Z.compare_eq_iff.
Qed.

Lemma total_support_pos (y : list Z) (labels : list Z) (c : Z) :
  c ∈ labels -> c ∈ y ->
  (0 < foldr Nat.add 0%nat (map (fun c => count c y) labels))%nat.
Proof.
  induction labels as [|c' labels IH]; [by intros ?%elem_of_nil |].
  intros [->|Hin]%elem_of_cons Hy; simpl.
  - pose proof (count_pos _ _ Hy). lia.
  - specialize (IH Hin Hy). lia.
Qed.

Lemma weighted_average_perfect (score : Z -> list Z -> list Z -> Q) (y : list Z) :
  y <> [] ->
  (forall c, c ∈ y -> (score c y y == 1)%Q) ->
  (weighted_average score y y == 1)%Q.
Proof.
  intros Hne Hone. unfold weighted_average.
  set (labels := unique_labels y y).
  set (total := foldr Nat.add 0%nat (map (fun c => count c y) labels)).
  assert (0 < total)%nat as Hpos.
  { destruct y as [|v y]; [done |].
    apply (total_support_pos _ _ v); [| by left].
    apply elem_of_unique_labels. left. by left. }
  destruct (Nat.eqb_spec total 0) as [Hz|_]; [lia |].
  rewrite Qsum_weighted_ones.
  - apply Qmult_inv_r. by apply Qnat_pos.
  - intros c [Hc|Hc]%elem_of_unique_labels; by apply Hone.
Qed.

End evaluation_claims.

(** ** Index arrays and random choice *)

Module IndexFacts.
Import model_selection.

Lemma sum_app (l k : list nat) : sum (l ++ k) = (sum l + sum k)%nat.
Proof. induction l as [|x l IH]; simpl; [done | rewrite IH; lia]. Qed.

Lemma sum_alter_S (l : list nat) (i : nat) :
  (i < length l)%nat -> sum (alter S i l) = S (sum l).
Proof.
  revert i. induction l as [|x l IH]; intros [|i] Hi; simpl in *; try lia.
  change (list_alter S i l) with (alter S i l). rewrite IH by lia. lia.
Qed.

Section Where.
Context {A : Type} `{EqDecision A}.

Lemma elem_of_where_from (i j : nat) (a : list A) (v : A) :
  j ∈ where_from i a v <-> (i <= j)%nat /\ a !! (j - i)%nat = Some v.
Proof.
  revert i. induction a as [|x a IH]; intros i; simpl.
  - rewrite elem_of_nil. naive_solver.
  - assert (forall P : Prop,
              (P <-> (S i <= j)%nat /\ a !! (j - S i)%nat = Some v) ->
              ((i <= j)%nat /\ (x :: a) !! (j - i)%nat = Some v)
              <-> ((j = i /\ x = v) \/ P)) as Hcase.
    { intros P ->. destruct (decide (j = i)) as [->|Hne].
      - rewrite Nat.sub_diag. simpl. split; [intros [_ [= ->]]; by left |].
        intros [[_ ->]|[? _]]; [done | lia].
      - split.
        + intros [Hle Hl]. right. split; [lia |].
          by replace (j - i)%nat with (S (j - S i)) in Hl by lia.
        + intros [[? _]|[Hle Hl]]; [done |]. split; [lia |].
          by replace (j - i)%nat with (S (j - S i)) by lia. }
    rewrite (Hcase _ (IH (S i))).
    destruct (decide (x = v)) as [->|Hne].
    + rewrite elem_of_cons. naive_solver.
    + naive_solver.
Qed.

Lemma elem_of_where_eq (j : nat) (a : list A) (v : A) :
  j ∈ where_eq a v <-> a !! j = Some v.
Proof.
  unfold where_eq. rewrite elem_of_where_from, Nat.sub_0_r.
  split; [by intros [_ ?] | intros ?; split; [lia | done]].
Qed.

Lemma NoDup_where_from (i : nat) (a : list A) (v : A) : NoDup (where_from i a v).
Proof.
  revert i. induction a as [|x a IH]; intros i; simpl; [constructor |].
  destruct (decide (x = v)); [| apply IH].
  constructor; [| apply IH].
  rewrite elem_of_where_from. lia.
Qed.

Lemma NoDup_where_eq (a : list A) (v : A) : NoDup (where_eq a v).
Proof. apply NoDup_where_from. Qed.

Lemma length_where_from (i : nat) (a : list A) (v : A) :
  length (where_from i a v) = length (filter (fun x => x = v) a).
Proof.
  revert i. induction a as [|x a IH]; intros i; simpl; [done |].
  destruct (decide (x = v)) as [->|Hne].
  - rewrite filter_cons_True by done. simpl. by rewrite IH.
  - rewrite filter_cons_False by done. apply IH.
Qed.

Lemma where_eq_lt (j : nat) (a : list A) (v : A) :
  j ∈ where_eq a v -> (j < length a)%nat.
Proof. rewrite elem_of_where_eq. apply lookup_lt_Some. Qed.

End Where.

Lemma length_where_eq_occurrences (y : list Z) (c : Z) :
  length (where_eq y c) = spec.occurrences c y.
Proof.
  unfold where_eq, spec.occurrences. rewrite length_where_from.
  induction y as [|v y IH]; simpl; [done |].
  destruct (decide (v = c)) as [->|Hne].
  - rewrite filter_cons_True, bool_decide_eq_true_2 by done. simpl. by rewrite IH.
  - rewrite filter_cons_False, bool_decide_eq_false_2 by done. done.
Qed.

(** Reading an array at valid positions. *)
Lemma length_omap_le {A B : Type} (f : A -> option B) (l : list A) :
  (length (omap f l) <= length l)%nat.
Proof.
  induction l as [|x l IH]; csimpl; [done |].
  destruct (f x); simpl; lia.
Qed.

Lemma omap_lookup_seq {A : Type} (a : list A) :
  omap (fun j => a !! j) (seq 0 (length a)) = a.
Proof.
  induction a as [|x a IH] using rev_ind; [done |].
  rewrite length_app. simpl. rewrite Nat.add_1_r, seq_S, omap_app. csimpl.
  rewrite lookup_app_r, Nat.sub_diag by lia. simpl.
  f_equal. rewrite <- IH at 2.
  apply list_omap_ext, Forall2_same_length_lookup_2; [done |].
  intros i j j' Hj Hj'. assert (j' = j) as -> by congruence.
  apply lookup_seq in Hj as [-> Hlt]. simpl. by rewrite lookup_app_l.
Qed.

Lemma omap_lookup_Permutation {A : Type} (a : list A) (perm : list nat) :
  perm ≡ₚ seq 0 (length a) -> omap (fun j => a !! j) perm ≡ₚ a.
Proof. intros ->. by rewrite omap_lookup_seq. Qed.

Lemma take_clip_Permutation (a perm : list nat) :
  perm ≡ₚ seq 0 (length a) -> take_clip a perm ≡ₚ a.
Proof.
  intros Hperm. unfold take_clip.
  etrans; [| exact (omap_lookup_Permutation a perm Hperm)].
  erewrite list_omap_ext; [done |].
  apply Forall2_same_length_lookup_2; [done |].
  intros i j j' Hj Hj'. assert (j' = j) as -> by congruence.
  assert (j ∈ seq 0 (length a)) as Hin
    by (rewrite <- Hperm; by eapply list_elem_of_lookup_2).
  apply elem_of_seq in Hin. f_equal. lia.
Qed.

Section Choice.
Context {RandomState : Type}.
Variable permutation : nat -> RandomState -> list nat * RandomState.
Hypothesis permutation_shuffles :
  forall n rng, (permutation n rng).1 ≡ₚ seq 0 n.

Lemma permuted_Permutation (a : list nat) (rng : RandomState) :
  (permuted permutation a rng).1 ≡ₚ a.
Proof.
  unfold permuted. pose proof (permutation_shuffles (length a) rng) as Hp.
  destruct (permutation (length a) rng) as [perm rng']. simpl in *.
  by apply omap_lookup_Permutation.
Qed.

Lemma choice_spec (inds : list nat) (k : nat) (rng : RandomState) :
  NoDup inds -> (k <= length inds)%nat ->
  let chosen := (choice permutation inds k rng).1 in
  NoDup chosen /\ length chosen = k /\ (forall i, i ∈ chosen -> i ∈ inds).
Proof.
  intros Hnd Hk. unfold choice.
  pose proof (permutation_shuffles (length inds) rng) as Hp.
  destruct (permutation (length inds) rng) as [perm rng']. simpl in *.
  pose proof (omap_lookup_Permutation inds perm Hp) as Hall.
  rewrite <- (take_drop k perm), omap_app in Hall.
  set (chosen := omap (fun j => inds !! j) (take k perm)) in *.
  set (rest := omap (fun j => inds !! j) (drop k perm)) in *.
  assert (length perm = length inds) as Hlen
    by (rewrite Hp; apply length_seq).
  split; [| split].
  - rewrite <- Hall in Hnd. by apply NoDup_app in Hnd as [? _].
  - pose proof (length_omap_le (fun j => inds !! j) (take k perm)) as H1.
    pose proof (length_omap_le (fun j => inds !! j) (drop k perm)) as H2.
    fold chosen in H1. fold rest in H2.
    apply Permutation_length in Hall. rewrite length_app in Hall.
    rewrite length_take in H1. rewrite length_drop in H2. lia.
  - intros i Hi. rewrite <- Hall. apply elem_of_app. by left.
Qed.

End Choice.

Lemma increment_at_spec (inds floored : list nat) :
  NoDup inds -> (forall i, i ∈ inds -> (i < length floored)%nat) ->
  length (increment_at inds floored) = length floored
  /\ sum (increment_at inds floored) = (sum floored + length inds)%nat
  /\ forall i, increment_at inds floored !! i
               = if decide (i ∈ inds) then S <$> floored !! i else floored !! i.
Proof.
  induction inds as [|j inds IH]; intros Hnd Hlt; simpl.
  - split; [done |]. split; [lia |]. intros i.
    destruct (decide (i ∈ [])) as [H|_]; [by apply elem_of_nil in H | done].
  - apply NoDup_cons in Hnd as [Hj Hnd].
    destruct (IH Hnd) as (Hlen & Hsum & Hlook).
    { intros i Hi. apply Hlt. by right. }
    split; [by rewrite length_alter |]. split.
    + rewrite sum_alter_S; [lia |]. rewrite Hlen. apply Hlt. by left.
    + intros i. destruct (decide (i = j)) as [->|Hne].
      * rewrite list_lookup_alter_eq, Hlook.
        rewrite decide_False by done. rewrite decide_True by (by left). done.
      * rewrite list_lookup_alter_ne by done. rewrite Hlook.
        destruct (decide (i ∈ inds)) as [Hi|Hi].
        -- rewrite decide_True by (by right). done.
        -- rewrite decide_False; [done |].
           intros [?|?]%elem_of_cons; done.
Qed.

End IndexFacts.

(** ** _approximate_mode *)

Module ApproximateModeFacts.
Import model_selection split_counts IndexFacts.

Lemma shares_div_mod (cs : list nat) (d T : nat) :
  (0 < T)%nat ->
  (T * sum (map (fun c => c * d / T) cs) + sum (map (fun c => c * d mod T) cs)
   = sum cs * d)%nat.
Proof.
  intros HT. induction cs as [|c cs IH]; simpl; [lia |].
  pose proof (Nat.div_mod_eq (c * d) T). nia.
Qed.

Lemma sum_remainders_bound (rem : list nat) (T : nat) :
  Forall (fun r => (r < T)%nat) rem ->
  (sum rem <= (T - 1) * length (filter (fun r => 0 < r) rem))%nat.
Proof.
  induction 1 as [|r rem Hr _ IH]; simpl; [lia |].
  destruct (decide (0 < r)%nat) as [Hpos|Hz].
  - rewrite filter_cons_True by done. simpl. nia.
  - rewrite filter_cons_False by done. lia.
Qed.

Lemma pending_positive_all (values rem : list nat) :
  (forall r, r ∈ rem -> r ∈ values) ->
  pending_positive values rem = length (filter (fun r => (0 < r)%nat) rem).
Proof.
  unfold pending_positive. induction rem as [|r rem IH]; intros Hall; [done |].
  assert (r ∈ values) as Hr by (apply Hall; by left).
  specialize (IH ltac:(intros; apply Hall; by right)).
  destruct (decide (0 < r)%nat) as [Hpos|Hz].
  - rewrite !filter_cons_True by done. simpl. by rewrite IH.
  - rewrite !filter_cons_False by tauto. done.
Qed.

Lemma pending_positive_cons (v : nat) (values rem : list nat) :
  (pending_positive (v :: values) rem
   <= (if decide (0 < v) then length (where_eq rem v) else 0)
      + pending_positive values rem)%nat.
Proof.
  unfold pending_positive, where_eq. rewrite length_where_from.
  induction rem as [|r rem IH]; [simpl; destruct (decide (0 < v)%nat); lia |].
  pose proof (length_filter (fun x => x = v) rem) as Hle.
  destruct (decide (0 < r /\ r ∈ v :: values)%nat) as [[Hpos Hin]|Hn].
  - rewrite (filter_cons_True (fun r => (0 < r)%nat /\ r ∈ v :: values)) by done.
    apply elem_of_cons in Hin as [->|Hin].
    + rewrite decide_True in IH |- * by done.
      rewrite (filter_cons_True (fun x => x = v)) by done. simpl.
      destruct (decide (0 < v /\ v ∈ values)%nat).
      * rewrite filter_cons_True by done. simpl. lia.
      * rewrite filter_cons_False by done. lia.
    + rewrite (filter_cons_True (fun r => (0 < r)%nat /\ r ∈ values)) by done.
      simpl. destruct (decide (0 < v)%nat); [| lia].
      destruct (decide (r = v)).
      * rewrite (filter_cons_True (fun x => x = v)) by done. simpl. lia.
      * rewrite (filter_cons_False (fun x => x = v)) by done. lia.
  - rewrite (filter_cons_False (fun r => (0 < r)%nat /\ r ∈ v :: values)) by done.
    rewrite (filter_cons_False (fun r => (0 < r)%nat /\ r ∈ values)).
    2: { intros [? ?]. apply Hn. split; [done | by right]. }
    destruct (decide (0 < v)%nat); [| lia].
    destruct (decide (r = v)).
    + rewrite (filter_cons_True (fun x => x = v)) by done. simpl. lia.
    + rewrite (filter_cons_False (fun x => x = v)) by done. lia.
Qed.

Lemma descending_zero (values : list nat) : descending (0%nat :: values) -> values = [].
Proof.
  intros [Hall _]%StronglySorted_cons. destruct values as [|v values]; [done |].
  apply Forall_cons in Hall as [? _]. lia.
Qed.

Lemma reverse_unique_descending (rem : list nat) :
  descending (reverse (np.unique Nat.compare rem)).
Proof.
  assert (spec.ascending Nat.compare (np.unique Nat.compare rem)) as Hasc.
  { apply unique_ascending.
    - intros x y. apply Nat.compare_eq_iff.
    - intros x y. apply Nat.compare_antisym.
    - intros x y z. rewrite !Nat.compare_lt_iff. lia. }
  unfold spec.ascending in Hasc. unfold descending.
  induction Hasc as [|x l Hl IH Hall]; [constructor |].
  rewrite reverse_cons. apply StronglySorted_app_2.
  - intros x1 x2 Hx1 ->%list_elem_of_singleton.
    rewrite elem_of_reverse in Hx1.
    apply (proj1 (Forall_forall _ _) Hall) in Hx1.
    by apply Nat.compare_lt_iff in Hx1.
  - done.
  - repeat constructor.
Qed.

Section Mode.
Context {RandomState : Type}.
Variable permutation : nat -> RandomState -> list nat * RandomState.
Hypothesis permutation_shuffles :
  forall n rng, (permutation n rng).1 ≡ₚ seq 0 n.

(** The loop hands out exactly the draws that are missing, one at most
    per class, and only to classes with a positive remainder. *)
Lemma add_by_remainder_spec (values rem floored : list nat) (need : nat)
    (rng : RandomState) :
  descending values ->
  length floored = length rem ->
  (0 < need <= pending_positive values rem)%nat ->
  let floored' := (add_by_remainder permutation values rem floored need rng).1 in
  length floored' = length floored
  /\ sum floored' = (sum floored + need)%nat
  /\ forall i,
       floored' !! i = floored !! i
       \/ exists r b, rem !! i = Some r /\ (0 < r)%nat /\ r ∈ values
                      /\ floored !! i = Some b /\ floored' !! i = Some (S b).
Proof.
  revert floored need rng.
  induction values as [|v values IH]; intros floored need rng Hdesc Hlen [Hpos Hneed].
  { unfold pending_positive in Hneed.
    assert (filter (fun r => (0 < r)%nat /\ r ∈ []) rem = []) as Hnil.
    { clear. induction rem as [|r rem IH]; [done |].
      rewrite filter_cons_False; [done |]. intros [_ ?%elem_of_nil]. done. }
    rewrite Hnil in Hneed. simpl in Hneed. lia. }
  assert (0 < v)%nat as Hv.
  { destruct v as [|v]; [| lia].
    apply descending_zero in Hdesc as ->.
    pose proof (pending_positive_cons 0 [] rem) as Hc.
    rewrite decide_False in Hc by lia.
    assert (pending_positive [] rem = 0)%nat as Hz.
    { unfold pending_positive. clear. induction rem as [|r rem IH]; [done |].
      rewrite filter_cons_False; [done |]. intros [_ ?%elem_of_nil]. done. }
    lia. }
  pose proof (pending_positive_cons v values rem) as Hcons.
  rewrite decide_True in Hcons by done.
  apply StronglySorted_cons in Hdesc as [Hbelow Hdesc].
  cbn [add_by_remainder].
  set (inds := where_eq rem v) in *.
  set (add_now := Nat.min (length inds) need).
  pose proof (choice_spec permutation permutation_shuffles inds add_now rng
                (NoDup_where_eq rem v) ltac:(unfold add_now; lia))
    as (Hnd & Hk & Hsub).
  destruct (choice permutation inds add_now rng) as [chosen rng1]. simpl in Hnd, Hk, Hsub.
  destruct (increment_at_spec chosen floored Hnd) as (Hlen1 & Hsum1 & Hlook1).
  { intros i Hi%Hsub%where_eq_lt. lia. }
  assert (forall i, i ∈ chosen ->
            exists b, rem !! i = Some v /\ floored !! i = Some b
                      /\ increment_at chosen floored !! i = Some (S b)) as Hch.
  { intros i Hi. pose proof (Hsub _ Hi) as Hr. apply elem_of_where_eq in Hr.
    destruct (floored !! i) as [b|] eqn:Hb.
    - exists b. rewrite Hlook1, decide_True, Hb by done. done.
    - apply lookup_ge_None in Hb. apply lookup_lt_Some in Hr. lia. }
  destruct (Nat.eqb_spec (need - add_now) 0) as [Hz|Hnz]; simpl.
  - split; [done |]. split; [lia |].
    intros i. destruct (decide (i ∈ chosen)) as [Hi|Hi].
    + right. destruct (Hch _ Hi) as (b & Hr & Hb & Hb').
      exists v, b. split; [done |]. split; [done |]. split; [by left | done].
    + left. by rewrite Hlook1, decide_False.
  - destruct (IH (increment_at chosen floored) (need - add_now)%nat rng1 Hdesc)
      as (Hlen2 & Hsum2 & Hlook2).
    { lia. }
    { unfold add_now in *. lia. }
    split; [lia |]. split; [unfold add_now in *; lia |].
    intros i. destruct (Hlook2 i) as [Hsame|(r & b & Hr & Hrpos & Hrin & Hb & Hb')].
    + destruct (decide (i ∈ chosen)) as [Hi|Hi].
      * right. destruct (Hch _ Hi) as (b & Hr & Hb & Hb').
        exists v, b. split; [done |]. split; [done |]. split; [by left |].
        split; [done |]. by rewrite Hsame.
      * left. by rewrite Hsame, Hlook1, decide_False.
    + destruct (decide (i ∈ chosen)) as [Hi|Hi].
      * exfalso. destruct (Hch _ Hi) as (b0 & Hr0 & _).
        assert (r = v) as -> by congruence.
        apply (proj1 (Forall_forall _ _) Hbelow) in Hrin. lia.
      * right. exists r, b. split; [done |]. split; [done |].
        split; [by right |]. split; [| done].
        by rewrite Hlook1, decide_False in Hb.
Qed.

(** [_approximate_mode] draws [n_draws] in all and gives every class its
    share. *)
Lemma approximate_mode_spec (class_counts : list nat) (n_draws : nat) (rng : RandomState) :
  (0 < sum class_counts)%nat ->
  let n_i := (_approximate_mode permutation class_counts n_draws rng).1 in
  length n_i = length class_counts
  /\ sum n_i = n_draws
  /\ forall i c, class_counts !! i = Some c ->
       exists m, n_i !! i = Some m /\ share c n_draws (sum class_counts) m.
Proof.
  intros HT. unfold _approximate_mode.
  set (T := sum class_counts) in *.
  set (base := map (fun c => (c * n_draws / T)%nat) class_counts).
  set (rem := map (fun c => (c * n_draws mod T)%nat) class_counts).
  pose proof (shares_div_mod class_counts n_draws T HT) as Hdm.
  fold base rem T in Hdm.
  assert (sum base <= n_draws)%nat as Hle by nia.
  assert (forall i c, class_counts !! i = Some c ->
            base !! i = Some (c * n_draws / T)%nat
            /\ rem !! i = Some (c * n_draws mod T)%nat) as Hlook.
  { intros i c Hc. unfold base, rem.
    change (map ?f class_counts) with (f <$> class_counts).
    by rewrite !list_lookup_fmap, Hc. }
  destruct (Nat.ltb_spec 0 (n_draws - sum base)) as [Hneed|Hneed]; simpl.
  - assert (Forall (fun r => (r < T)%nat) rem) as Hrem.
    { unfold rem. apply Forall_forall. intros r (c & -> & _)%list_elem_of_fmap.
      apply Nat.mod_upper_bound. lia. }
    pose proof (sum_remainders_bound rem T Hrem) as Hbound.
    destruct (add_by_remainder_spec (reverse (np.unique Nat.compare rem)) rem base
                (n_draws - sum base) rng) as (Hlen & Hsum & Hi).
    + apply reverse_unique_descending.
    + unfold base, rem. by rewrite !length_map.
    + split; [done |]. rewrite pending_positive_all.
      * assert (sum rem = T * (n_draws - sum base))%nat as Hsr by nia.
        nia.
      * intros r Hr. apply elem_of_reverse, elem_of_unique; [| done].
        intros x y. apply Nat.compare_eq_iff.
    + split; [rewrite Hlen; unfold base; by rewrite length_map |].
      split; [lia |].
      intros i c Hc. destruct (Hlook i c Hc) as [Hb Hr].
      destruct (Hi i) as [Hsame|(r & b & Hr' & Hpos & _ & Hb' & Hinc)].
      * exists (c * n_draws / T)%nat. split; [by rewrite Hsame | by left].
      * assert (r = (c * n_draws) mod T)%nat as -> by congruence.
        assert (b = c * n_draws / T)%nat as -> by congruence.
        exists (S (c * n_draws / T)). split; [done |]. right. split; [lia | done].
  - split; [unfold base; by rewrite length_map |].
    split; [lia |].
    intros i c Hc. destruct (Hlook i c Hc) as [Hb _].
    exists (c * n_draws / T)%nat. split; [done | by left].
Qed.

End Mode.

(** A share never exceeds the class, and is within one draw of the exact
    proportion. *)
Lemma share_le (c d T m : nat) :
  (0 < T)%nat -> (d <= T)%nat -> share c d T m -> (m <= c)%nat.
Proof.
  intros HT Hd Hs.
  pose proof (Nat.div_mod_eq (c * d) T) as Hdm.
  pose proof (Nat.mod_upper_bound (c * d) T ltac:(lia)) as Hub.
  destruct Hs as [->|[-> Hpos]]; nia.
Qed.

Lemma share_close (c d T m : nat) :
  (0 < T)%nat -> share c d T m -> (m * T < c * d + T /\ c * d < m * T + T)%nat.
Proof.
  intros HT Hs.
  pose proof (Nat.div_mod_eq (c * d) T) as Hdm.
  pose proof (Nat.mod_upper_bound (c * d) T ltac:(lia)) as Hub.
  destruct Hs as [->|[-> Hpos]]; nia.
Qed.

(** When everything that is left is drawn, each class gives all it has. *)
Lemma share_all (c T m : nat) : (0 < T)%nat -> share c T T m -> m = c.
Proof.
  intros HT Hs. unfold share in Hs.
  rewrite Nat.Div0.mod_mul in Hs. rewrite Nat.div_mul in Hs by lia.
  destruct Hs as [->|[_ ?]]; [done | lia].
Qed.

End ApproximateModeFacts.

(** ** The stratified split *)

Module SplitFacts.
Import model_selection split_counts IndexFacts ApproximateModeFacts.

Lemma sum_map_length (ls : list (list nat)) : sum (map length ls) = length (concat ls).
Proof. induction ls as [|l ls IH]; simpl; [done | by rewrite length_app, IH]. Qed.

Lemma sum_zip_with_sub (cs ns : list nat) :
  Forall2 (fun c n => (n <= c)%nat) cs ns ->
  (sum (zip_with Nat.sub cs ns) + sum ns = sum cs)%nat.
Proof. induction 1 as [|c n cs ns Hle _ IH]; simpl; lia. Qed.

Lemma elem_of_concat {A : Type} (x : A) (ls : list (list A)) :
  x ∈ concat ls <-> exists l, x ∈ l /\ l ∈ ls.
Proof.
  induction ls as [|l ls IH]; simpl.
  - split; [by intros ?%elem_of_nil | by intros (l & _ & ?%elem_of_nil)].
  - rewrite elem_of_app, IH. split.
    + intros [Hx|(l' & Hx & Hl')]; [exists l; split; [done | by left] |].
      exists l'. split; [done | by right].
    + intros (l' & Hx & Hl'). apply elem_of_cons in Hl' as [->|Hl']; [by left |].
      right. by exists l'.
Qed.

Lemma NoDup_class_indices (y : list Z) (classes : list Z) :
  NoDup classes -> NoDup (concat (map (where_eq y) classes)).
Proof.
  induction 1 as [|c classes Hc Hnd IH]; simpl; [constructor |].
  apply NoDup_app. split; [apply NoDup_where_eq |]. split; [| done].
  intros p Hp Hp'. apply (proj1 (elem_of_where_eq _ _ _)) in Hp.
  apply elem_of_concat in Hp' as (l & Hpl & Hl).
  apply list_elem_of_fmap in Hl as (c' & -> & Hc').
  apply (proj1 (elem_of_where_eq _ _ _)) in Hpl. congruence.
Qed.

(** The positions of each class, class after class, are all positions. *)
Lemma class_indices_Permutation (y : list Z) (classes : list Z) :
  NoDup classes -> (forall v, v ∈ y -> v ∈ classes) ->
  concat (map (where_eq y) classes) ≡ₚ seq 0 (length y).
Proof.
  intros Hnd Hall. apply NoDup_Permutation.
  - by apply NoDup_class_indices.
  - apply NoDup_seq.
  - intros p. rewrite elem_of_seq. split.
    + intros Hp. apply elem_of_concat in Hp as (l & Hpl & Hl).
      apply list_elem_of_fmap in Hl as (c & -> & Hc).
      apply where_eq_lt in Hpl. lia.
    + intros [_ Hp]. destruct (lookup_lt_is_Some_2 y p Hp) as [v Hv].
      apply elem_of_concat. exists (where_eq y v). split.
      * by apply elem_of_where_eq.
      * apply list_elem_of_fmap. exists v. split; [done |].
        apply Hall. by eapply list_elem_of_lookup_2.
Qed.

Lemma hits_app (y : list Z) (c : Z) (l k : list nat) :
  hits y c (l ++ k) = (hits y c l + hits y c k)%nat.
Proof. unfold hits. by rewrite filter_app, length_app. Qed.

Lemma hits_Permutation (y : list Z) (c : Z) (l k : list nat) :
  l ≡ₚ k -> hits y c l = hits y c k.
Proof. unfold hits. by intros ->. Qed.

Lemma hits_same_class (y : list Z) (c c' : Z) (l : list nat) :
  (forall p, p ∈ l -> y !! p = Some c') ->
  hits y c l = if decide (c = c') then length l else 0%nat.
Proof.
  unfold hits. induction l as [|p l IH]; intros Hall; [by destruct (decide _) |].
  assert (y !! p = Some c') as Hp by (apply Hall; by left).
  specialize (IH ltac:(intros; apply Hall; by right)).
  destruct (decide (c = c')) as [->|Hne].
  - rewrite filter_cons_True by done. simpl. by rewrite IH.
  - rewrite filter_cons_False by congruence. done.
Qed.

(** Positions drawn class by class: the label [c] is hit as often as
    positions were drawn for its class. *)
Lemma hits_concat (y : list Z) (classes : list Z) (ns : list nat) (trs : list (list nat)) :
  NoDup classes ->
  Forall2 (fun c tr => forall p, p ∈ tr -> y !! p = Some c) classes trs ->
  Forall2 (fun n tr => length tr = n) ns trs ->
  forall c,
    (c ∉ classes -> hits y c (concat trs) = 0%nat)
    /\ (forall i n, classes !! i = Some c -> ns !! i = Some n ->
          hits y c (concat trs) = n).
Proof.
  intros Hnd Hcls. revert ns.
  induction Hcls as [|c' tr classes trs Htr Hcls IH]; intros ns Hns c.
  - split; [done |]. intros i n Hi. by rewrite lookup_nil in Hi.
  - apply Forall2_cons_inv_r in Hns as (n' & ns' & Hlen & Hns & ->).
    apply NoDup_cons in Hnd as [Hc' Hnd].
    destruct (IH Hnd ns' Hns c) as [Hout Hin].
    simpl. rewrite hits_app, (hits_same_class y c c' tr Htr). split.
    + intros [Hne Hnin]%not_elem_of_cons.
      rewrite decide_False by done. by rewrite Hout.
    + intros [|i] n Hi Hn; simpl in Hi, Hn.
      * injection Hi as ->. injection Hn as <-.
        rewrite decide_True by done. rewrite Hout by done. lia.
      * rewrite decide_False.
        -- by rewrite (Hin i n).
        -- intros ->. apply Hc'. by eapply list_elem_of_lookup_2.
Qed.

Lemma take_indices_inv {A : Type} (a : list A) (idx : list nat) (xs : list A) :
  take_indices a idx = Ok xs -> Forall2 (fun i x => a !! i = Some x) idx xs.
Proof.
  unfold take_indices. revert xs.
  induction idx as [|i idx IH]; intros xs; simpl.
  - intros [= <-]. constructor.
  - destruct (a !! i) as [x|] eqn:Hx; [| discriminate].
    destruct (mapM _ idx) as [xs'|e]; [| discriminate].
    intros [= <-]. constructor; [done | by apply IH].
Qed.

Lemma occurrences_take_indices (y ys : list Z) (idx : list nat) (c : Z) :
  Forall2 (fun i x => y !! i = Some x) idx ys ->
  spec.occurrences c ys = hits y c idx.
Proof.
  unfold spec.occurrences, hits.
  induction 1 as [|i x idx ys Hx _ IH]; [done |]. simpl.
  destruct (decide (x = c)) as [->|Hne].
  - rewrite bool_decide_eq_true_2, filter_cons_True by done. simpl. by rewrite IH.
  - rewrite bool_decide_eq_false_2, filter_cons_False by congruence. done.
Qed.

Section Split.
Context {RandomState : Type}.
Variable seed : Z -> RandomState.
Variable permutation : nat -> RandomState -> list nat * RandomState.
Hypothesis permutation_shuffles :
  forall n rng, (permutation n rng).1 ≡ₚ seq 0 n.

Lemma split_classes_spec (cis : list (list nat)) (ns : list nat)
    (train test : list nat) (rng : RandomState) :
  Forall2 (fun ci n => (n <= length ci)%nat) cis ns ->
  let ts := zip_with (fun ci n => (length ci - n)%nat) cis ns in
  exists trs tes,
    (split_classes permutation cis ns ts train test rng).1
      = (train ++ concat trs, test ++ concat tes)
    /\ Forall2 (fun ci tr => forall p, p ∈ tr -> p ∈ ci) cis trs
    /\ Forall2 (fun n tr => length tr = n) ns trs
    /\ concat trs ++ concat tes ≡ₚ concat cis.
Proof.
  intros Hall. revert train test rng.
  induction Hall as [|ci n cis ns Hn Hall IH]; intros train test rng; simpl.
  - exists [], []. rewrite !app_nil_r. repeat split; constructor.
  - pose proof (permutation_shuffles (length ci) rng) as Hp.
    destruct (permutation (length ci) rng) as [perm rng1]. simpl in Hp.
    pose proof (take_clip_Permutation ci perm Hp) as HP.
    set (P := take_clip ci perm) in *.
    assert (length P = length ci) as HlenP by (by rewrite HP).
    assert (take (length ci - n) (drop n P) = drop n P) as Hte.
    { apply take_ge. rewrite length_drop. lia. }
    rewrite Hte.
    destruct (IH (train ++ take n P) (test ++ drop n P) rng1)
      as (trs & tes & Heq & Hsub & Hlen & Hperm).
    exists (take n P :: trs), (drop n P :: tes).
    split; [by rewrite Heq; simpl; rewrite <- !app_assoc |].
    split; [| split].
    + constructor; [| done]. intros p Hp'. rewrite <- HP.
      by eapply subseteq_take.
    + constructor; [| done]. rewrite length_take. lia.
    + simpl. rewrite <- HP, <- Hperm.
      transitivity ((take n P ++ drop n P) ++ concat trs ++ concat tes);
        [| by rewrite take_drop].
      rewrite <- !app_assoc. apply Permutation_app_head.
      rewrite !app_assoc. apply Permutation_app_tail, Permutation_app_comm.
Qed.

(** The index arrays of a stratified split of [y] into [n_train] and
    [n_test] positions. *)
Lemma stratified_shuffle_split_spec (y : list Z) (n_train n_test : nat)
    (rng : RandomState) (train test : list nat) :
  (0 < n_train)%nat -> (n_train + n_test = length y)%nat ->
  stratified_shuffle_split permutation y n_train n_test rng = Ok (train, test) ->
  train ++ test ≡ₚ seq 0 (length y)
  /\ length train = n_train /\ length test = n_test
  /\ forall c,
       (hits y c train * length y < spec.occurrences c y * n_train + length y
        /\ spec.occurrences c y * n_train < hits y c train * length y + length y)%nat.
Proof.
  intros Hntr Hn. unfold stratified_shuffle_split.
  set (classes := np.unique Z.compare y).
  set (class_counts := map (fun c => length (where_eq y c)) classes).
  set (cis := map (where_eq y) classes).
  destruct (forallb _ class_counts); [| discriminate].
  destruct (Nat.ltb_spec n_train (length classes)) as [|Hktr]; [discriminate |].
  destruct (Nat.ltb_spec n_test (length classes)) as [|Hkte]; [discriminate |].
  assert (NoDup classes) as Hnd.
  { eapply ascending_NoDup; [| apply unique_ascending].
    - intros a b. apply Z.compare_eq_iff.
    - intros a b. apply Z.compare_eq_iff.
    - apply Z_compare_antisym.
    - apply Z_compare_trans. }
  assert (forall v, v ∈ y -> v ∈ classes) as Hcover.
  { intros v Hv. apply elem_of_unique; [| done]. intros a b. apply Z.compare_eq_iff. }
  pose proof (class_indices_Permutation y classes Hnd Hcover) as Hcis. fold cis in Hcis.
  assert (class_counts = map length cis) as Hcc
    by (unfold class_counts, cis; by rewrite map_map).
  assert (sum class_counts = length y) as Hsum.
  { rewrite Hcc, sum_map_length, Hcis. apply length_seq. }
  (* the draws for the train part *)
  pose proof (approximate_mode_spec permutation permutation_shuffles
                class_counts n_train rng ltac:(lia)) as (Hlen_n & Hsum_n & Hshare_n).
  destruct (_approximate_mode permutation class_counts n_train rng) as [n_i rng1].
  simpl in Hlen_n, Hsum_n, Hshare_n. rewrite Hsum in Hshare_n.
  assert (Forall2 (fun c n => share c n_train (length y) n) class_counts n_i) as Hsh.
  { apply Forall2_same_length_lookup_2; [done |].
    intros i c n Hc Hni. destruct (Hshare_n i c Hc) as (m & Hm & ?). congruence. }
  assert (Forall2 (fun c n => (n <= c)%nat) class_counts n_i) as Hle.
  { eapply Forall2_impl; [exact Hsh |]. intros c n. apply share_le; lia. }
  pose proof (sum_zip_with_sub class_counts n_i Hle) as Hrem.
  assert (0 < n_test)%nat as Hnte.
  { destruct y as [|v y']; [simpl in Hn; lia |].
    assert (v ∈ classes) as Hv by (apply Hcover; by left).
    destruct classes; [by apply elem_of_nil in Hv | simpl in Hkte; lia]. }
  (* the draws for the test part: all that is left *)
  set (remaining := zip_with Nat.sub class_counts n_i) in *.
  pose proof (approximate_mode_spec permutation permutation_shuffles
                remaining n_test rng1 ltac:(lia)) as (Hlen_t & Hsum_t & Hshare_t).
  destruct (_approximate_mode permutation remaining n_test rng1) as [t_i rng2].
  simpl in Hlen_t, Hsum_t, Hshare_t.
  assert (sum remaining = n_test) as Hsr by lia. rewrite Hsr in Hshare_t.
  assert (t_i = zip_with (fun ci n => (length ci - n)%nat) cis n_i) as Ht.
  { assert (t_i = remaining) as ->.
    { apply list_eq_same_length with (length remaining); [done | done |].
      intros i t r _ Ht Hr. destruct (Hshare_t i r Hr) as (m & Hm & Hs).
      apply share_all in Hs; [congruence | lia]. }
    unfold remaining. rewrite Hcc. clear.
    revert n_i. induction cis as [|ci cis IH]; intros [|n n_i]; simpl; try done.
    by rewrite IH. }
  assert (Forall2 (fun ci n => (n <= length ci)%nat) cis n_i) as Hle'.
  { rewrite Hcc in Hle. by apply Forall2_fmap_l in Hle. }
  destruct (split_classes_spec cis n_i [] [] rng2 Hle')
    as (trs & tes & Heq & Hsub & Hlens & Hperm).
  rewrite <- Ht in Heq.
  destruct (split_classes permutation cis n_i t_i [] [] rng2) as [[train0 test0] rng3].
  simpl in Heq. injection Heq as -> ->.
  pose proof (permuted_Permutation permutation permutation_shuffles (concat trs) rng3)
    as Hptr.
  destruct (permuted permutation (concat trs) rng3) as [train1 rng4]. simpl in Hptr.
  pose proof (permuted_Permutation permutation permutation_shuffles (concat tes) rng4)
    as Hpte.
  destruct (permuted permutation (concat tes) rng4) as [test1 rng5]. simpl in Hpte.
  intros [= <- <-].
  assert (length (concat trs) = n_train) as Hltr.
  { rewrite <- sum_map_length, <- Hsum_n. f_equal.
    clear -Hlens. induction Hlens as [|n tr ns trs' Hl _ IH]; simpl; [done |].
    by rewrite Hl, IH. }
  split; [by rewrite Hptr, Hpte, Hperm |].
  split; [by rewrite Hptr |].
  split.
  { assert (length (concat trs ++ concat tes) = length y) as Hl
      by (rewrite Hperm, Hcis; apply length_seq).
    rewrite length_app in Hl. rewrite Hpte. lia. }
  intros c. rewrite (hits_Permutation y c _ _ Hptr).
  assert (Forall2 (fun c tr => forall p, p ∈ tr -> y !! p = Some c) classes trs) as Hlab.
  { unfold cis in Hsub. apply Forall2_fmap_l in Hsub.
    eapply Forall2_impl; [exact Hsub |]. intros c' tr Htr p Hp.
    by apply elem_of_where_eq, Htr. }
  destruct (hits_concat y classes n_i trs Hnd Hlab Hlens c) as [Hout Hin].
  destruct (decide (c ∈ classes)) as [Hc|Hc].
  - apply list_elem_of_lookup_1 in Hc as [i Hi].
    assert (class_counts !! i = Some (spec.occurrences c y)) as Hci.
    { unfold class_counts. change (map ?f classes) with (f <$> classes).
      by rewrite list_lookup_fmap, Hi; simpl; rewrite length_where_eq_occurrences. }
    destruct (Forall2_lookup_l _ _ _ _ _ Hsh Hci) as (n & Hni & Hs).
    rewrite (Hin i n Hi Hni).
    apply share_close in Hs; [lia | lia].
  - rewrite (Hout Hc).
    assert (spec.occurrences c y = 0)%nat as ->; [| lia].
    destruct (spec.occurrences c y) eqn:Ho; [done |].
    exfalso. apply Hc, Hcover, CounterFacts.occurrences_pos. lia.
Qed.

(** A split is refused unless every class has two members. *)
Lemma stratified_shuffle_split_min_members (y : list Z) (n_train n_test : nat)
    (rng : RandomState) (r : list nat * list nat) :
  stratified_shuffle_split permutation y n_train n_test rng = Ok r ->
  forall c, c ∈ y -> (2 <= spec.occurrences c y)%nat.
Proof.
  unfold stratified_shuffle_split.
  destruct (forallb _ _) eqn:Hmin; [| discriminate].
  intros _ c Hc.
  apply (proj1 (forallb_forall _ _)) with (x := spec.occurrences c y) in Hmin.
  - by apply Nat.leb_le.
  - apply in_map_iff. exists c. split; [apply length_where_eq_occurrences |].
    apply list_elem_of_In, elem_of_unique; [| done].
    intros a b. apply Z.compare_eq_iff.
Qed.

(** A split is refused unless the test part has room for every class. *)
Lemma stratified_shuffle_split_classes_le (y : list Z) (n_train n_test : nat)
    (rng : RandomState) (r : list nat * list nat) :
  stratified_shuffle_split permutation y n_train n_test rng = Ok r ->
  (length (np.unique Z.compare y) <= n_test)%nat.
Proof.
  unfold stratified_shuffle_split.
  destruct (forallb _ _); [| discriminate].
  destruct (n_train <? _)%nat; [discriminate |].
  destruct (Nat.ltb_spec n_test (length (np.unique Z.compare y))); [discriminate |].
  done.
Qed.

End Split.

(** With at most one class, a label occurs nowhere or everywhere. *)
Lemma single_class_occurrences (y : list Z) (c : Z) :
  (length (np.unique Z.compare y) <= 1)%nat ->
  spec.occurrences c y = 0%nat \/ spec.occurrences c y = length y.
Proof.
  intros Hk. destruct (decide (c ∈ y)) as [Hc|Hc].
  - right.
    assert (forall v, v ∈ y -> v = c) as Hall.
    { intros v Hv.
      apply (elem_of_unique Z.compare Z.compare_eq_iff) in Hv, Hc.
      destruct (np.unique Z.compare y) as [|a [|b l]]; simpl in Hk; [| | lia].
      - by apply elem_of_nil in Hv.
      - apply list_elem_of_singleton in Hv, Hc. congruence. }
    clear Hk Hc. induction y as [|v y IH]; [done |].
    rewrite CounterFacts.occurrences_cons, IH.
    + destruct (decide (v = c)) as [_|Hne]; [done |].
      exfalso. apply Hne, Hall. by left.
    + intros w Hw. apply Hall. by right.
  - left. destruct (spec.occurrences c y) eqn:Ho; [done |].
    exfalso. apply Hc, CounterFacts.occurrences_pos. lia.
Qed.

Lemma hits_le_length (y : list Z) (c : Z) (l : list nat) :
  (hits y c l <= length l)%nat.
Proof. unfold hits. apply length_filter. Qed.

Lemma validate_shuffle_split_fifth (n n_train n_test : nat) :
  _validate_shuffle_split n config.TEST_SIZE = Ok (n_train, n_test) ->
  (n <= 5 * n_test < n + 5)%nat.
Proof.
  unfold _validate_shuffle_split.
  pose proof (Qceiling_lt (config.TEST_SIZE * inject_Z (Z.of_nat n))) as Hlt.
  pose proof (Qle_ceiling (config.TEST_SIZE * inject_Z (Z.of_nat n))) as Hle.
  set (c := Qceiling _) in *.
  destruct (Nat.eqb_spec (n - Z.to_nat c) 0); [discriminate |].
  intros [= <- <-].
  unfold Qlt, Qle, config.TEST_SIZE in Hlt, Hle. simpl in Hlt, Hle.
  lia.
Qed.

Lemma validate_shuffle_split_inv (n n_train n_test : nat) :
  _validate_shuffle_split n config.TEST_SIZE = Ok (n_train, n_test) ->
  (0 < n_train /\ n_train + n_test = n /\ n <= 2 * n_train)%nat.
Proof.
  unfold _validate_shuffle_split.
  pose proof (Qceiling_lt (config.TEST_SIZE * inject_Z (Z.of_nat n))) as Hc.
  set (c := Qceiling _) in *.
  destruct (Nat.eqb_spec (n - Z.to_nat c) 0); [discriminate |].
  intros [= <- <-].
  unfold Qlt, config.TEST_SIZE in Hc. simpl in Hc.
  lia.
Qed.

Lemma Zpos_of_nat (n : nat) : (0 < n)%nat -> Z.pos (Pos.of_nat n) = Z.of_nat n.
Proof. intros Hn. rewrite <- (Nat2Pos.id n) at 2 by lia. by rewrite positive_nat_Z. Qed.

(** The gap of two fractions, from the counts. *)
Lemma fraction_gap_bound (m c d T : nat) :
  (0 < d)%nat -> (0 < T)%nat ->
  (m * T < c * d + T)%nat -> (c * d < m * T + T)%nat ->
  (Qabs ((Z.of_nat m # Pos.of_nat d) - (Z.of_nat c # Pos.of_nat T))
   < 1 # Pos.of_nat d)%Q.
Proof.
  intros Hd HT H1 H2. apply Qabs_Qlt_condition.
  unfold Qlt, Qminus, Qplus, Qopp. simpl.
  rewrite !Pos2Z.inj_mul, !Zpos_of_nat by done. split; nia.
Qed.

(** The gap stays below a quarter when the part has four entries, or
    when the two fractions agree. *)
Lemma fraction_gap_quarter (m c d T : nat) :
  (0 < d)%nat -> (0 < T)%nat ->
  (m * T < c * d + T)%nat -> (c * d < m * T + T)%nat ->
  (4 <= d)%nat \/ (m * T = c * d)%nat ->
  (Qabs ((Z.of_nat m # Pos.of_nat d) - (Z.of_nat c # Pos.of_nat T))
   < spec.split_tolerance)%Q.
Proof.
  intros Hd HT H1 H2 H. apply Qabs_Qlt_condition.
  unfold Qlt, Qminus, Qplus, Qopp, spec.split_tolerance. simpl.
  rewrite !Pos2Z.inj_mul, !Zpos_of_nat by done. split; nia.
Qed.

(** Whichever five of seven samples are kept, a class of two among the
    seven is off by more than 5%: fifths do not come that close to 2/7. *)
Lemma five_of_seven_gap (c : Z) (part full : list Z) :
  length part = 5%nat -> length full = 7%nat -> spec.occurrences c full = 2%nat ->
  ~ (spec.fraction_gap c part full < spec.five_percent)%Q.
Proof.
  intros Hp Hf Hc H. unfold spec.fraction_gap, spec.class_fraction in H.
  rewrite Hp, Hf, Hc in H. apply Qabs_Qlt_condition in H as [H1 H2].
  unfold Qlt, Qminus, Qplus, Qopp, spec.five_percent in H1, H2.
  simpl in H1, H2. lia.
Qed.

Lemma one_over_le_five_percent (d : nat) :
  (20 <= d)%nat -> (1 # Pos.of_nat d <= spec.five_percent)%Q.
Proof.
  intros Hd. unfold Qle, spec.five_percent. simpl.
  rewrite Zpos_of_nat by lia. lia.
Qed.

End SplitFacts.

(** ** The split of [prepare_data] *)

Module split_claims.
Import model_selection data_loader split_counts spec SplitFacts.

Section Prepare.
Variable isdigit : N -> bool.
Variable lower : str -> str.
Context {Image RandomState : Type}.
Variable isdir : str -> bool.
Variable listdir : str -> list str.
Variable open_image : str -> str -> result Image.
Variable div255 : Image -> Image.
Variable seed : Z -> RandomState.
Variable permutation : nat -> RandomState -> list nat * RandomState.
(** [rng.permutation(n)] is a rearrangement of [range(n)]. *)
Hypothesis permutation_shuffles :
  forall n rng, (permutation n rng).1 ≡ₚ seq 0 n.

(** C6.  Whenever [prepare_data] returns, the index arrays of its split
    are disjoint and together hold every position of the loaded dataset
    once, the four returned arrays are the images and labels at those
    positions, so that [len(train) + len(test) == len(full)]; every class
    of the dataset occurs in the train part; and the fraction of any
    class in the train part differs from its fraction in the full set by
    less than the fixed tolerance 1/4, whatever the dataset.  The gap
    is moreover less than [1 / len(train)], hence below 5% once the train
    part has at least 20 samples. *)
Theorem prepare_data_split_is_stratified (folder : str)
    (train test : list nat) (d : Data Image) :
  prepare_data_run isdigit lower isdir listdir open_image div255 seed permutation
    folder = Ok (train, test, d) ->
  exists images labels,
    load_images_from_folder isdigit lower isdir listdir open_image folder
      = Ok (images, labels)
    /\ let X := map div255 images in
       let y := (LabelEncoder.fit_transform labels).2 in
       length X = length y
       /\ train ++ test ≡ₚ seq 0 (length X)
       /\ (forall i, i ∈ train -> i ∉ test)
       /\ take_indices X train = Ok (X_train d)
       /\ take_indices X test = Ok (X_test d)
       /\ take_indices y train = Ok (y_train d)
       /\ take_indices y test = Ok (y_test d)
       /\ (length (X_train d) + length (X_test d) = length X)%nat
       /\ (length (y_train d) + length (y_test d) = length y)%nat
       /\ (forall c, c ∈ y -> c ∈ y_train d)
       /\ (forall c, (fraction_gap c (y_train d) y < split_tolerance)%Q)
       /\ (forall c, (fraction_gap c (y_train d) y
                      < 1 # Pos.of_nat (length (y_train d)))%Q)
       /\ ((20 <= length (y_train d))%nat ->
           forall c, (fraction_gap c (y_train d) y < five_percent)%Q).
Proof.
  intros Hrun. unfold prepare_data_run in Hrun.
  apply bind_Ok in Hrun as ([images labels] & Hload & Hrun).
  exists images, labels. split; [done |].
  cbn [fst snd] in Hrun.
  destruct (LabelEncoder.fit_transform labels) as [le y]. cbn [snd].
  apply bind_Ok in Hrun as (r & Hsplit & Hrun).
  destruct r as [[train' test'] [[[Xtr Xte] ytr] yte]].
  injection Hrun as -> -> <-. cbn [X_train X_test y_train y_test].
  unfold train_test_split_run in Hsplit.
  destruct (Nat.eqb_spec (length (map div255 images)) (length y)) as [Hlen|];
    [| discriminate].
  cbn [negb] in Hsplit.
  apply bind_Ok in Hsplit as ([n_train n_test] & Hval & Hsplit).
  apply bind_Ok in Hsplit as ([tr te] & Hsss & Hsplit). cbn [fst snd] in Hsss, Hsplit.
  apply bind_Ok in Hsplit as (Xtr' & HXtr & Hsplit).
  apply bind_Ok in Hsplit as (Xte' & HXte & Hsplit).
  apply bind_Ok in Hsplit as (ytr' & Hytr & Hsplit).
  apply bind_Ok in Hsplit as (yte' & Hyte & Hsplit).
  injection Hsplit as -> -> -> -> -> ->.
  set (X := map div255 images) in *.
  pose proof (validate_shuffle_split_fifth _ _ _ Hval) as Hfifth.
  apply validate_shuffle_split_inv in Hval as (Hpos & Hsum & Hhalf).
  rewrite Hlen in Hsum, Hhalf, Hfifth.
  pose proof (stratified_shuffle_split_min_members permutation y _ _ _ _ Hsss) as Hmin.
  pose proof (stratified_shuffle_split_classes_le permutation y _ _ _ _ Hsss) as Hroom.
  apply (stratified_shuffle_split_spec permutation permutation_shuffles) in Hsss
    as (Hperm & Hltr & Hlte & Hclose); [| done | done].
  pose proof (take_indices_inv _ _ _ HXtr) as FXtr.
  pose proof (take_indices_inv _ _ _ HXte) as FXte.
  pose proof (take_indices_inv _ _ _ Hytr) as Fytr.
  pose proof (take_indices_inv _ _ _ Hyte) as Fyte.
  apply Forall2_length in FXtr, FXte. pose proof (Forall2_length _ _ _ Fytr) as Lytr.
  apply Forall2_length in Fyte.
  assert (forall c, (fraction_gap c ytr y < 1 # Pos.of_nat (length ytr))%Q) as Hgap.
  { intros c. unfold fraction_gap, class_fraction.
    destruct (Hclose c) as [H1 H2].
    rewrite (occurrences_take_indices y ytr train c Fytr), <- Lytr, Hltr.
    apply fraction_gap_bound; lia. }
  assert (forall c, (fraction_gap c ytr y < split_tolerance)%Q) as Hfix.
  { intros c. unfold fraction_gap, class_fraction.
    destruct (Hclose c) as [H1 H2].
    rewrite (occurrences_take_indices y ytr train c Fytr), <- Lytr, Hltr.
    apply fraction_gap_quarter; [lia | lia | lia | lia |].
    destruct (le_lt_dec 4 n_train) as [Hfour|Hsmall]; [by left | right].
    pose proof (hits_le_length y c train) as Hm. rewrite Hltr in Hm.
    assert (n_test = 1 /\ length y <= 4)%nat as [-> Hn] by lia.
    destruct (single_class_occurrences y c Hroom) as [Ho|Ho];
      rewrite Ho in H1, H2 |- *.
    - assert (hits y c train = 0)%nat as -> by nia. lia.
    - assert (hits y c train = n_train) as -> by nia. lia. }
  split; [done |]. split; [by rewrite Hlen |].
  split.
  { assert (NoDup (train ++ test)) as Hnd by (rewrite Hperm; apply NoDup_seq).
    apply NoDup_app in Hnd as (_ & Hdisj & _). exact Hdisj. }
  do 4 (split; [done |]).
  split; [lia |]. split; [lia |].
  split.
  { intros c Hc. apply CounterFacts.occurrences_pos.
    rewrite (occurrences_take_indices y ytr train c Fytr).
    specialize (Hmin c Hc). destruct (Hclose c) as [_ H2]. nia. }
  split; [done |]. split; [done |].
  intros Hbig c. eapply Qlt_le_trans; [apply Hgap |].
  by apply one_over_le_five_percent.
Qed.

End Prepare.

Lemma prepare_data_split_is_stratified_witness :
  exists images labels,
    load_images_from_folder toy.isdigit toy.lower toy.isdir toy.listdir_seven
      toy.open_image (lit "data") = Ok (images, labels)
    /\ let X := map toy.div255 images in
       let y := (LabelEncoder.fit_transform labels).2 in
       let train := [0; 2; 3; 4; 5]%nat in
       let test := [1; 6]%nat in
       let d := toy.seven_split in
       length X = length y
       /\ train ++ test ≡ₚ seq 0 (length X)
       /\ (forall i, i ∈ train -> i ∉ test)
       /\ take_indices X train = Ok (X_train d)
       /\ take_indices X test = Ok (X_test d)
       /\ take_indices y train = Ok (y_train d)
       /\ take_indices y test = Ok (y_test d)
       /\ (length (X_train d) + length (X_test d) = length X)%nat
       /\ (length (y_train d) + length (y_test d) = length y)%nat
       /\ (forall c, c ∈ y -> c ∈ y_train d)
       /\ (forall c, (fraction_gap c (y_train d) y < split_tolerance)%Q)
       /\ (forall c, (fraction_gap c (y_train d) y
                      < 1 # Pos.of_nat (length (y_train d)))%Q)
       /\ ((20 <= length (y_train d))%nat ->
           forall c, (fraction_gap c (y_train d) y < five_percent)%Q).
Proof.
  apply (prepare_data_split_is_stratified toy.isdigit toy.lower toy.isdir
           toy.listdir_seven toy.open_image toy.div255 toy.seed toy.permutation
           (fun n rng => Permutation_refl (seq 0 n))
           (lit "data") [0; 2; 3; 4; 5]%nat [1; 6]%nat toy.seven_split).
  reflexivity.
Defined.

(** The 5% that the specification gives as an example of a tolerance is
    not one for small datasets: a folder of seven images, two of one
    class and five of the other, is split into five and two; the train
    part holds one image of the first class, a fraction of 1/5 against
    2/7 in the full set.  The gap is 3/35, more than 5% and less than
    1/4. *)
Lemma prepare_data_gap_exceeds_five_percent :
  exists train test d images labels,
    prepare_data_run toy.isdigit toy.lower toy.isdir toy.listdir_seven
      toy.open_image toy.div255 toy.seed toy.permutation (lit "data")
      = Ok (train, test, d)
    /\ load_images_from_folder toy.isdigit toy.lower toy.isdir toy.listdir_seven
         toy.open_image (lit "data") = Ok (images, labels)
    /\ (LabelEncoder.fit_transform labels).2 = [0; 0; 1; 1; 1; 1; 1]
    /\ train = [0; 2; 3; 4; 5]%nat
    /\ test = [1; 6]%nat
    /\ y_train d = [0; 1; 1; 1; 1]
    /\ (fraction_gap 0 (y_train d) (LabelEncoder.fit_transform labels).2 == 3 # 35)%Q
    /\ ~ (fraction_gap 0 (y_train d) (LabelEncoder.fit_transform labels).2
          < five_percent)%Q.
Proof.
  eexists _, _, _, _, _.
  split; [vm_compute; reflexivity |].
  split; [vm_compute; reflexivity |].
  split; [reflexivity |]. split; [reflexivity |]. split; [reflexivity |].
  split; [reflexivity |]. split; [reflexivity |].
  by apply five_of_seven_gap.
Qed.

End split_claims.

(** ** Further properties of the metrics *)

Module metrics_facts.
Import evaluation evaluation_claims.






Lemma true_positives_le_true (c : Z) (y_true y_pred : list Z) :
  (true_positives c y_true y_pred <= count c y_true)%nat.
Proof.
  unfold count. revert y_pred.
  induction y_true as [|t y_true IH]; intros [|p y_pred]; simpl; try lia.
  specialize (IH y_pred).
  destruct (decide (t = c)) as [->|Hne].
  - rewrite (bool_decide_eq_true_2 (c = c)) by done. simpl.
    destruct (bool_decide _); lia.
  - rewrite (bool_decide_eq_false_2 (t = c /\ p = c)) by tauto.
    destruct (bool_decide (t = c)); simpl; lia.
Qed.







(** Sums over the scored labels. *)
Lemma sum_map_add {A : Type} (f g : A -> nat) (l : list A) :
  foldr Nat.add 0%nat (map (fun c => (f c + g c)%nat) l)
  = (foldr Nat.add 0%nat (map f l) + foldr Nat.add 0%nat (map g l))%nat.
Proof. induction l as [|c l IH]; simpl; [done | rewrite IH; lia]. Qed.

Lemma sum_map_zero {A : Type} (f : A -> nat) (l : list A) :
  (forall c, c ∈ l -> f c = 0%nat) -> foldr Nat.add 0%nat (map f l) = 0%nat.
Proof.
  induction l as [|c l IH]; intros Hz; simpl; [done |].
  rewrite (Hz c) by (by left). rewrite IH; [done |]. intros; apply Hz; by right.
Qed.

Lemma sum_indicator (P : Z -> bool) (labels : list Z) (t : Z) :
  NoDup labels -> t ∈ labels ->
  foldr Nat.add 0%nat (map (fun c => if bool_decide (t = c) && P c then 1 else 0)%nat labels)
  = (if P t then 1 else 0)%nat.
Proof.
  induction 1 as [|c labels Hc Hnd IH]; [by intros ?%elem_of_nil |].
  intros Ht. simpl. destruct (decide (t = c)) as [->|Hne].
  - rewrite bool_decide_eq_true_2 by done. simpl.
    rewrite sum_map_zero; [lia |].
    intros c' Hc'. rewrite bool_decide_eq_false_2; [done |]. by intros <-.
  - rewrite bool_decide_eq_false_2 by done. simpl. apply IH.
    by apply elem_of_cons in Ht as [?|?].
Qed.

Lemma sum_true_positives (labels y_true y_pred : list Z) :
  NoDup labels -> (forall t, t ∈ y_true -> t ∈ labels) ->
  foldr Nat.add 0%nat (map (fun c => true_positives c y_true y_pred) labels)
  = matches y_true y_pred.
Proof.
  intros Hnd. revert y_pred.
  induction y_true as [|t y_true IH]; intros y_pred Hin.
  - simpl. by apply sum_map_zero.
  - destruct y_pred as [|p y_pred]; [by apply sum_map_zero |].
    cbn [true_positives matches]. rewrite sum_map_add, IH.
    + f_equal.
      assert (bool_decide (t = p) = bool_decide (p = t)) as ->
        by (apply bool_decide_ext; naive_solver).
      etrans; [| exact (sum_indicator (fun c => bool_decide (p = c)) labels t Hnd
                         (Hin t ltac:(by left)))].
      f_equal. apply map_ext. intros c.
      destruct (decide (t = c)) as [->|Hne]; destruct (decide (p = c)) as [->|Hne'];
        rewrite ?(bool_decide_eq_true_2 (c = c)) by done;
        rewrite ?(bool_decide_eq_false_2 (t = c)) by done;
        rewrite ?(bool_decide_eq_false_2 (p = c)) by done;
        simpl; try done.
      * by rewrite bool_decide_eq_true_2.
      * rewrite bool_decide_eq_false_2; [done | tauto].
      * rewrite bool_decide_eq_false_2; [done | tauto].
      * rewrite bool_decide_eq_false_2; [done | tauto].
    + intros; apply Hin; by right.
Qed.

Lemma sum_count (labels y : list Z) :
  NoDup labels -> (forall t, t ∈ y -> t ∈ labels) ->
  foldr Nat.add 0%nat (map (fun c => count c y) labels) = length y.
Proof.
  intros Hnd Hin. rewrite <- (matches_refl y), <- (sum_true_positives labels y y Hnd Hin).
  f_equal. apply map_ext. intros c. by rewrite true_positives_refl.
Qed.

Lemma unique_labels_NoDup (y_true y_pred : list Z) : NoDup (unique_labels y_true y_pred).
Proof.
  unfold unique_labels. eapply ascending_NoDup; [| apply unique_ascending].
  - intros a b. apply Z.compare_eq_iff.
  - intros a b. apply Z.compare_eq_iff.
  - apply Z_compare_antisym.
  - apply Z_compare_trans.
Qed.

Lemma total_support (y_true y_pred : list Z) :
  foldr Nat.add 0%nat (map (fun c => count c y_true) (unique_labels y_true y_pred))
  = length y_true.
Proof.
  apply sum_count; [apply unique_labels_NoDup |].
  intros t Ht. apply elem_of_unique_labels. by left.
Qed.


Lemma recall_term (c : Z) (y_true y_pred : list Z) :
  (weighted_term recall_of y_true y_pred c == Qnat (true_positives c y_true y_pred))%Q.
Proof.
  unfold weighted_term, recall_of, prf_divide.
  pose proof (true_positives_le_true c y_true y_pred) as Hle.
  destruct (Nat.eqb_spec (count c y_true) 0) as [Hz|Hnz].
  - rewrite Hz in *. assert (true_positives c y_true y_pred = 0)%nat as -> by lia.
    reflexivity.
  - field. apply Qnat_pos. lia.
Qed.

End metrics_facts.

Module metrics_claims.
Import evaluation evaluation_claims metrics_facts.

Lemma Qsum_map_ext {A : Type} (f g : A -> Q) (l : list A) :
  (forall c, (f c == g c)%Q) -> (Qsum (map f l) == Qsum (map g l))%Q.
Proof.
  intros Hfg. induction l as [|c l IH]; simpl; [reflexivity |].
  by rewrite IH, (Hfg c).
Qed.

(** The term the code adds for a class is the term of the statement. *)
Lemma weighted_precision_term (y_true y_pred : list Z) (c : Z) :
  (weighted_term precision_of y_true y_pred c == spec.precision_term y_true y_pred c)%Q.
Proof.
  unfold weighted_term, precision_of, prf_divide, spec.precision_term.
  destruct (decide (c ∈ y_pred)) as [Hc|Hc].
  - rewrite bool_decide_eq_true_2 by done.
    pose proof (count_pos _ _ Hc) as Hpos.
    destruct (Nat.eqb_spec (count c y_pred) 0); [lia | reflexivity].
  - rewrite bool_decide_eq_false_2 by done.
    destruct (Nat.eqb_spec (count c y_pred) 0) as [_|Hnz]; [ring |].
    exfalso. apply Hc, CounterFacts.occurrences_pos.
    change (spec.occurrences c y_pred) with (count c y_pred). lia.
Qed.

(** C5.  For a non-empty label sequence [y], whatever classes it holds,
    [compute_metrics(y, y)] returns accuracy, precision, recall and F1 all
    equal to 1.  And for any two sequences on which [compute_metrics]
    returns, the precision it reports is the sum over the scored classes
    of their precision terms, divided by the number of samples, in which
    a class that is never predicted counts zero (not an undefined
    value). *)
Theorem compute_metrics_perfect (y : list Z) :
  y <> [] ->
  (exists m,
     compute_metrics y y = Ok m
     /\ (accuracy m == 1)%Q /\ (precision m == 1)%Q
     /\ (recall m == 1)%Q /\ (f1 m == 1)%Q)
  /\ (forall y_true y_pred m,
        compute_metrics y_true y_pred = Ok m ->
        (precision m
         == Qsum (map (spec.precision_term y_true y_pred) (unique_labels y_true y_pred))
            / Qnat (length y_true))%Q).
Proof.
  intros Hne. split.
  - unfold compute_metrics. rewrite Nat.eqb_refl. simpl.
    destruct (Nat.eqb_spec (length y) 0) as [Hz|Hnz].
    { destruct y; [done | discriminate]. }
    eexists. split; [reflexivity |]. simpl.
    split; [| split; [| split]].
    + unfold accuracy_score. rewrite matches_refl.
      apply Qmult_inv_r, Qnat_pos. lia.
    + apply weighted_average_perfect; [done |].
      intros c Hc. unfold precision_of. rewrite true_positives_refl.
      by apply prf_divide_same, count_pos.
    + apply weighted_average_perfect; [done |].
      intros c Hc. unfold recall_of. rewrite true_positives_refl.
      by apply prf_divide_same, count_pos.
    + apply weighted_average_perfect; [done |].
      intros c Hc. unfold f1_of. rewrite true_positives_refl.
      replace (2 * count c y)%nat with (count c y + count c y)%nat by lia.
      apply prf_divide_same. pose proof (count_pos _ _ Hc). lia.
  - intros y_true y_pred m. unfold compute_metrics.
    destruct (negb _); [discriminate |].
    destruct (Nat.eqb_spec (length y_true) 0) as [|Hnz]; [discriminate |].
    intros [= <-]. cbn [precision]. unfold weighted_average.
    rewrite total_support.
    destruct (Nat.eqb_spec (length y_true) 0) as [|_]; [done |].
    unfold Qdiv. apply Qmult_comp; [| reflexivity].
    apply Qsum_map_ext, weighted_precision_term.
Qed.

(** All right on four samples of three classes; and on true labels
    [0; 1] predicted as [0; 0], where class 1 is never predicted, a
    precision of 1/4: half of the two predictions of class 0 are right,
    class 0 has one of the two samples, and class 1 adds nothing. *)
Lemma compute_metrics_perfect_witness :
  (exists m,
     compute_metrics [0; 1; 1; 2] [0; 1; 1; 2] = Ok m
     /\ (accuracy m == 1)%Q /\ (precision m == 1)%Q
     /\ (recall m == 1)%Q /\ (f1 m == 1)%Q)
  /\ (exists m,
        compute_metrics [0; 1] [0; 0] = Ok m
        /\ spec.precision_term [0; 1] [0; 0] 1 = 0%Q
        /\ (precision m == 1 # 4)%Q).
Proof.
  destruct (compute_metrics_perfect [0; 1; 1; 2] ltac:(discriminate)) as [Hsame Hany].
  split; [exact Hsame |].
  eexists. split; [reflexivity |]. split; [reflexivity |].
  eapply Qeq_trans; [apply (Hany [0; 1] [0; 0]); reflexivity | reflexivity].
Defined.

(** A class that is never predicted: its precision is 0 and the weighted
    precision stays a number. *)
Example precision_never_predicted :
  precision_of 1 [0; 1] [0; 0] = 0%Q
  /\ exists m, compute_metrics [0; 1] [0; 0] = Ok m /\ (precision m == 1 # 4)%Q.
Proof. split; [reflexivity |]. eexists. split; [reflexivity |]. reflexivity. Qed.

End metrics_claims.

Module report_facts.
Import evaluation evaluation_claims metrics_facts.


Lemma compute_metrics_raises (y_true y_pred : list Z) (e : exn) :
  compute_metrics y_true y_pred = Raise e -> e = ValueError.
Proof.
  unfold compute_metrics.
  destruct (negb _); [by intros [= <-] |].
  destruct (_ =? _)%nat; [by intros [= <-] | discriminate].
Qed.

(** The class ids [0 .. K-1]. *)
Lemma elem_of_class_ids (K : nat) (k : Z) :
  k ∈ (Z.of_nat <$> seq 0 K) <-> 0 <= k < Z.of_nat K.
Proof.
  rewrite list_elem_of_fmap. split.
  - intros (i & -> & Hi%elem_of_seq). lia.
  - intros Hk. exists (Z.to_nat k). split; [lia |]. apply elem_of_seq. lia.
Qed.

Lemma NoDup_class_ids (K : nat) : NoDup ((Z.of_nat <$> seq 0 K)).
Proof.
  apply NoDup_fmap_2; [| apply NoDup_seq].
  intros a b. apply Nat2Z.inj.
Qed.

(** Distinct labels that are all class ids are at most [K], and exactly
    [K] only if every class id is among them. *)
Lemma labels_count (K : nat) (labels : list Z) :
  NoDup labels ->
  (forall v, v ∈ labels -> 0 <= v < Z.of_nat K) ->
  (length labels <= K)%nat
  /\ (length labels = K <-> forall k, 0 <= k < Z.of_nat K -> k ∈ labels).
Proof.
  intros Hnd Hin.
  assert (labels ⊆+ (Z.of_nat <$> seq 0 K)) as Hsub.
  { apply NoDup_submseteq; [done |]. intros v Hv. by apply elem_of_class_ids, Hin. }
  pose proof (submseteq_length _ _ Hsub) as Hle.
  rewrite length_fmap, length_seq in Hle. split; [done |]. split.
  - intros Hlen k Hk.
    assert (labels ≡ₚ (Z.of_nat <$> seq 0 K)) as ->.
    { apply submseteq_length_Permutation; [done |].
      rewrite length_fmap, length_seq. lia. }
    by apply elem_of_class_ids.
  - intros Hall.
    assert ((Z.of_nat <$> seq 0 K) ⊆+ labels) as Hsup.
    { apply NoDup_submseteq; [apply NoDup_class_ids |].
      intros k Hk. by apply Hall, elem_of_class_ids. }
    apply submseteq_length in Hsup. rewrite length_fmap, length_seq in Hsup. lia.
Qed.

(** A label that is no class id, next to all class ids, makes one label
    too many. *)
Lemma labels_count_extra (K : nat) (labels : list Z) (p : Z) :
  NoDup labels ->
  (forall k, 0 <= k < Z.of_nat K -> k ∈ labels) ->
  p ∈ labels -> ~ (0 <= p < Z.of_nat K) ->
  (K < length labels)%nat.
Proof.
  intros Hnd Hall Hp Hout.
  assert (p :: (Z.of_nat <$> seq 0 K) ⊆+ labels) as Hsup.
  { apply NoDup_submseteq.
    - constructor; [| apply NoDup_class_ids]. by rewrite elem_of_class_ids.
    - intros k [->|Hk]%elem_of_cons; [done |]. by apply Hall, elem_of_class_ids. }
  apply submseteq_length in Hsup. simpl in Hsup.
  rewrite length_fmap, length_seq in Hsup. lia.
Qed.

End report_facts.

Module evaluation_properties.
Import evaluation evaluation_claims metrics_facts report_facts.










End evaluation_properties.

Module report_properties.
Import evaluation evaluation_claims metrics_facts report_facts ml_models.

Lemma print_report_raises (name : string) (y_true y_pred : list Z)
    (class_names : list str) (e : exn) :
  print_report name y_true y_pred class_names = Raise e -> e = ValueError.
Proof.
  unfold print_report.
  destruct (compute_metrics y_true y_pred) as [m|e'] eqn:Hm; simpl.
  - unfold classification_report.
    destruct (negb _); simpl; [by intros [= <-] |].
    destruct (negb _); simpl; [by intros [= <-] | discriminate].
  - intros [= <-]. by eapply compute_metrics_raises.
Qed.

(** A predicted label that is no class id, when every class id occurs
    among the true labels, is one label too many for the report. *)
Lemma print_report_label_outside (name : string) (y_true y_pred : list Z)
    (class_names : list str) (p : Z) :
  (forall k, 0 <= k < Z.of_nat (length class_names) -> k ∈ y_true) ->
  p ∈ y_pred -> ~ (0 <= p < Z.of_nat (length class_names)) ->
  print_report name y_true y_pred class_names = Raise ValueError.
Proof.
  intros Hall Hp Hout.
  destruct (print_report name y_true y_pred class_names) as [m|e] eqn:Hr;
    [| f_equal; by eapply print_report_raises].
  exfalso. unfold print_report in Hr.
  apply bind_Ok in Hr as (m' & _ & Hr). apply bind_Ok in Hr as ([] & Hc & _).
  unfold classification_report in Hc.
  destruct (negb (length y_true =? length y_pred)%nat); [discriminate |].
  destruct (Nat.eqb_spec (length (unique_labels y_true y_pred)) (length class_names))
    as [Heq|]; [| discriminate].
  pose proof (labels_count_extra (length class_names) (unique_labels y_true y_pred) p
                (unique_labels_NoDup _ _)) as Hlt.
  rewrite Heq in Hlt. apply (Nat.lt_irrefl (length class_names)), Hlt.
  - intros k Hk. apply elem_of_unique_labels. left. by apply Hall.
  - apply elem_of_unique_labels. by right.
  - done.
Qed.



Section KMeansReport.
Context {Features KMeans : Type}.
Variable KMeans_predict : KMeans -> list Features -> result (list Z).

(** X6.  If K-Means puts a test row into a cluster that has no entry in
    the cluster-to-label mapping, [predict_kmeans] answers -1 for it; when
    every class occurs among the test labels, [print_report] on these
    predictions raises ValueError instead of returning metrics. *)
Theorem print_report_kmeans_unknown_cluster (name : string)
    (model : KMeans) (mapping : gmap Z Z) (X_test : list Features)
    (y_test : list Z) (class_names : list str) (clusters : list Z) (c : Z) :
  KMeans_predict model X_test = Ok clusters ->
  c ∈ clusters -> mapping !! c = None ->
  (forall k, 0 <= k < Z.of_nat (length class_names) -> k ∈ y_test) ->
  exists y_pred,
    predict_kmeans KMeans_predict model mapping X_test = Ok y_pred
    /\ UNKNOWN ∈ y_pred
    /\ print_report name y_test y_pred class_names = Raise ValueError.
Proof.
  intros Hpred Hc Hnone Hall.
  exists (map (fun c => default UNKNOWN (mapping !! c)) clusters).
  split; [unfold predict_kmeans; by rewrite Hpred |].
  assert (UNKNOWN ∈ map (fun c => default UNKNOWN (mapping !! c)) clusters) as Hin.
  { apply list_elem_of_fmap. exists c. split; [by rewrite Hnone | done]. }
  split; [done |].
  apply (print_report_label_outside name y_test _ class_names UNKNOWN); [done | done |].
  unfold UNKNOWN. lia.
Qed.

End KMeansReport.

Lemma print_report_kmeans_unknown_cluster_witness :
  exists y_pred,
    predict_kmeans toy.KMeans_predict [0; 10] {[ 0 := 1 ]} [1; 9] = Ok y_pred
    /\ UNKNOWN ∈ y_pred
    /\ print_report "K-Means" [0; 1] y_pred [lit "Avion"; lit "Caja"] = Raise ValueError.
Proof.
  apply (print_report_kmeans_unknown_cluster toy.KMeans_predict "K-Means"
           [0; 10] {[ 0 := 1 ]} [1; 9] [0; 1] [lit "Avion"; lit "Caja"] [0; 1] 1).
  - reflexivity.
  - by right; left.
  - reflexivity.
  - intros k Hk. simpl in Hk.
    assert (k = 0 \/ k = 1) as [-> | ->] by lia; [by left | by right; left].
Defined.

End report_properties.

(** ** Further properties of the loader *)

Module loader_facts.
Import data_loader loader_spec StrFacts.

Lemma str_le_refl (a : str) : str_le a a.
Proof. unfold str_le. by rewrite (proj2 (str_compare_eq a a) eq_refl). Qed.

Lemma str_le_total (a b : str) : str_le a b \/ str_le b a.
Proof.
  unfold str_le. rewrite (str_compare_antisym a b).
  destruct (str_compare a b); simpl; [by left | by left | by right].
Qed.

Lemma str_le_antisym (a b : str) : str_le a b -> str_le b a -> a = b.
Proof.
  unfold str_le. rewrite (str_compare_antisym a b).
  destruct (str_compare a b) eqn:Hc; simpl; [| done | done].
  intros _ _. by apply str_compare_eq.
Qed.

Lemma str_le_trans (a b c : str) : str_le a b -> str_le b c -> str_le a c.
Proof.
  unfold str_le. intros Hab Hbc.
  destruct (str_compare a b) eqn:H1; [| | done].
  - by apply str_compare_eq in H1 as ->.
  - destruct (str_compare b c) eqn:H2; [| | done].
    + apply str_compare_eq in H2 as <-. by rewrite H1.
    + by rewrite (str_compare_trans a b c H1 H2).
Qed.

Lemma insert_sorted_Permutation (x : str) (l : list str) :
  insert_sorted x l ≡ₚ x :: l.
Proof.
  induction l as [|y l IH]; simpl; [done |].
  destruct (str_compare x y); [done | done |].
  rewrite IH. apply Permutation_swap.
Qed.

Lemma sorted_Permutation (l : list str) : sorted l ≡ₚ l.
Proof.
  unfold sorted. induction l as [|x l IH]; simpl; [done |].
  by rewrite insert_sorted_Permutation, IH.
Qed.

Lemma insert_sorted_StronglySorted (x : str) (l : list str) :
  StronglySorted str_le l -> StronglySorted str_le (insert_sorted x l).
Proof.
  induction 1 as [|y l Hl IH Hy]; simpl; [repeat constructor |].
  destruct (str_compare x y) eqn:Hc.
  - constructor; [by constructor |]. constructor.
    + unfold str_le. by rewrite Hc.
    + eapply Forall_impl; [exact Hy |]. intros z. apply str_le_trans.
      unfold str_le. by rewrite Hc.
  - constructor; [by constructor |]. constructor.
    + unfold str_le. by rewrite Hc.
    + eapply Forall_impl; [exact Hy |]. intros z. apply str_le_trans.
      unfold str_le. by rewrite Hc.
  - constructor; [done |].
    apply Forall_forall. intros z Hz%elem_of_insert_sorted.
    destruct Hz as [->|Hz].
    + unfold str_le. rewrite (str_compare_antisym x y), Hc. done.
    + by apply (proj1 (Forall_forall _ _) Hy).
Qed.

Lemma sorted_StronglySorted (l : list str) : StronglySorted str_le (sorted l).
Proof.
  unfold sorted. induction l as [|x l IH]; simpl; [constructor |].
  by apply insert_sorted_StronglySorted.
Qed.

(** Two ascending lists with the same entries are the same list. *)
Lemma StronglySorted_str_le_unique (l k : list str) :
  StronglySorted str_le l -> StronglySorted str_le k -> l ≡ₚ k -> l = k.
Proof.
  intros Hl. revert k.
  induction Hl as [|x l Hl IH Hx]; intros k Hk Hperm.
  - by apply Permutation_nil_l in Hperm.
  - destruct Hk as [|y k Hk Hy].
    + by apply Permutation_nil_r in Hperm.
    + assert (x = y) as ->.
      { assert (x ∈ y :: k) as Hxin by (rewrite <- Hperm; by left).
        assert (y ∈ x :: l) as Hyin by (rewrite Hperm; by left).
        apply elem_of_cons in Hxin as [?|Hxin]; [done |].
        apply elem_of_cons in Hyin as [?|Hyin]; [done |].
        apply str_le_antisym.
        - by apply (proj1 (Forall_forall _ _) Hx).
        - by apply (proj1 (Forall_forall _ _) Hy). }
      f_equal. apply IH; [done |]. by apply Permutation_cons_inv in Hperm.
Qed.

Lemma sorted_Permutation_eq (l k : list str) : l ≡ₚ k -> sorted l = sorted k.
Proof.
  intros Hperm. apply StronglySorted_str_le_unique.
  - apply sorted_StronglySorted.
  - apply sorted_StronglySorted.
  - by rewrite !sorted_Permutation.
Qed.

Lemma filter_StronglySorted (keep : str -> bool) (l : list str) :
  StronglySorted str_le l -> StronglySorted str_le (List.filter keep l).
Proof.
  induction 1 as [|x l Hl IH Hx]; simpl; [constructor |].
  destruct (keep x); [| done]. constructor; [done |].
  apply Forall_forall. intros z Hz.
  rewrite list_elem_of_In, List.filter_In, <- list_elem_of_In in Hz.
  by apply (proj1 (Forall_forall _ _) Hx), Hz.
Qed.

Section Loader.
Variable isdigit : N -> bool.
Variable lower : str -> str.
Context {Image : Type}.
Variable isdir : str -> bool.
Variable listdir : str -> list str.
Variable open_image : str -> str -> result Image.

(** The loop appends, for the usable files in order, their images and
    their labels. *)
Lemma load_loop_spec (folder : str) (filenames : list str)
    (images : list Image) (labels : list str) :
  let files := List.filter (usable lower open_image folder) filenames in
  exists images',
    load_loop isdigit lower open_image folder filenames images labels
      = (images ++ images', labels ++ map (label_of_fname isdigit) files)
    /\ Forall2 (fun f img => open_image folder f = Ok img) files images'.
Proof.
  revert images labels.
  induction filenames as [|fname rest IH]; intros images labels; simpl.
  - exists []. rewrite !app_nil_r. split; [done | constructor].
  - assert (usable lower open_image folder fname
            = endswith (lower fname) dot_png && returns (open_image folder fname))
      as Hu by done.
    destruct (endswith (lower fname) dot_png); simpl in Hu |- *.
    + destruct (open_image folder fname) as [img|e] eqn:Hopen;
        simpl in Hu; rewrite Hu.
      * destruct (IH (images ++ [img]) (labels ++ [label_of_fname isdigit fname]))
          as (images' & Heq & Hall).
        exists (img :: images'). rewrite Heq, <- !app_assoc. simpl.
        split; [done | by constructor].
      * apply IH.
    + rewrite Hu. apply IH.
Qed.

End Loader.

End loader_facts.

Module loader_label_claims.
Import data_loader spec loader_spec StrFacts data_loader_claims loader_facts.

Section Loader.
Variable isdigit : N -> bool.
Variable lower : str -> str.
Context {Image : Type}.
Variable isdir : str -> bool.
Variable listdir : str -> list str.
Variable open_image : str -> str -> result Image.

(** C10.  The loader returns one image and one label for each image file
    it loads, in loading order, and the label at the position of a file
    is derived from the name of that very file: it is the part of the
    name before the first underscore with every character that [isdigit]
    accepts removed, wherever it stands; so no returned label contains a
    digit. *)
Theorem loader_labels_have_no_digit (folder : str) (images : list Image) (labels : list str) :
  load_images_from_folder isdigit lower isdir listdir open_image folder
    = Ok (images, labels) ->
  exists files,
    files = List.filter (usable lower open_image folder) (sorted (listdir folder))
    /\ length images = length labels
    /\ Forall2 (fun fname img => open_image folder fname = Ok img) files images
    /\ Forall2 (fun fname label =>
                  fname ∈ listdir folder
                  /\ (exists p, prefix_before underscore fname p
                                /\ without_digits isdigit p label)
                  /\ (forall c, c ∈ label -> isdigit c = false))
               files labels.
Proof.
  unfold load_images_from_folder.
  destruct (negb (isdir folder)); [discriminate |].
  destruct (load_loop_spec isdigit lower open_image folder (sorted (listdir folder)) [] [])
    as (images' & -> & Hall).
  simpl. destruct images' as [|img images']; [discriminate |].
  intros [= <- <-]. eexists. split; [reflexivity |].
  split; [| split; [done |]].
  - apply Forall2_length in Hall. by rewrite length_map, <- Hall.
  - change (map ?f ?l) with (f <$> l).
    apply Forall2_fmap_r, Forall_Forall2_diag, Forall_forall. intros fname Hf.
    rewrite list_elem_of_In, List.filter_In, <- list_elem_of_In in Hf.
    destruct Hf as [Hf _]. unfold compose.
    split; [by apply elem_of_sorted |]. split.
    + exists (split_first underscore fname).
      split; [apply split_first_prefix_before | done].
    + intros c. apply label_of_fname_no_digit.
Qed.

End Loader.

Lemma loader_labels_have_no_digit_witness :
  exists files,
    files = List.filter (usable toy.lower toy.open_image (lit "data"))
              (sorted (toy.listdir (lit "data")))
    /\ length [tt; tt] = length [lit "Avion"; lit "Caja"]
    /\ Forall2 (fun fname img => toy.open_image (lit "data") fname = Ok img)
         files [tt; tt]
    /\ Forall2 (fun fname label =>
                  fname ∈ toy.listdir (lit "data")
                  /\ (exists p, prefix_before underscore fname p
                                /\ without_digits toy.isdigit p label)
                  /\ (forall c, c ∈ label -> toy.isdigit c = false))
               files [lit "Avion"; lit "Caja"].
Proof.
  apply (loader_labels_have_no_digit toy.isdigit toy.lower toy.isdir toy.listdir
           toy.open_image (lit "data") [tt; tt] [lit "Avion"; lit "Caja"]).
  reflexivity.
Defined.

End loader_label_claims.

Module loader_properties.
Import data_loader loader_spec StrFacts loader_facts.

Section Loader.
Variable isdigit : N -> bool.
Variable lower : str -> str.
Context {Image : Type}.
Variable isdir : str -> bool.
Variable listdir : str -> list str.
Variable open_image : str -> str -> result Image.

(** X7.  What [load_images_from_folder] returns follows the file names
    in ascending order: the files kept are those of the listing whose
    lower-cased name ends in [.png] and whose image can be read, taken in
    sorted order; the images are theirs and the labels are computed from
    their names, one for one. *)
Theorem load_images_from_folder_sorted_usable (folder : str)
    (images : list Image) (labels : list str) :
  load_images_from_folder isdigit lower isdir listdir open_image folder
    = Ok (images, labels) ->
  let files := List.filter (usable lower open_image folder) (sorted (listdir folder)) in
  files <> []
  /\ StronglySorted str_le files
  /\ (forall f, f ∈ files <-> f ∈ listdir folder /\ usable lower open_image folder f = true)
  /\ Forall2 (fun f img => open_image folder f = Ok img) files images
  /\ labels = map (label_of_fname isdigit) files.
Proof.
  unfold load_images_from_folder.
  destruct (negb (isdir folder)); [discriminate |].
  destruct (load_loop_spec isdigit lower open_image folder (sorted (listdir folder)) [] [])
    as (images' & -> & Hall).
  simpl. destruct images' as [|img images']; [discriminate |].
  intros [= <- <-]. split; [| split; [| split]].
  - intros Hnil. rewrite Hnil in Hall. by apply Forall2_nil_cons_inv in Hall.
  - apply filter_StronglySorted, sorted_StronglySorted.
  - intros f. rewrite list_elem_of_In, List.filter_In, <- list_elem_of_In.
    by rewrite elem_of_sorted.
  - done.
Qed.

(** X8.  For a folder whose PNG files can all be read (so that the
    [except] clause is never entered), [load_images_from_folder] fails in
    two ways only: with FileNotFoundError exactly when the folder is no
    directory, and with RuntimeError exactly when it is one but no file
    name ends in [.png], whatever the case of the letters; otherwise it
    returns one image and one label for each such name. *)
Theorem load_images_from_folder_errors (folder : str) :
  (forall f, f ∈ listdir folder -> endswith (lower f) dot_png = true ->
     returns (open_image folder f) = true) ->
  match load_images_from_folder isdigit lower isdir listdir open_image folder with
  | Ok (images, labels) =>
      isdir folder = true
      /\ (exists f, f ∈ listdir folder /\ endswith (lower f) dot_png = true)
      /\ length images
         = length (List.filter (fun f => endswith (lower f) dot_png)
                     (sorted (listdir folder)))
      /\ length labels = length images
  | Raise e =>
      (e = FileNotFoundError /\ isdir folder = false)
      \/ (e = RuntimeError /\ isdir folder = true
          /\ forall f, f ∈ listdir folder -> endswith (lower f) dot_png = false)
  end.
Proof.
  intros Hread. unfold load_images_from_folder.
  destruct (isdir folder); simpl; [| by left].
  destruct (load_loop_spec isdigit lower open_image folder (sorted (listdir folder)) [] [])
    as (images' & -> & Hall).
  assert (List.filter (usable lower open_image folder) (sorted (listdir folder))
          = List.filter (fun f => endswith (lower f) dot_png) (sorted (listdir folder)))
    as Hpng.
  { apply List.filter_ext_in. intros f Hf.
    rewrite <- list_elem_of_In, elem_of_sorted in Hf.
    unfold usable. specialize (Hread f Hf).
    destruct (endswith (lower f) dot_png); [by rewrite Hread | done]. }
  simpl. destruct images' as [|img images'].
  - right. split; [done |]. split; [done |].
    apply Forall2_nil_inv_r in Hall. rewrite Hpng in Hall.
    intros f Hf%elem_of_sorted.
    destruct (endswith (lower f) dot_png) eqn:Hu; [| done].
    assert (f ∈ List.filter (fun f => endswith (lower f) dot_png) (sorted (listdir folder)))
      as Hin by (by rewrite list_elem_of_In, List.filter_In, <- list_elem_of_In).
    rewrite Hall in Hin. by apply elem_of_nil in Hin.
  - split; [done |].
    pose proof (Forall2_length _ _ _ Hall) as Hlen. rewrite Hpng in Hall, Hlen.
    split; [| split].
    + apply Forall2_cons_inv_r in Hall as (f & files & _ & _ & Hfiles).
      assert (f ∈ List.filter (fun f => endswith (lower f) dot_png)
                    (sorted (listdir folder)))
        as Hin by (rewrite Hfiles; by left).
      rewrite list_elem_of_In, List.filter_In, <- list_elem_of_In in Hin.
      exists f. by rewrite <- elem_of_sorted.
    + done.
    + by rewrite length_map, Hpng.
Qed.

End Loader.

(** X9.  The result of the loader does not depend on the order in which
    [os.listdir] hands out the names: two listings with the same names
    give the same images and labels, or the same error. *)
Theorem load_images_from_folder_listing_order {Image : Type}
    (isdigit : N -> bool) (lower : str -> str) (isdir : str -> bool)
    (listdir1 listdir2 : str -> list str)
    (open_image : str -> str -> result Image) (folder : str) :
  listdir1 folder ≡ₚ listdir2 folder ->
  load_images_from_folder isdigit lower isdir listdir1 open_image folder
  = load_images_from_folder isdigit lower isdir listdir2 open_image folder.
Proof.
  intros Hperm. unfold load_images_from_folder.
  by rewrite (sorted_Permutation_eq _ _ Hperm).
Qed.

Lemma load_images_from_folder_sorted_usable_witness :
  let files := List.filter (usable toy.lower toy.open_image (lit "data"))
                 (sorted (toy.listdir (lit "data"))) in
  files <> []
  /\ StronglySorted str_le files
  /\ (forall f, f ∈ files <->
        f ∈ toy.listdir (lit "data")
        /\ usable toy.lower toy.open_image (lit "data") f = true)
  /\ Forall2 (fun f img => toy.open_image (lit "data") f = Ok img) files [tt; tt]
  /\ [lit "Avion"; lit "Caja"] = map (label_of_fname toy.isdigit) files.
Proof.
  apply (load_images_from_folder_sorted_usable toy.isdigit toy.lower toy.isdir
           toy.listdir toy.open_image (lit "data") [tt; tt] [lit "Avion"; lit "Caja"]).
  reflexivity.
Defined.

Lemma load_images_from_folder_errors_witness :
  toy.isdir (lit "data") = true
  /\ (exists f, f ∈ toy.listdir (lit "data")
               /\ endswith (toy.lower f) dot_png = true)
  /\ length [tt; tt]
     = length (List.filter (fun f => endswith (toy.lower f) dot_png)
                 (sorted (toy.listdir (lit "data"))))
  /\ length [lit "Avion"; lit "Caja"] = length [tt; tt].
Proof.
  apply (load_images_from_folder_errors toy.isdigit toy.lower toy.isdir toy.listdir
           toy.open_image (lit "data")).
  intros f _ _. reflexivity.
Defined.

Lemma load_images_from_folder_listing_order_witness :
  load_images_from_folder toy.isdigit toy.lower toy.isdir toy.listdir
    toy.open_image (lit "data")
  = load_images_from_folder toy.isdigit toy.lower toy.isdir
      (fun folder => reverse (toy.listdir folder)) toy.open_image (lit "data").
Proof.
  apply (load_images_from_folder_listing_order toy.isdigit toy.lower toy.isdir
           toy.listdir (fun folder => reverse (toy.listdir folder))
           toy.open_image (lit "data")).
  symmetry. apply reverse_Permutation.
Defined.

(** X10.  The label taken from a file name never contains an underscore;
    and a name without any underscore is used whole, extension included:
    its label is the name with the digits removed. *)
Theorem label_of_fname_underscore (isdigit : N -> bool) (fname : str) :
  (underscore ∉ label_of_fname isdigit fname)
  /\ (underscore ∉ fname ->
      label_of_fname isdigit fname = List.filter (fun c => negb (isdigit c)) fname).
Proof.
  unfold label_of_fname. split.
  - intros Hin. rewrite list_elem_of_In, List.filter_In, <- list_elem_of_In in Hin.
    destruct Hin as [Hin _].
    by destruct (split_first_prefix_before underscore fname) as [Hnin _].
  - intros Hnin. f_equal.
    induction fname as [|c fname IH]; simpl; [done |].
    apply not_elem_of_cons in Hnin as [Hne Hnin].
    destruct (N.eqb_spec c underscore) as [->|_]; [done |].
    by rewrite IH.
Qed.

End loader_properties.

(** ** Further properties of [prepare_data] *)

Module prepare_facts.
Import model_selection data_loader split_counts spec SplitFacts label_codec_claims.

Lemma decode_lookup (classes_ : list str) (i : Z) (n : str) :
  0 <= i -> classes_ !! Z.to_nat i = Some n -> LabelEncoder.decode classes_ i = Ok n.
Proof.
  intros Hi Hn. pose proof (lookup_lt_Some _ _ _ Hn) as Hlt.
  unfold LabelEncoder.decode, LabelEncoder.inverse_transform. simpl.
  destruct (Z.leb_spec 0 i); [| lia].
  destruct (Z.ltb_spec i (Z.of_nat (length classes_))); [| lia].
  simpl. by rewrite Hn.
Qed.

(** The id given to a label is its position among the sorted names. *)
Lemma fit_transform_lookup (labels : list str) (i : nat) (l : str) :
  labels !! i = Some l ->
  exists v,
    (LabelEncoder.fit_transform labels).2 !! i = Some v
    /\ 0 <= v < Z.of_nat (length (LabelEncoder.fit labels))
    /\ LabelEncoder.fit labels !! Z.to_nat v = Some l.
Proof.
  intros Hl. unfold LabelEncoder.fit_transform. cbn [snd].
  change (map ?f labels) with (f <$> labels).
  rewrite list_lookup_fmap, Hl. simpl. eexists. split; [done |].
  assert (l ∈ labels) as Hin by (by eapply list_elem_of_lookup_2).
  pose proof (fit_searchsorted labels l Hin) as Hss.
  rewrite Nat2Z.id. split; [| done].
  apply lookup_lt_Some in Hss. lia.
Qed.

Lemma length_fit_transform (labels : list str) :
  length (LabelEncoder.fit_transform labels).2 = length labels.
Proof. unfold LabelEncoder.fit_transform. cbn [snd]. apply length_map. Qed.

Lemma fit_transform_class_ids (labels : list str) (v : Z) :
  v ∈ (LabelEncoder.fit_transform labels).2 <->
  0 <= v < Z.of_nat (length (LabelEncoder.fit labels)).
Proof.
  split.
  - intros (i & Hi)%list_elem_of_lookup_1.
    assert (is_Some (labels !! i)) as [l Hl].
    { apply lookup_lt_is_Some. rewrite <- length_fit_transform.
      by eapply lookup_lt_Some. }
    destruct (fit_transform_lookup labels i l Hl) as (v' & Hv' & Hb & _).
    congruence.
  - intros Hv.
    destruct (lookup_lt_is_Some_2 (LabelEncoder.fit labels) (Z.to_nat v)) as [l Hl];
      [lia |].
    assert (l ∈ labels) as Hin
      by (apply elem_of_fit; by eapply list_elem_of_lookup_2).
    apply list_elem_of_lookup_1 in Hin as [i Hi].
    destruct (fit_transform_lookup labels i l Hi) as (v' & Hv' & Hb & Hl').
    assert (Z.to_nat v' = Z.to_nat v) as Heq.
    { eapply NoDup_lookup; [| exact Hl' | exact Hl].
      eapply ascending_NoDup; [| apply fit_ascending].
      apply StrFacts.str_compare_eq. }
    assert (v' = v) as <- by lia. by eapply list_elem_of_lookup_2.
Qed.

(** [n_test] is the fifth of [n], rounded up. *)
Lemma validate_shuffle_split_sizes (n n_train n_test : nat) :
  _validate_shuffle_split n config.TEST_SIZE = Ok (n_train, n_test) ->
  (0 < n_train /\ n_train + n_test = n /\ n <= 5 * n_test < n + 5)%nat.
Proof.
  unfold _validate_shuffle_split.
  pose proof (Qceiling_lt (config.TEST_SIZE * inject_Z (Z.of_nat n))) as Hlt.
  pose proof (Qle_ceiling (config.TEST_SIZE * inject_Z (Z.of_nat n))) as Hle.
  set (c := Qceiling _) in *.
  destruct (Nat.eqb_spec (n - Z.to_nat c) 0); [discriminate |].
  intros [= <- <-].
  unfold Qlt, Qle, config.TEST_SIZE in Hlt, Hle. simpl in Hlt, Hle.
  lia.
Qed.

Lemma validate_shuffle_split_raises (n : nat) (q : Q) (e : exn) :
  _validate_shuffle_split n q = Raise e -> e = ValueError.
Proof.
  unfold _validate_shuffle_split. destruct (_ =? _)%nat; [by intros [= <-] | discriminate].
Qed.

Section Split.
Context {RandomState : Type}.
Variable permutation : nat -> RandomState -> list nat * RandomState.

Lemma stratified_shuffle_split_classes (y : list Z) (n_train n_test : nat)
    (rng : RandomState) (r : list nat * list nat) :
  stratified_shuffle_split permutation y n_train n_test rng = Ok r ->
  (length (np.unique Z.compare y) <= n_train)%nat
  /\ (length (np.unique Z.compare y) <= n_test)%nat.
Proof.
  unfold stratified_shuffle_split.
  destruct (forallb _ _); [| discriminate].
  destruct (Nat.ltb_spec n_train (length (np.unique Z.compare y))); [discriminate |].
  destruct (Nat.ltb_spec n_test (length (np.unique Z.compare y))); [discriminate |].
  done.
Qed.

(** A class with a single member is refused. *)
Lemma stratified_shuffle_split_single (y : list Z) (n_train n_test : nat)
    (rng : RandomState) (c : Z) :
  occurrences c y = 1%nat ->
  stratified_shuffle_split permutation y n_train n_test rng = Raise ValueError.
Proof.
  intros Hone.
  destruct (stratified_shuffle_split permutation y n_train n_test rng) as [r|e] eqn:Hr.
  - pose proof (stratified_shuffle_split_min_members permutation y _ _ _ _ Hr c) as Hmin.
    assert (c ∈ y) as Hc by (apply CounterFacts.occurrences_pos; lia).
    specialize (Hmin Hc). lia.
  - f_equal. revert Hr. unfold stratified_shuffle_split.
    destruct (forallb _ _); [| by intros [= <-]].
    destruct (_ <? _)%nat; [by intros [= <-] |].
    destruct (_ <? _)%nat; [by intros [= <-] |].
    destruct (_approximate_mode _ _ _ _) as [n_i rng1].
    destruct (_approximate_mode _ _ _ _) as [t_i rng2].
    destruct (split_classes _ _ _ _ _ _ _) as [[train test] rng3].
    destruct (permuted _ _ _) as [train' rng4].
    destruct (permuted _ _ _) as [test' rng5]. discriminate.
Qed.

End Split.

Lemma unique_Z_NoDup (y : list Z) : NoDup (np.unique Z.compare y).
Proof.
  eapply ascending_NoDup; [| apply unique_ascending].
  - intros a b. apply Z.compare_eq_iff.
  - intros a b. apply Z.compare_eq_iff.
  - apply Z_compare_antisym.
  - apply Z_compare_trans.
Qed.

(** There are as many distinct ids as distinct names. *)
Lemma length_unique_fit_transform (labels : list str) :
  length (np.unique Z.compare (LabelEncoder.fit_transform labels).2)
  = length (LabelEncoder.fit labels).
Proof.
  apply (report_facts.labels_count (length (LabelEncoder.fit labels))).
  - apply unique_Z_NoDup.
  - intros v Hv. apply fit_transform_class_ids.
    exact (proj1 (ml_models_facts.elem_of_unique_Z _ _) Hv).
  - intros k Hk. apply (proj2 (ml_models_facts.elem_of_unique_Z _ _)).
    exact (proj2 (fit_transform_class_ids _ _) Hk).
Qed.

Lemma hits_seq_from (pre y : list Z) (c : Z) :
  hits (pre ++ y) c (seq (length pre) (length y)) = occurrences c y.
Proof.
  revert pre. induction y as [|v y IH]; intros pre; [done |].
  cbn [length seq]. unfold hits, occurrences in *. cbn [List.filter].
  assert ((pre ++ v :: y) !! length pre = Some v) as Hv
    by (by rewrite lookup_app_r, Nat.sub_diag by lia).
  specialize (IH (pre ++ [v])).
  rewrite <- app_assoc, length_app, Nat.add_1_r in IH. simpl in IH.
  destruct (decide (v = c)) as [->|Hne].
  - rewrite filter_cons_True by done. rewrite bool_decide_eq_true_2 by done.
    simpl. by rewrite IH.
  - rewrite filter_cons_False by congruence. rewrite bool_decide_eq_false_2 by done.
    by rewrite IH.
Qed.

Lemma hits_seq (y : list Z) (c : Z) :
  hits y c (seq 0 (length y)) = occurrences c y.
Proof. apply (hits_seq_from [] y c). Qed.

(** Encoding keeps the number of occurrences of a label. *)
Lemma occurrences_map_inj (enc : str -> Z) (l : str) (sub : list str) :
  (forall a, a ∈ sub -> enc a = enc l -> a = l) ->
  occurrences (enc l) (map enc sub) = length (filter (fun x => x = l) sub).
Proof.
  unfold occurrences. induction sub as [|a sub IH]; intros Hinj; [done |].
  cbn [map List.filter].
  assert (forall a0, a0 ∈ sub -> enc a0 = enc l -> a0 = l) as Hinj'
    by (intros; apply Hinj; [by right | done]).
  destruct (decide (a = l)) as [->|Hne].
  - rewrite bool_decide_eq_true_2, filter_cons_True by done. simpl. by rewrite IH.
  - rewrite bool_decide_eq_false_2, filter_cons_False; [by apply IH | done |].
    intros Heq. apply Hne, Hinj; [by left | done].
Qed.

Lemma occurrences_fit_transform (labels : list str) (l : str) :
  l ∈ labels ->
  occurrences (Z.of_nat (np.searchsorted str_compare (LabelEncoder.fit labels) l))
    (LabelEncoder.fit_transform labels).2
  = length (filter (fun x => x = l) labels).
Proof.
  intros Hl. unfold LabelEncoder.fit_transform. cbn [snd].
  apply (occurrences_map_inj
           (fun v => Z.of_nat (np.searchsorted str_compare (LabelEncoder.fit labels) v))).
  intros a Ha Heq. apply Nat2Z.inj in Heq.
  pose proof (fit_searchsorted labels a Ha) as H1.
  pose proof (fit_searchsorted labels l Hl) as H2.
  rewrite Heq in H1. congruence.
Qed.

Section Prepare.
Variable isdigit : N -> bool.
Variable lower : str -> str.
Context {Image RandomState : Type}.
Variable isdir : str -> bool.
Variable listdir : str -> list str.
Variable open_image : str -> str -> result Image.
Variable div255 : Image -> Image.
Variable seed : Z -> RandomState.
Variable permutation : nat -> RandomState -> list nat * RandomState.

(** The steps behind a returned [prepare_data]. *)
Lemma prepare_data_run_inv (folder : str) (train test : list nat) (d : Data Image) :
  prepare_data_run isdigit lower isdir listdir open_image div255 seed permutation
    folder = Ok (train, test, d) ->
  exists images labels n_train n_test,
    load_images_from_folder isdigit lower isdir listdir open_image folder
      = Ok (images, labels)
    /\ label_encoder d = LabelEncoder.fit labels
    /\ class_names d = LabelEncoder.fit labels
    /\ length images = length labels
    /\ _validate_shuffle_split (length images) config.TEST_SIZE = Ok (n_train, n_test)
    /\ stratified_shuffle_split permutation (LabelEncoder.fit_transform labels).2
         n_train n_test (seed config.RANDOM_STATE) = Ok (train, test)
    /\ take_indices (map div255 images) train = Ok (X_train d)
    /\ take_indices (map div255 images) test = Ok (X_test d)
    /\ take_indices (LabelEncoder.fit_transform labels).2 train = Ok (y_train d)
    /\ take_indices (LabelEncoder.fit_transform labels).2 test = Ok (y_test d).
Proof.
  intros Hrun. unfold prepare_data_run in Hrun.
  apply bind_Ok in Hrun as ([images labels] & Hload & Hrun).
  exists images, labels. cbn [fst snd] in Hrun.
  pose proof (length_fit_transform labels) as Hly.
  assert ((LabelEncoder.fit_transform labels).1 = LabelEncoder.fit labels) as Hfit by done.
  destruct (LabelEncoder.fit_transform labels) as [le y]. cbn [fst snd] in *. subst le.
  apply bind_Ok in Hrun as (r & Hsplit & Hrun).
  destruct r as [[train' test'] [[[Xtr Xte] ytr] yte]].
  injection Hrun as -> -> <-. cbn [X_train X_test y_train y_test label_encoder class_names].
  unfold train_test_split_run in Hsplit.
  destruct (Nat.eqb_spec (length (map div255 images)) (length y)) as [Hlen|];
    [| discriminate].
  cbn [negb] in Hsplit. rewrite length_map in Hlen, Hsplit.
  apply bind_Ok in Hsplit as ([n_train n_test] & Hval & Hsplit).
  apply bind_Ok in Hsplit as ([tr te] & Hsss & Hsplit). cbn [fst snd] in Hsss, Hsplit.
  apply bind_Ok in Hsplit as (Xtr' & HXtr & Hsplit).
  apply bind_Ok in Hsplit as (Xte' & HXte & Hsplit).
  apply bind_Ok in Hsplit as (ytr' & Hytr & Hsplit).
  apply bind_Ok in Hsplit as (yte' & Hyte & Hsplit).
  injection Hsplit as -> -> -> -> -> ->.
  exists n_train, n_test. repeat (split; [first [done | congruence] |]). done.
Qed.

End Prepare.

End prepare_facts.

Module prepare_properties.
Import model_selection data_loader split_counts spec SplitFacts label_codec_claims
  prepare_facts.

Section Prepare.
Variable isdigit : N -> bool.
Variable lower : str -> str.
Context {Image RandomState : Type}.
Variable isdir : str -> bool.
Variable listdir : str -> list str.
Variable open_image : str -> str -> result Image.
Variable div255 : Image -> Image.
Variable seed : Z -> RandomState.
Variable permutation : nat -> RandomState -> list nat * RandomState.

Lemma decoded_labels (labels : list str) (idx : list nat) (ys : list Z) :
  take_indices (LabelEncoder.fit_transform labels).2 idx = Ok ys ->
  Forall2 (fun i v =>
             exists l, labels !! i = Some l
               /\ 0 <= v < Z.of_nat (length (LabelEncoder.fit labels))
               /\ LabelEncoder.decode (LabelEncoder.fit labels) v = Ok l) idx ys.
Proof.
  intros Htake%take_indices_inv.
  eapply Forall2_impl; [exact Htake |]. intros i v Hv. cbn beta in Hv.
  assert (is_Some (labels !! i)) as [l Hl].
  { apply lookup_lt_is_Some. rewrite <- length_fit_transform.
    by eapply lookup_lt_Some. }
  destruct (fit_transform_lookup labels i l Hl) as (v' & Hv' & Hb & Hdec).
  assert (v' = v) as -> by congruence.
  exists l. split; [done |]. split; [done |]. apply decode_lookup; [lia | done].
Qed.

(** X11.  In what [prepare_data] returns, [class_names] is the list of
    the distinct labels of the folder in ascending order, the same list
    the returned encoder holds; every entry of [y_train] and [y_test] is
    an index into it, and decoding it with the returned encoder gives
    back the label of the very file the sample was loaded from. *)
Theorem prepare_data_labels_decode (folder : str)
    (train test : list nat) (d : Data Image) :
  prepare_data_run isdigit lower isdir listdir open_image div255 seed permutation
    folder = Ok (train, test, d) ->
  exists images labels,
    load_images_from_folder isdigit lower isdir listdir open_image folder
      = Ok (images, labels)
    /\ class_names d = label_encoder d
    /\ ascending str_compare (class_names d)
    /\ (forall l, l ∈ class_names d <-> l ∈ labels)
    /\ Forall2 (fun i v =>
                  exists l, labels !! i = Some l
                    /\ 0 <= v < Z.of_nat (length (class_names d))
                    /\ LabelEncoder.decode (label_encoder d) v = Ok l)
         train (y_train d)
    /\ Forall2 (fun i v =>
                  exists l, labels !! i = Some l
                    /\ 0 <= v < Z.of_nat (length (class_names d))
                    /\ LabelEncoder.decode (label_encoder d) v = Ok l)
         test (y_test d).
Proof.
  intros (images & labels & n_train & n_test & Hload & Hle & Hcn & _ & _ & _
          & _ & _ & Hytr & Hyte)%prepare_data_run_inv.
  exists images, labels. rewrite Hle, Hcn.
  split; [done |]. split; [done |].
  split; [apply fit_ascending |]. split; [apply elem_of_fit |].
  split; by apply decoded_labels.
Qed.

(** X12.  A folder in which some label belongs to one image only cannot
    be prepared: once the images are loaded, [prepare_data] raises
    ValueError, because a stratified split needs two members of every
    class. *)
Theorem prepare_data_single_image_class (folder : str)
    (images : list Image) (labels : list str) (l : str) :
  load_images_from_folder isdigit lower isdir listdir open_image folder
    = Ok (images, labels) ->
  length (filter (fun x => x = l) labels) = 1%nat ->
  prepare_data isdigit lower isdir listdir open_image div255 seed permutation folder
  = Raise ValueError.
Proof.
  intros Hload Hone.
  assert (l ∈ labels) as Hl.
  { destruct (filter (fun x => x = l) labels) as [|x xs] eqn:Hf; [done |].
    assert (x ∈ filter (fun x => x = l) labels) as Hx by (rewrite Hf; by left).
    apply list_elem_of_filter in Hx as [-> ?]. done. }
  pose proof (occurrences_fit_transform labels l Hl) as Hocc. rewrite Hone in Hocc.
  unfold prepare_data, prepare_data_run. rewrite Hload. cbn [Py.bind fst snd].
  destruct (LabelEncoder.fit_transform labels) as [le y]. cbn [snd] in Hocc.
  unfold train_test_split_run.
  destruct (negb _); [done |].
  destruct (_validate_shuffle_split _ _) as [[n_train n_test]|e] eqn:Hval.
  - cbn [Py.bind fst snd].
    by rewrite (stratified_shuffle_split_single permutation y n_train n_test _ _ Hocc).
  - by apply validate_shuffle_split_raises in Hval as ->.
Qed.

Hypothesis permutation_shuffles :
  forall n rng, (permutation n rng).1 ≡ₚ seq 0 n.

(** X13.  The sizes of the split: of the [n] loaded images the test part
    gets a fifth, rounded up, and the train part the rest; images and
    labels come in equal number in each part; and there are no more
    classes than test samples. *)
Theorem prepare_data_split_sizes (folder : str)
    (train test : list nat) (d : Data Image) :
  prepare_data_run isdigit lower isdir listdir open_image div255 seed permutation
    folder = Ok (train, test, d) ->
  exists images labels,
    load_images_from_folder isdigit lower isdir listdir open_image folder
      = Ok (images, labels)
    /\ let n := length images in
       (n <= 5 * length (X_test d) < n + 5)%nat
       /\ (length (X_train d) = n - length (X_test d))%nat
       /\ (0 < length (X_train d))%nat
       /\ length (y_train d) = length (X_train d)
       /\ length (y_test d) = length (X_test d)
       /\ (length (class_names d) <= length (X_test d))%nat
       /\ (length (class_names d) <= length (X_train d))%nat.
Proof.
  intros (images & labels & n_train & n_test & Hload & Hle & Hcn & Hlen & Hval & Hsss
          & HXtr & HXte & Hytr & Hyte)%prepare_data_run_inv.
  exists images, labels. split; [done |]. cbn zeta.
  apply validate_shuffle_split_sizes in Hval as (Hpos & Hsum & Hfifth).
  pose proof (stratified_shuffle_split_classes permutation _ _ _ _ _ Hsss) as [Hc1 Hc2].
  rewrite length_unique_fit_transform, <- Hcn in Hc1, Hc2.
  apply (stratified_shuffle_split_spec permutation permutation_shuffles) in Hsss
    as (_ & Hltr & Hlte & _);
    [| done | by rewrite length_fit_transform, <- Hlen].
  apply take_indices_inv, Forall2_length in HXtr, HXte, Hytr, Hyte.
  lia.
Qed.

(** X14.  When the number of images of every label is a multiple of
    five, the split is exact: the train part gets four fifths of each
    class and the test part the remaining fifth. *)
Theorem prepare_data_exact_fifths (folder : str)
    (images : list Image) (labels : list str)
    (train test : list nat) (d : Data Image) :
  load_images_from_folder isdigit lower isdir listdir open_image folder
    = Ok (images, labels) ->
  prepare_data_run isdigit lower isdir listdir open_image div255 seed permutation
    folder = Ok (train, test, d) ->
  (forall l, l ∈ labels -> exists k, length (filter (fun x => x = l) labels) = (5 * k)%nat) ->
  let y := (LabelEncoder.fit_transform labels).2 in
  forall c,
    (5 * occurrences c (y_train d) = 4 * occurrences c y)%nat
    /\ (5 * occurrences c (y_test d) = occurrences c y)%nat.
Proof.
  intros Hload0
    (images' & labels' & n_train & n_test & Hload & Hle & Hcn & Hlen & Hval & Hsss
     & HXtr & HXte & Hytr & Hyte)%prepare_data_run_inv Hfive_labels.
  rewrite Hload0 in Hload. injection Hload as <- <-. cbn zeta.
  set (y := (LabelEncoder.fit_transform labels).2) in *.
  assert (forall c, exists k, occurrences c y = (5 * k)%nat) as Hfive.
  { intros c. destruct (decide (c ∈ y)) as [Hc|Hc].
    - unfold y, LabelEncoder.fit_transform in Hc. cbn [snd] in Hc.
      apply list_elem_of_fmap in Hc as (l & -> & Hl).
      destruct (Hfive_labels l Hl) as [k Hk]. exists k.
      unfold y. by rewrite occurrences_fit_transform.
    - exists 0%nat. destruct (occurrences c y) eqn:Ho; [done |].
      exfalso. apply Hc, CounterFacts.occurrences_pos. lia. }
  intros c.
  apply validate_shuffle_split_sizes in Hval as (Hpos & Hsum & Hfifth).
  assert (length y = length images) as Hly
    by (unfold y; by rewrite length_fit_transform).
  apply (stratified_shuffle_split_spec permutation permutation_shuffles) in Hsss
    as (Hperm & Hltr & Hlte & Hclose); [| done | by rewrite Hly].
  (* the number of images is a multiple of five as well *)
  assert (exists q, length y = (5 * q)%nat) as [q Hq].
  { rewrite <- (metrics_facts.sum_count (np.unique Z.compare y) y).
    - induction (np.unique Z.compare y) as [|c' cs [q IH]]; [by exists 0%nat |].
      destruct (Hfive c') as [k Hk]. exists (k + q)%nat. simpl.
      change (evaluation.count c' y) with (occurrences c' y). lia.
    - apply unique_Z_NoDup.
    - intros t Ht. by apply ml_models_facts.elem_of_unique_Z. }
  destruct (Hfive c) as [k Hk].
  pose proof (take_indices_inv _ _ _ Hytr) as Fytr.
  pose proof (take_indices_inv _ _ _ Hyte) as Fyte.
  rewrite (occurrences_take_indices y _ train c Fytr).
  rewrite (occurrences_take_indices y _ test c Fyte).
  pose proof (hits_Permutation y c _ _ Hperm) as Hall.
  rewrite hits_app, hits_seq in Hall.
  destruct (Hclose c) as [H1 H2].
  assert (n_test = q) as -> by lia.
  assert (n_train = (4 * q)%nat) as -> by lia.
  rewrite Hq, Hk in H1, H2.
  assert (hits y c train = (4 * k)%nat) as Htr by nia.
  lia.
Qed.

(** X26.  The test part is stratified as well: the number of test
    samples of every class is within one of its exact share, so that the
    fraction of the class in the test part differs from its fraction in
    the full set by less than [1 / len(test)]. *)
Theorem prepare_data_test_part_stratified (folder : str)
    (train test : list nat) (d : Data Image) :
  prepare_data_run isdigit lower isdir listdir open_image div255 seed permutation
    folder = Ok (train, test, d) ->
  exists images labels,
    load_images_from_folder isdigit lower isdir listdir open_image folder
      = Ok (images, labels)
    /\ let y := (LabelEncoder.fit_transform labels).2 in
       (0 < length (y_test d))%nat
       /\ forall c,
            (occurrences c (y_train d) + occurrences c (y_test d) = occurrences c y)%nat
            /\ (occurrences c (y_test d) * length y
                < occurrences c y * length (y_test d) + length y)%nat
            /\ (occurrences c y * length (y_test d)
                < occurrences c (y_test d) * length y + length y)%nat
            /\ (fraction_gap c (y_test d) y < 1 # Pos.of_nat (length (y_test d)))%Q.
Proof.
  intros (images & labels & n_train & n_test & Hload & Hle & Hcn & Hlen & Hval & Hsss
          & HXtr & HXte & Hytr & Hyte)%prepare_data_run_inv.
  exists images, labels. split; [done |]. cbn zeta.
  set (y := (LabelEncoder.fit_transform labels).2) in *.
  apply validate_shuffle_split_sizes in Hval as (Hpos & Hsum & Hfifth).
  assert (length y = length images) as Hly
    by (unfold y; by rewrite length_fit_transform).
  apply (stratified_shuffle_split_spec permutation permutation_shuffles) in Hsss
    as (Hperm & Hltr & Hlte & Hclose); [| done | by rewrite Hly].
  pose proof (take_indices_inv _ _ _ Hytr) as Fytr.
  pose proof (take_indices_inv _ _ _ Hyte) as Fyte.
  pose proof (Forall2_length _ _ _ Fyte) as Lyte.
  assert (0 < n_test)%nat as Hnte by lia.
  split; [lia |]. intros c.
  pose proof (hits_Permutation y c _ _ Hperm) as Hall.
  rewrite hits_app, hits_seq in Hall.
  destruct (Hclose c) as [H1 H2].
  rewrite (occurrences_take_indices y _ train c Fytr).
  assert (occurrences c (y_test d) = hits y c test) as Hte
    by apply (occurrences_take_indices y _ test c Fyte).
  assert (length (y_test d) = n_test) as Hlte' by lia.
  assert (length y = (n_train + n_test)%nat) as Hn by lia.
  assert ((occurrences c (y_test d) * length y
           < occurrences c y * length (y_test d) + length y)%nat
          /\ (occurrences c y * length (y_test d)
              < occurrences c (y_test d) * length y + length y)%nat) as [B1 B2].
  { rewrite Hte, Hlte', Hn in *. split; nia. }
  split; [lia |]. split; [done |]. split; [done |].
  unfold fraction_gap, class_fraction. apply fraction_gap_bound; lia.
Qed.

End Prepare.

Lemma prepare_data_test_part_stratified_witness :
  exists images labels,
    load_images_from_folder toy.isdigit toy.lower toy.isdir toy.listdir_seven
      toy.open_image (lit "data") = Ok (images, labels)
    /\ let d := toy.seven_split in
       let y := (LabelEncoder.fit_transform labels).2 in
       (0 < length (y_test d))%nat
       /\ forall c,
            (occurrences c (y_train d) + occurrences c (y_test d) = occurrences c y)%nat
            /\ (occurrences c (y_test d) * length y
                < occurrences c y * length (y_test d) + length y)%nat
            /\ (occurrences c y * length (y_test d)
                < occurrences c (y_test d) * length y + length y)%nat
            /\ (fraction_gap c (y_test d) y < 1 # Pos.of_nat (length (y_test d)))%Q.
Proof.
  apply (prepare_data_test_part_stratified toy.isdigit toy.lower toy.isdir
           toy.listdir_seven toy.open_image toy.div255 toy.seed toy.permutation
           (fun n rng => Permutation_refl (seq 0 n))
           (lit "data") [0; 2; 3; 4; 5]%nat [1; 6]%nat toy.seven_split).
  reflexivity.
Defined.

Lemma prepare_data_labels_decode_witness :
  exists images labels,
    load_images_from_folder toy.isdigit toy.lower toy.isdir toy.listdir_seven
      toy.open_image (lit "data") = Ok (images, labels)
    /\ let train := [0; 2; 3; 4; 5]%nat in
       let test := [1; 6]%nat in
       let d := toy.seven_split in
       class_names d = label_encoder d
       /\ ascending str_compare (class_names d)
       /\ (forall l, l ∈ class_names d <-> l ∈ labels)
       /\ Forall2 (fun i v =>
                     exists l, labels !! i = Some l
                       /\ 0 <= v < Z.of_nat (length (class_names d))
                       /\ LabelEncoder.decode (label_encoder d) v = Ok l)
            train (y_train d)
       /\ Forall2 (fun i v =>
                     exists l, labels !! i = Some l
                       /\ 0 <= v < Z.of_nat (length (class_names d))
                       /\ LabelEncoder.decode (label_encoder d) v = Ok l)
            test (y_test d).
Proof.
  apply (prepare_data_labels_decode toy.isdigit toy.lower toy.isdir toy.listdir_seven
           toy.open_image toy.div255 toy.seed toy.permutation
           (lit "data") [0; 2; 3; 4; 5]%nat [1; 6]%nat toy.seven_split).
  reflexivity.
Defined.

Lemma prepare_data_single_image_class_witness :
  prepare_data toy.isdigit toy.lower toy.isdir toy.listdir toy.open_image
    toy.div255 toy.seed toy.permutation (lit "data")
  = Raise ValueError.
Proof.
  apply (prepare_data_single_image_class toy.isdigit toy.lower toy.isdir toy.listdir
           toy.open_image toy.div255 toy.seed toy.permutation
           (lit "data") [tt; tt] [lit "Avion"; lit "Caja"] (lit "Caja")).
  - reflexivity.
  - reflexivity.
Defined.

Lemma prepare_data_split_sizes_witness :
  exists images labels,
    load_images_from_folder toy.isdigit toy.lower toy.isdir toy.listdir_seven
      toy.open_image (lit "data") = Ok (images, labels)
    /\ let d := toy.seven_split in
       let n := length images in
       (n <= 5 * length (X_test d) < n + 5)%nat
       /\ (length (X_train d) = n - length (X_test d))%nat
       /\ (0 < length (X_train d))%nat
       /\ length (y_train d) = length (X_train d)
       /\ length (y_test d) = length (X_test d)
       /\ (length (class_names d) <= length (X_test d))%nat
       /\ (length (class_names d) <= length (X_train d))%nat.
Proof.
  apply (prepare_data_split_sizes toy.isdigit toy.lower toy.isdir toy.listdir_seven
           toy.open_image toy.div255 toy.seed toy.permutation
           (fun n rng => Permutation_refl (seq 0 n))
           (lit "data") [0; 2; 3; 4; 5]%nat [1; 6]%nat toy.seven_split).
  reflexivity.
Defined.

Lemma prepare_data_exact_fifths_witness :
  prepare_data_run toy.isdigit toy.lower toy.isdir toy.listdir_ten toy.open_image
    toy.div255 toy.seed toy.permutation (lit "data")
  = Ok ([0; 1; 2; 3; 5; 6; 7; 8]%nat, [4; 9]%nat, toy.ten_split)
  /\ let d := toy.ten_split in
     let y := [0; 0; 0; 0; 0; 1; 1; 1; 1; 1] in
     forall c,
       (5 * occurrences c (y_train d) = 4 * occurrences c y)%nat
       /\ (5 * occurrences c (y_test d) = occurrences c y)%nat.
Proof.
  split; [reflexivity |].
  apply (prepare_data_exact_fifths toy.isdigit toy.lower toy.isdir toy.listdir_ten
           toy.open_image toy.div255 toy.seed toy.permutation
           (fun n rng => Permutation_refl (seq 0 n))
           (lit "data") (repeat tt 10)
           (repeat (lit "Avion") 5 ++ repeat (lit "Caja") 5)
           [0; 1; 2; 3; 5; 6; 7; 8]%nat [4; 9]%nat toy.ten_split).
  - reflexivity.
  - reflexivity.
  - intros l Hl. exists 1%nat.
    repeat (apply elem_of_cons in Hl as [->|Hl]; [reflexivity |]).
    by apply elem_of_nil in Hl.
Defined.

End prepare_properties.

(** ** Further properties of the cluster-derived classifier *)

Module kmeans_facts.
Import ml_models spec CounterFacts ml_models_facts evaluation metrics_facts.

Lemma members_cons (c t cid : Z) (cl y : list Z) :
  members (c :: cl) (t :: y) cid
  = if bool_decide (c = cid) then t :: members cl y cid else members cl y cid.
Proof. done. Qed.

(** Counted cluster by cluster: the rows whose label is the one that [f]
    gives to their cluster. *)
Lemma sum_members_occurrences (f : Z -> Z) (cids cl y : list Z) :
  NoDup cids -> (forall c, c ∈ cl -> c ∈ cids) -> length cl = length y ->
  foldr Nat.add 0%nat (map (fun cid => occurrences (f cid) (members cl y cid)) cids)
  = matches y (map f cl).
Proof.
  intros Hnd. revert y.
  induction cl as [|c cl IH]; intros [|t y] Hin Hlen; try discriminate.
  - simpl. by apply sum_map_zero.
  - cbn [map matches]. rewrite <- IH; [| intros; apply Hin; by right | by injection Hlen].
    rewrite <- (sum_indicator (fun cid => bool_decide (t = f cid)) cids c Hnd)
      by (apply Hin; by left).
    rewrite <- sum_map_add. f_equal. apply map_ext. intros cid.
    rewrite members_cons.
    destruct (bool_decide (c = cid)); simpl; [| done].
    rewrite occurrences_cons.
    destruct (decide (t = f cid)) as [Heq|Hne].
    + by rewrite bool_decide_eq_true_2.
    + by rewrite bool_decide_eq_false_2.
Qed.

Lemma matches_const (l : Z) (cl y : list Z) :
  length cl = length y -> matches y (map (fun _ => l) cl) = occurrences l y.
Proof.
  revert y. induction cl as [|c cl IH]; intros [|t y] Hlen; try discriminate; [done |].
  cbn [map matches]. rewrite occurrences_cons, IH by (by injection Hlen).
  destruct (decide (t = l)) as [Heq|Hne].
  - by rewrite bool_decide_eq_true_2.
  - by rewrite bool_decide_eq_false_2.
Qed.

Lemma sum_map_le {A : Type} (f g : A -> nat) (l : list A) :
  (forall c, c ∈ l -> (f c <= g c)%nat) ->
  (foldr Nat.add 0%nat (map f l) <= foldr Nat.add 0%nat (map g l))%nat.
Proof.
  induction l as [|c l IH]; intros Hle; simpl; [done |].
  pose proof (Hle c ltac:(by left)).
  pose proof (IH ltac:(intros; apply Hle; by right)). lia.
Qed.

End kmeans_facts.

Module kmeans_properties.
Import ml_models spec CounterFacts ml_models_facts evaluation metrics_facts kmeans_facts.

Section ClusterDerived.
Context {Features KMeans : Type}.
Variable KMeans_fit : Z -> Z -> Z -> list Features -> result KMeans.
Variable KMeans_predict : KMeans -> list Features -> result (list Z).

(** X15.  Asked about its own training rows, the cluster-derived
    classifier answers for each row a majority label of the row's
    cluster; the answer is a training label, never the fallback for an
    unknown cluster. *)
Theorem predict_kmeans_on_training_rows
    (X_train : list Features) (y_train : list Z) (n_classes : Z)
    (model : KMeans) (mapping : gmap Z Z) :
  train_kmeans KMeans_fit KMeans_predict X_train y_train n_classes = Ok (model, mapping) ->
  exists cluster_labels preds,
    KMeans_predict model X_train = Ok cluster_labels
    /\ predict_kmeans KMeans_predict model mapping X_train = Ok preds
    /\ Forall2 (fun cid p =>
                  mapping !! cid = Some p
                  /\ majority (members cluster_labels y_train cid) p
                  /\ p ∈ y_train)
         cluster_labels preds.
Proof.
  intros Htrain.
  pose proof (fun cid l => train_kmeans_values KMeans_fit KMeans_predict
                             _ _ _ _ _ cid l Htrain) as Hval.
  apply train_kmeans_Ok in Htrain as (cluster_labels & _ & Hpred & Hmap).
  exists cluster_labels, (map (fun c => default UNKNOWN (mapping !! c)) cluster_labels).
  split; [done |]. split; [by apply predict_kmeans_Ok |].
  apply Forall2_fmap_r, Forall_Forall2_diag, Forall_forall. intros cid Hcid.
  destruct (cluster_to_label_of_Ok _ _ _ Hmap cid) as [Hin _].
  destruct (Hin Hcid) as (l & Hl & Hmaj & _).
  unfold compose. rewrite Hl. simpl. split; [done |]. split; [done |]. by eapply Hval.
Qed.

(** X16.  On its own training rows the cluster-derived classifier is
    right at least as often as any single label occurs among them: it
    is never worse there than answering the most frequent label every
    time. *)
Theorem predict_kmeans_training_matches
    (X_train : list Features) (y_train : list Z) (n_classes : Z)
    (model : KMeans) (mapping : gmap Z Z) (cluster_labels : list Z) :
  train_kmeans KMeans_fit KMeans_predict X_train y_train n_classes = Ok (model, mapping) ->
  KMeans_predict model X_train = Ok cluster_labels ->
  length cluster_labels = length y_train ->
  exists preds,
    predict_kmeans KMeans_predict model mapping X_train = Ok preds
    /\ length preds = length y_train
    /\ forall l, (occurrences l y_train <= matches y_train preds)%nat.
Proof.
  intros Htrain Hpred Hlen.
  apply train_kmeans_Ok in Htrain as (cluster_labels' & _ & Hpred' & Hmap).
  assert (cluster_labels' = cluster_labels) as -> by congruence.
  set (f := fun c => default UNKNOWN (mapping !! c)).
  exists (map f cluster_labels).
  split; [by apply predict_kmeans_Ok |]. split; [by rewrite length_map |].
  intros l.
  assert (NoDup (np.unique Z.compare cluster_labels)) as Hnd
    by apply prepare_facts.unique_Z_NoDup.
  assert (forall c, c ∈ cluster_labels -> c ∈ np.unique Z.compare cluster_labels) as Hcov
    by (intros c Hc; by apply elem_of_unique_Z).
  rewrite <- (matches_const l cluster_labels y_train Hlen).
  rewrite <- (sum_members_occurrences (fun _ => l) _ _ _ Hnd Hcov Hlen).
  rewrite <- (sum_members_occurrences f _ _ _ Hnd Hcov Hlen).
  apply sum_map_le. intros cid Hcid.
  apply (proj1 (elem_of_unique_Z _ _)) in Hcid.
  destruct (cluster_to_label_of_Ok _ _ _ Hmap cid) as [Hin _].
  destruct (Hin Hcid) as (p & Hp & [_ Hmaj] & _).
  unfold f. rewrite Hp. simpl. apply Hmaj.
Qed.

(** X17.  When K-Means has been fitted and has assigned clusters, but
    the labels are not as many as the rows, [train_kmeans] fails with the
    IndexError of the mismatched boolean mask. *)
Theorem train_kmeans_length_mismatch
    (X_train : list Features) (y_train : list Z) (n_classes : Z)
    (model : KMeans) (cluster_labels : list Z) :
  KMeans_fit n_classes config.RANDOM_STATE config.KMEANS_N_INIT X_train = Ok model ->
  KMeans_predict model X_train = Ok cluster_labels ->
  cluster_labels <> [] ->
  length cluster_labels <> length y_train ->
  train_kmeans KMeans_fit KMeans_predict X_train y_train n_classes = Raise IndexError.
Proof.
  intros Hfit Hpred Hne Hlen.
  unfold train_kmeans. rewrite Hfit. cbn [Py.bind]. rewrite Hpred. cbn [Py.bind].
  unfold cluster_to_label_of.
  destruct (np.unique Z.compare cluster_labels) as [|cid cids] eqn:Hu.
  - destruct cluster_labels as [|c cl]; [done |].
    assert (c ∈ np.unique Z.compare (c :: cl)) as Hc
      by (apply elem_of_unique_Z; by left).
    rewrite Hu in Hc. by apply elem_of_nil in Hc.
  - cbn [train_kmeans_loop]. unfold most_common_label, np.bool_index.
    destruct (decide _) as [Heq|_]; [| done].
    unfold np.eq_mask in Heq. by rewrite length_map in Heq.
Qed.

End ClusterDerived.

Lemma predict_kmeans_on_training_rows_witness :
  exists cluster_labels preds,
    toy.KMeans_predict [0; 10] [0; 0; 10; 10] = Ok cluster_labels
    /\ predict_kmeans toy.KMeans_predict [0; 10] {[ 0 := 1; 1 := 1 ]} [0; 0; 10; 10]
       = Ok preds
    /\ Forall2 (fun cid p =>
                  ({[ 0 := 1; 1 := 1 ]} : gmap Z Z) !! cid = Some p
                  /\ majority (members cluster_labels [1; 0; 1; 0] cid) p
                  /\ p ∈ [1; 0; 1; 0])
         cluster_labels preds.
Proof.
  apply (predict_kmeans_on_training_rows toy.KMeans_fit toy.KMeans_predict
           [0; 0; 10; 10] [1; 0; 1; 0] 2 [0; 10] {[ 0 := 1; 1 := 1 ]}).
  vm_compute. reflexivity.
Defined.

Lemma predict_kmeans_training_matches_witness :
  let y_train := [1; 0; 1; 0; 0] in
  exists preds,
    predict_kmeans toy.KMeans_predict [0; 10] {[ 0 := 1; 1 := 0 ]} [0; 0; 0; 10; 10]
    = Ok preds
    /\ length preds = length y_train
    /\ forall l, (occurrences l y_train <= matches y_train preds)%nat.
Proof.
  apply (predict_kmeans_training_matches toy.KMeans_fit toy.KMeans_predict
           [0; 0; 0; 10; 10] [1; 0; 1; 0; 0] 2 [0; 10] {[ 0 := 1; 1 := 0 ]}
           [0; 0; 0; 1; 1]).
  - vm_compute. reflexivity.
  - reflexivity.
  - reflexivity.
Defined.

Lemma train_kmeans_length_mismatch_witness :
  train_kmeans toy.KMeans_fit toy.KMeans_predict [0; 0; 10; 10] [1; 0; 1] 2
  = Raise IndexError.
Proof.
  apply (train_kmeans_length_mismatch toy.KMeans_fit toy.KMeans_predict
           [0; 0; 10; 10] [1; 0; 1] 2 [0; 10] [0; 0; 1; 1]).
  - reflexivity.
  - reflexivity.
  - discriminate.
  - simpl. lia.
Defined.

End kmeans_properties.

(** ** Further properties of the convolutional network's training *)

Module cnn_facts.
Import cnn_model spec fit_states early_stopping_facts cnn_training_claims.

Section ConvNet.
Context {Pixel W : Type}.
Variable build_cnn : Z -> W.
Variable run_epoch :
  np.ndarray Pixel -> list Z -> np.ndarray Pixel -> list Z -> nat -> W -> result (W * logs).
Variable restore_on_train_end : bool.

(** How [train_cnn] can end: after all the epochs, or stopped by the
    callback. *)
Lemma train_cnn_outcome
    (X_train : np.ndarray Pixel) (y_train : list Z)
    (X_test : np.ndarray Pixel) (y_test : list Z) (num_classes : Z)
    (model : Model W) (history : list logs) :
  train_cnn build_cnn run_epoch restore_on_train_end
    X_train y_train X_test y_test num_classes = Ok (model, history) ->
  exists X_train_cnn X_test_cnn e lg w_e,
    _reshape_for_cnn X_train = Ok X_train_cnn
    /\ _reshape_for_cnn X_test = Ok X_test_cnn
    /\ first_minimum history e lg
    /\ weights_after run_epoch X_train_cnn y_train X_test_cnn y_test
         (build_cnn num_classes) e = Ok w_e
    /\ (length history <= config.CNN_EPOCHS)%nat
    /\ ((stop_training model = false
         /\ length history = config.CNN_EPOCHS
         /\ never_stalled config.CNN_EARLY_STOPPING_PATIENCE history
         /\ exists w_last,
              weights_after run_epoch X_train_cnn y_train X_test_cnn y_test
                (build_cnn num_classes) (config.CNN_EPOCHS - 1) = Ok w_last
              /\ weights model = if restore_on_train_end then w_e else w_last)
        \/ (stop_training model = true
            /\ length history = (e + 1 + config.CNN_EARLY_STOPPING_PATIENCE)%nat
            /\ weights model = w_e)).
Proof.
  unfold train_cnn, train_cnn_run, fit.
  intros ([[cb m] h] & Hrun & [= <- <-])%bind_Ok.
  apply bind_Ok in Hrun as (Xc & HXc & Hrun).
  apply bind_Ok in Hrun as (Xtc & HXtc & Hrun).
  apply bind_Ok in Hrun as ([[cb1 m1] h1] & Hloop & Hend).
  cbn [fst snd] in Hend.
  destruct (on_train_end restore_on_train_end (cb1, m1)) as [cb2 m2] eqn:Hte.
  injection Hend as <- <- <-.
  apply on_train_end_stop in Hte as (-> & Hstop & Hw).
  set (P := config.CNN_EARLY_STOPPING_PATIENCE) in *.
  set (w0 := build_cnn num_classes) in *.
  assert (running run_epoch Xc y_train Xtc y_test w0 P 0
            (EarlyStopping_init P) {| weights := w0; stop_training := false |} [])
    as Hinit.
  { split; [done |]. split; [done |]. split; [done |]. split; [| done].
    intros h' Hne Hpre. apply prefix_nil_inv in Hpre. done. }
  destruct (fit_loop_Ok run_epoch restore_on_train_end Xc y_train Xtc y_test w0 P
              ltac:(unfold P, config.CNN_EARLY_STOPPING_PATIENCE; lia)
              _ _ _ _ _ _ _ _ Hloop Hinit) as [[Hr|Hs] Hlen].
  - destruct Hr as (Hl & Hst & _ & Hns & e & lg & w_e & Hmin & _ & Hwe & Hbw & _ & _
                    & Hlast).
    exists Xc, Xtc, e, lg, w_e. do 5 (split; [done |]). left.
    rewrite Hstop, Hst. split; [done |]. split; [done |]. split; [done |].
    exists (weights m1). split; [done |].
    destruct Hw as [[-> Hw]|[[Hnone Hw]|[-> Hw]]]; [done | congruence | congruence].
  - destruct Hs as (Hst & _ & e & lg & w_e & Hmin & Hwe & Hbw & Hl & Hrest).
    exists Xc, Xtc, e, lg, w_e. do 5 (split; [done |]). right.
    rewrite Hstop, Hst. split; [done |]. split; [done |].
    destruct Hw as [[Hflag Hw]|[[Hnone Hw]|[Hflag Hw]]].
    + rewrite Hw. by apply Hrest.
    + congruence.
    + congruence.
Qed.

End ConvNet.


(** The first minimum of a history that never gets below its first
    entry is that entry. *)
Lemma first_minimum_first (history : list logs) (e : nat) (lg lg0 : logs) :
  history !! 0%nat = Some lg0 ->
  (forall j a, history !! j = Some a -> (val_loss lg0 <= val_loss a)%Q) ->
  first_minimum history e lg -> e = 0%nat.
Proof.
  intros H0 Hall (He & Hbefore & _).
  destruct e as [|e]; [done |].
  pose proof (Hbefore 0%nat lg0 ltac:(lia) H0) as H1.
  pose proof (Hall _ _ He) as H2.
  exfalso. by apply (Qlt_not_le _ _ H1).
Qed.

End cnn_facts.

Module cnn_properties.
Import cnn_model spec fit_states early_stopping_facts cnn_facts.

Section ConvNet.
Context {Pixel W : Type}.
Variable build_cnn : Z -> W.
Variable run_epoch :
  np.ndarray Pixel -> list Z -> np.ndarray Pixel -> list Z -> nat -> W -> result (W * logs).
Variable Keras_predict : W -> np.ndarray Pixel -> result (list (list Q)).
Variable restore_on_train_end : bool.

(** X18.  When [train_cnn] returns without the callback having stopped
    it, all 50 epochs were run, and which weights the model is left with
    depends on the generation of the callback: the one that restores
    when training ends gives it the weights of the epoch with the lowest
    validation loss, the one that restores only where it stops leaves
    it the weights of the last epoch. *)
Theorem train_cnn_full_run_weights
    (X_train : np.ndarray Pixel) (y_train : list Z)
    (X_test : np.ndarray Pixel) (y_test : list Z) (num_classes : Z)
    (model : Model W) (history : list logs) :
  train_cnn build_cnn run_epoch restore_on_train_end
    X_train y_train X_test y_test num_classes = Ok (model, history) ->
  stop_training model = false ->
  length history = config.CNN_EPOCHS
  /\ exists X_train_cnn X_test_cnn e lg,
       _reshape_for_cnn X_train = Ok X_train_cnn
       /\ _reshape_for_cnn X_test = Ok X_test_cnn
       /\ first_minimum history e lg
       /\ weights_after run_epoch X_train_cnn y_train X_test_cnn y_test
            (build_cnn num_classes)
            (if restore_on_train_end then e else (config.CNN_EPOCHS - 1)%nat)
          = Ok (weights model).
Proof.
  intros (Xc & Xtc & e & lg & w_e & HXc & HXtc & Hmin & Hwe & Hmax & Hcase)%train_cnn_outcome
    Hstop.
  destruct Hcase as [(_ & Hlen & _ & w_last & Hlast & Hw)|(Hst & _)]; [| congruence].
  split; [done |]. exists Xc, Xtc, e, lg. do 3 (split; [done |]).
  rewrite Hw. by destruct restore_on_train_end.
Qed.


(** X20.  When the validation loss never gets below that of the first
    epoch, [train_cnn] stops after exactly six epochs and leaves the
    model with the weights it had after the first one. *)
Theorem train_cnn_no_improvement
    (X_train : np.ndarray Pixel) (y_train : list Z)
    (X_test : np.ndarray Pixel) (y_test : list Z) (num_classes : Z)
    (model : Model W) (history : list logs) (lg0 : logs) :
  train_cnn build_cnn run_epoch restore_on_train_end
    X_train y_train X_test y_test num_classes = Ok (model, history) ->
  history !! 0%nat = Some lg0 ->
  (forall j a, history !! j = Some a -> (val_loss lg0 <= val_loss a)%Q) ->
  stop_training model = true
  /\ length history = (config.CNN_EARLY_STOPPING_PATIENCE + 1)%nat
  /\ exists X_train_cnn X_test_cnn,
       _reshape_for_cnn X_train = Ok X_train_cnn
       /\ _reshape_for_cnn X_test = Ok X_test_cnn
       /\ weights_after run_epoch X_train_cnn y_train X_test_cnn y_test
            (build_cnn num_classes) 0 = Ok (weights model).
Proof.
  intros (Xc & Xtc & e & lg & w_e & HXc & HXtc & Hmin & Hwe & Hmax & Hcase)%train_cnn_outcome
    H0 Hall.
  pose proof (first_minimum_first history e lg lg0 H0 Hall Hmin) as ->.
  unfold config.CNN_EARLY_STOPPING_PATIENCE, config.CNN_EPOCHS in *.
  destruct Hcase as [(Hst & Hlen & Hns & _)|(Hst & Hlen & Hw)].
  - exfalso.
    destruct (Hns history) as (k & Hk & e' & lg' & Hmin' & Hlen');
      [by intros -> | done |].
    pose proof (first_minimum_first history e' lg' lg0 H0 Hall Hmin') as ->. lia.
  - split; [done |]. split; [lia |]. exists Xc, Xtc. rewrite Hw. done.
Qed.

End ConvNet.

Lemma train_cnn_full_run_weights_witness :
  exists model history,
    train_cnn toy.build_cnn toy.run_epoch_late_rise true
      toy.one_image [0] toy.one_image [0] 2 = Ok (model, history)
    /\ length history = config.CNN_EPOCHS
    /\ exists X_train_cnn X_test_cnn e lg,
         _reshape_for_cnn toy.one_image = Ok X_train_cnn
         /\ _reshape_for_cnn toy.one_image = Ok X_test_cnn
         /\ first_minimum history e lg
         /\ weights_after toy.run_epoch_late_rise X_train_cnn [0] X_test_cnn [0]
              (toy.build_cnn 2) e = Ok (weights model).
Proof.
  eexists _, _. split; [vm_compute; reflexivity |].
  apply (train_cnn_full_run_weights toy.build_cnn toy.run_epoch_late_rise true
           toy.one_image [0] toy.one_image [0] 2).
  - vm_compute. reflexivity.
  - reflexivity.
Defined.


Lemma train_cnn_no_improvement_witness :
  exists model history,
    train_cnn toy.build_cnn toy.run_epoch_flat false
      toy.one_image [0] toy.one_image [0] 2 = Ok (model, history)
    /\ stop_training model = true
    /\ length history = (config.CNN_EARLY_STOPPING_PATIENCE + 1)%nat
    /\ exists X_train_cnn X_test_cnn,
         _reshape_for_cnn toy.one_image = Ok X_train_cnn
         /\ _reshape_for_cnn toy.one_image = Ok X_test_cnn
         /\ weights_after toy.run_epoch_flat X_train_cnn [0] X_test_cnn [0]
              (toy.build_cnn 2) 0 = Ok (weights model).
Proof.
  eexists _, _. split; [vm_compute; reflexivity |].
  apply (train_cnn_no_improvement toy.build_cnn toy.run_epoch_flat false
           toy.one_image [0] toy.one_image [0] 2 _ _
           {| loss := 1; accuracy := 0; val_loss := 1; val_accuracy := 0 |}).
  - vm_compute. reflexivity.
  - reflexivity.
  - intros j a Hj. apply list_elem_of_lookup_2 in Hj.
    repeat (apply elem_of_cons in Hj as [->|Hj]; [discriminate |]).
    by apply elem_of_nil in Hj.
Defined.

End cnn_properties.

(** ** Predictions of the convolutional network *)

Module predict_facts.
Import cnn_model.

Lemma mapM_Ok {A B : Type} (f : A -> result B) (l : list A) (ys : list B) :
  mapM f l = Ok ys -> Forall2 (fun a b => f a = Ok b) l ys.
Proof.
  revert ys. induction l as [|a l IH]; intros ys; simpl.
  - intros [= <-]. constructor.
  - destruct (f a) as [b|e] eqn:Hb; [| discriminate].
    destruct (mapM f l) as [ys'|e]; [| discriminate].
    intros [= <-]. constructor; [done | by apply IH].
Qed.

(** The scan of [argmax]: [pre] has been seen, its first maximum is [b]
    at [best_i]. *)
Lemma argmax_from_spec (pre row : list Q) (best_i : nat) (b : Q) :
  pre !! best_i = Some b ->
  (forall j y, pre !! j = Some y -> (y <= b)%Q) ->
  (forall j y, (j < best_i)%nat -> pre !! j = Some y -> (y < b)%Q) ->
  exists x,
    (pre ++ row) !! np.argmax_from best_i b (length pre) row = Some x
    /\ (forall j y, (pre ++ row) !! j = Some y -> (y <= x)%Q)
    /\ (forall j y, (j < np.argmax_from best_i b (length pre) row)%nat ->
          (pre ++ row) !! j = Some y -> (y < x)%Q).
Proof.
  revert pre best_i b. induction row as [|x row IH]; intros pre best_i b Hb Hmax Hfirst.
  - simpl. rewrite app_nil_r. by exists b.
  - cbn [np.argmax_from].
    replace (pre ++ x :: row) with ((pre ++ [x]) ++ row) by (by rewrite <- app_assoc).
    replace (S (length pre)) with (length (pre ++ [x]))
      by (rewrite length_app; simpl; lia).
    destruct (Qle_bool x b) eqn:Hle; cbn [negb].
    + apply Qle_bool_iff in Hle. apply IH.
      * rewrite lookup_app_l; [done |]. by eapply lookup_lt_Some.
      * intros j y [Hy|[_ Hy]]%lookup_app_Some; [by eapply Hmax |].
        destruct (j - length pre)%nat; [| done]. by injection Hy as <-.
      * intros j y Hj Hy. apply (Hfirst j y Hj).
        rewrite lookup_app_l in Hy; [done |].
        apply lookup_lt_Some in Hb. lia.
    + assert (b < x)%Q as Hlt.
      { apply Qnot_le_lt. intros H. apply Qle_bool_iff in H. congruence. }
      apply IH.
      * rewrite lookup_app_r by lia. by rewrite Nat.sub_diag.
      * intros j y [Hy|[_ Hy]]%lookup_app_Some.
        -- apply Qlt_le_weak. eapply Qle_lt_trans; [by eapply Hmax | done].
        -- destruct (j - length pre)%nat; [| done]. injection Hy as <-. apply Qle_refl.
      * intros j y Hj Hy. rewrite lookup_app_l in Hy by done.
        eapply Qle_lt_trans; [by eapply Hmax | done].
Qed.

Lemma argmax_Ok (row : list Q) (p : nat) :
  np.argmax row = Ok p ->
  exists x,
    row !! p = Some x
    /\ (forall j y, row !! j = Some y -> (y <= x)%Q)
    /\ (forall j y, (j < p)%nat -> row !! j = Some y -> (y < x)%Q).
Proof.
  destruct row as [|x row]; [discriminate |]. simpl. intros [= <-].
  apply (argmax_from_spec [x] row 0 x).
  - done.
  - intros [|j] y; [| done]. intros [= <-]. apply Qle_refl.
  - intros j y Hj. lia.
Qed.

End predict_facts.

Module predict_properties.
Import cnn_model predict_facts.

Section ConvNet.
Context {Pixel W : Type}.
Variable Keras_predict : W -> np.ndarray Pixel -> result (list (list Q)).

(** X21.  [predict_cnn] gives one class per row of scores that the
    network returns for the reshaped input: the position of the highest
    score of the row, and of the first such position when several scores
    tie for the highest. *)
Theorem predict_cnn_first_maximum (model : Model W) (X : np.ndarray Pixel)
    (preds : list nat) :
  predict_cnn Keras_predict model X = Ok preds ->
  exists X_cnn probs,
    _reshape_for_cnn X = Ok X_cnn
    /\ Keras_predict (weights model) X_cnn = Ok probs
    /\ Forall2 (fun row p =>
                  exists x,
                    row !! p = Some x
                    /\ (forall j y, row !! j = Some y -> (y <= x)%Q)
                    /\ (forall j y, (j < p)%nat -> row !! j = Some y -> (y < x)%Q))
         probs preds.
Proof.
  unfold predict_cnn.
  intros (X_cnn & HX & Hrun)%bind_Ok. apply bind_Ok in Hrun as (probs & Hp & Hmap).
  exists X_cnn, probs. split; [done |]. split; [done |].
  apply mapM_Ok in Hmap. eapply Forall2_impl; [exact Hmap |].
  intros row p. apply argmax_Ok.
Qed.

End ConvNet.

Lemma predict_cnn_first_maximum_witness :
  exists X_cnn probs,
    _reshape_for_cnn toy.one_image = Ok X_cnn
    /\ toy.Keras_predict 0%nat X_cnn = Ok probs
    /\ Forall2 (fun row p =>
                  exists x,
                    row !! p = Some x
                    /\ (forall j y, row !! j = Some y -> (y <= x)%Q)
                    /\ (forall j y, (j < p)%nat -> row !! j = Some y -> (y < x)%Q))
         probs [0%nat].
Proof.
  apply (predict_cnn_first_maximum toy.Keras_predict
           {| weights := 0%nat; stop_training := false |} toy.one_image [0%nat]).
  reflexivity.
Defined.

End predict_properties.

(** ** The pipeline of main.py *)

Module main_facts.
Import ml_models data_loader evaluation main spec loader_spec loader_facts
  prepare_facts report_facts SplitFacts model_selection.

Lemma print_report_Ok (name : string) (y_true y_pred : list Z) (class_names : list str)
    (m : MetricsRecord) :
  print_report name y_true y_pred class_names = Ok m ->
  compute_metrics y_true y_pred = Ok m
  /\ length (unique_labels y_true y_pred) = length class_names.
Proof.
  unfold print_report. intros (m' & Hm & Hr)%bind_Ok.
  apply bind_Ok in Hr as ([] & Hc & [= <-]). split; [done |].
  unfold classification_report in Hc.
  destruct (negb (length y_true =? length y_pred)%nat); [discriminate |].
  by destruct (Nat.eqb_spec (length (unique_labels y_true y_pred)) (length class_names)).
Qed.

(** With labels that are class ids, a class that occurs neither among the
    true nor among the predicted labels makes the report fail. *)
Lemma print_report_class_missing (name : string) (y_true y_pred : list Z)
    (class_names : list str) (k : Z) :
  (forall v, v ∈ y_true \/ v ∈ y_pred -> 0 <= v < Z.of_nat (length class_names)) ->
  0 <= k < Z.of_nat (length class_names) -> k ∉ y_true -> k ∉ y_pred ->
  print_report name y_true y_pred class_names = Raise ValueError.
Proof.
  intros Hids Hk Hkt Hkp.
  destruct (print_report name y_true y_pred class_names) as [m|e] eqn:Hr.
  - exfalso. apply print_report_Ok in Hr as [_ Hlen].
    pose proof (labels_count (length class_names) (unique_labels y_true y_pred)
                  (metrics_facts.unique_labels_NoDup _ _)) as [_ Hiff].
    { intros v Hv. by apply Hids, evaluation_claims.elem_of_unique_labels. }
    apply (proj1 Hiff Hlen k) in Hk.
    apply evaluation_claims.elem_of_unique_labels in Hk. tauto.
  - f_equal. revert Hr. unfold print_report.
    destruct (compute_metrics y_true y_pred) as [m|e'] eqn:Hm; simpl.
    + unfold classification_report.
      destruct (negb _); simpl; [by intros [= <-] |].
      destruct (negb _); simpl; [by intros [= <-] | discriminate].
    + intros [= <-]. by eapply compute_metrics_raises.
Qed.

Section Ensemble.
Context {Features SVC DecisionTree RandomForest KMeans : Type}.
Variable SVC_fit : list Features -> list Z -> result SVC.
Variable DecisionTree_fit : list Features -> list Z -> result DecisionTree.
Variable RandomForest_fit : list Features -> list Z -> result RandomForest.
Variable KMeans_fit : Z -> Z -> Z -> list Features -> result KMeans.
Variable KMeans_predict : KMeans -> list Features -> result (list Z).

Lemma train_all_models_Ok (X_train : list Features) (y_train : list Z) (n_classes : Z)
    (models : list (string * entry SVC DecisionTree RandomForest KMeans)) :
  train_all_models SVC_fit DecisionTree_fit RandomForest_fit KMeans_fit KMeans_predict
    X_train y_train n_classes = Ok models ->
  exists svm dt rf km mapping,
    SVC_fit X_train y_train = Ok svm
    /\ DecisionTree_fit X_train y_train = Ok dt
    /\ RandomForest_fit X_train y_train = Ok rf
    /\ train_kmeans KMeans_fit KMeans_predict X_train y_train n_classes = Ok (km, mapping)
    /\ models = [("SVM"%string, SVM_entry svm);
                 ("Decision Tree"%string, DT_entry dt);
                 ("Random Forest"%string, RF_entry rf);
                 ("K-Means"%string, KMeans_entry km mapping)].
Proof.
  unfold train_all_models, train_svm, train_decision_tree, train_random_forest.
  intros (svm & Hsvm & H)%bind_Ok. apply bind_Ok in H as (dt & Hdt & H).
  apply bind_Ok in H as (rf & Hrf & H). apply bind_Ok in H as ([km mapping] & Hkm & H).
  injection H as <-. by exists svm, dt, rf, km, mapping.
Qed.

End Ensemble.

Section Loader.
Variable isdigit : N -> bool.
Variable lower : str -> str.
Context {Image RandomState : Type}.
Variable isdir : str -> bool.
Variable listdir : str -> list str.
Variable open_image : str -> str -> result Image.
Variable div255 : Image -> Image.
Variable seed : Z -> RandomState.
Variable permutation : nat -> RandomState -> list nat * RandomState.

Lemma load_images_opened (folder : str) (images : list Image) (labels : list str)
    (img : Image) :
  load_images_from_folder isdigit lower isdir listdir open_image folder
    = Ok (images, labels) ->
  img ∈ images -> exists fname, open_image folder fname = Ok img.
Proof.
  unfold load_images_from_folder.
  destruct (negb (isdir folder)); [discriminate |].
  destruct (load_loop_spec isdigit lower open_image folder (sorted (listdir folder)) [] [])
    as (images' & -> & Hall).
  simpl. destruct images' as [|img0 images']; [discriminate |].
  intros [= <- _] Hin.
  apply list_elem_of_lookup_1 in Hin as [i Hi].
  destruct (Forall2_lookup_r _ _ _ _ _ Hall Hi) as (f & _ & Hf). by exists f.
Qed.

Lemma prepare_data_Ok (folder : str) (d : Data Image) :
  prepare_data isdigit lower isdir listdir open_image div255 seed permutation folder
    = Ok d ->
  exists train test,
    prepare_data_run isdigit lower isdir listdir open_image div255 seed permutation
      folder = Ok (train, test, d).
Proof.
  unfold prepare_data. intros ([[train test] d'] & Hrun & [= <-])%bind_Ok.
  by exists train, test.
Qed.

(** Every row of the prepared data is a loaded image, scaled. *)
Lemma prepared_rows (folder : str) (d : Data Image) (row : Image) :
  prepare_data isdigit lower isdir listdir open_image div255 seed permutation folder
    = Ok d ->
  row ∈ X_train d \/ row ∈ X_test d ->
  exists fname img, open_image folder fname = Ok img /\ row = div255 img.
Proof.
  intros (train & test & Hrun)%prepare_data_Ok Hrow.
  apply prepare_data_run_inv in Hrun
    as (images & labels & n_train & n_test & Hload & _ & _ & _ & _ & _
        & HXtr & HXte & _ & _).
  assert (row ∈ map div255 images) as Hin.
  { destruct Hrow as [Hrow|Hrow]; apply list_elem_of_lookup_1 in Hrow as [i Hi].
    - apply take_indices_inv in HXtr.
      destruct (Forall2_lookup_r _ _ _ _ _ HXtr Hi) as (j & _ & Hj).
      by eapply list_elem_of_lookup_2.
    - apply take_indices_inv in HXte.
      destruct (Forall2_lookup_r _ _ _ _ _ HXte Hi) as (j & _ & Hj).
      by eapply list_elem_of_lookup_2. }
  apply list_elem_of_fmap in Hin as (img & -> & Himg).
  destruct (load_images_opened _ _ _ _ Hload Himg) as [f Hf]. by exists f, img.
Qed.

End Loader.

(** Rows of [H*W] pixels stack to an array that the network's reshape
    accepts, one image per row. *)
Lemma reshape_as_array {Pixel : Type} (rows : list (list Pixel)) :
  Forall (fun row => length row = pixels_per_image) rows ->
  np.well_formed (as_array rows)
  /\ cnn_model._reshape_for_cnn (as_array rows)
     = Ok {| np.shape := [length rows; config.IMG_SIZE.1; config.IMG_SIZE.2; 1%nat];
             np.data := concat rows |}.
Proof.
  intros Hrows.
  assert (np.size (as_array rows) = (length rows * pixels_per_image)%nat) as Hsize.
  { unfold np.size, as_array, np.prod_dims. cbn [np.shape foldr].
    destruct Hrows as [|row rows Hrow _]; [done |]. rewrite Hrow. lia. }
  split.
  - unfold np.well_formed. rewrite Hsize. cbn [as_array np.data]. clear Hsize.
    induction Hrows as [|row rows Hrow _ IH]; [done |].
    cbn [concat length]. rewrite length_app, IH, Hrow. lia.
  - destruct (cnn_shape_claims.reshape_for_cnn_cases (as_array rows))
      as [[Hmod _]|[_ ->]].
    + exfalso. apply Hmod. rewrite Hsize. apply Nat.Div0.mod_mul.
    + rewrite Hsize. f_equal. f_equal. f_equal.
      apply Nat.div_mul. unfold pixels_per_image. simpl. lia.
Qed.

End main_facts.

Module main_properties.
Import ml_models data_loader evaluation cnn_model main spec main_facts prepare_facts.

Section Main.
Variable isdigit : N -> bool.
Variable lower : str -> str.
Context {Pixel RandomState SVC DecisionTree RandomForest KMeans GridSearchCV W : Type}.
Variable isdir : str -> bool.
Variable listdir : str -> list str.
Variable open_image : str -> str -> result (list Pixel).
Variable div255 : list Pixel -> list Pixel.
Variable seed : Z -> RandomState.
Variable permutation : nat -> RandomState -> list nat * RandomState.
Variable GridSearchCV_fit :
  estimator -> list (list Pixel) -> list Z -> result GridSearchCV.
Variable SVC_fit : list (list Pixel) -> list Z -> result SVC.
Variable DecisionTree_fit : list (list Pixel) -> list Z -> result DecisionTree.
Variable RandomForest_fit : list (list Pixel) -> list Z -> result RandomForest.
Variable KMeans_fit : Z -> Z -> Z -> list (list Pixel) -> result KMeans.
Variable SVC_predict : SVC -> list (list Pixel) -> result (list Z).
Variable DecisionTree_predict : DecisionTree -> list (list Pixel) -> result (list Z).
Variable RandomForest_predict : RandomForest -> list (list Pixel) -> result (list Z).
Variable KMeans_predict : KMeans -> list (list Pixel) -> result (list Z).
Variable build_cnn : Z -> W.
Variable run_epoch :
  np.ndarray Pixel -> list Z -> np.ndarray Pixel -> list Z -> nat -> W
  -> result (W * logs).
Variable Keras_predict : W -> np.ndarray Pixel -> result (list (list Q)).
Variable restore_on_train_end : bool.

Local Abbreviation prepare :=
  (prepare_data isdigit lower isdir listdir open_image div255 seed permutation).
Local Abbreviation run :=
  (main_run isdigit lower isdir listdir open_image div255 seed permutation
     GridSearchCV_fit SVC_fit DecisionTree_fit RandomForest_fit KMeans_fit
     SVC_predict DecisionTree_predict RandomForest_predict KMeans_predict
     build_cnn run_epoch Keras_predict restore_on_train_end).

(** X22.  A run of [main] that reaches its end has scored every model
    on the test part of the prepared data, against [y_test]: the three
    supervised models and K-Means, which was given as many clusters as
    there are class names, each fitted on the train part; the results
    table holds their metrics under the names SVM, Decision Tree, Random
    Forest, K-Means in this order, followed by CNN unless [--skip-cnn]
    was given, in which case the network is neither trained nor
    scored. *)
Theorem main_results_table (args : Args)
    (results : list (string * MetricsRecord)) :
  run args = Ok results ->
  exists d svm dt rf km mapping p_svm p_dt p_rf p_km m_svm m_dt m_rf m_km,
    prepare (data args) = Ok d
    /\ SVC_fit (X_train d) (y_train d) = Ok svm
    /\ DecisionTree_fit (X_train d) (y_train d) = Ok dt
    /\ RandomForest_fit (X_train d) (y_train d) = Ok rf
    /\ train_kmeans KMeans_fit KMeans_predict (X_train d) (y_train d)
         (Z.of_nat (length (class_names d))) = Ok (km, mapping)
    /\ SVC_predict svm (X_test d) = Ok p_svm
    /\ compute_metrics (y_test d) p_svm = Ok m_svm
    /\ DecisionTree_predict dt (X_test d) = Ok p_dt
    /\ compute_metrics (y_test d) p_dt = Ok m_dt
    /\ RandomForest_predict rf (X_test d) = Ok p_rf
    /\ compute_metrics (y_test d) p_rf = Ok m_rf
    /\ predict_kmeans KMeans_predict km mapping (X_test d) = Ok p_km
    /\ compute_metrics (y_test d) p_km = Ok m_km
    /\ let table := [("SVM"%string, m_svm); ("Decision Tree"%string, m_dt);
                     ("Random Forest"%string, m_rf); ("K-Means"%string, m_km)] in
       if skip_cnn args then results = table
       else
         exists model history p_cnn m_cnn,
           train_cnn build_cnn run_epoch restore_on_train_end
             (as_array (X_train d)) (y_train d) (as_array (X_test d)) (y_test d)
             (Z.of_nat (length (class_names d))) = Ok (model, history)
           /\ predict_cnn Keras_predict model (as_array (X_test d)) = Ok p_cnn
           /\ compute_metrics (y_test d) (map Z.of_nat p_cnn) = Ok m_cnn
           /\ results = table ++ [("CNN"%string, m_cnn)].
Proof.
  unfold main_run. intros (d & Hd & H)%bind_Ok.
  apply bind_Ok in H as ([] & _ & H).
  apply bind_Ok in H as (models & Hmodels & H).
  apply train_all_models_Ok in Hmodels
    as (svm & dt & rf & km & mapping & Hsvm & Hdt & Hrf & Hkm & ->).
  apply bind_Ok in H as (table & Heval & H).
  cbn [evaluate_models entry_predict] in Heval.
  apply bind_Ok in Heval as (p_svm & Hp1 & Heval).
  apply bind_Ok in Heval as (m_svm & [Hm1 _]%print_report_Ok & Heval).
  apply bind_Ok in Heval as (p_dt & Hp2 & Heval).
  apply bind_Ok in Heval as (m_dt & [Hm2 _]%print_report_Ok & Heval).
  apply bind_Ok in Heval as (p_rf & Hp3 & Heval).
  apply bind_Ok in Heval as (m_rf & [Hm3 _]%print_report_Ok & Heval).
  apply bind_Ok in Heval as (p_km & Hp4 & Heval).
  apply bind_Ok in Heval as (m_km & [Hm4 _]%print_report_Ok & Heval).
  cbn in Heval. injection Heval as <-.
  exists d, svm, dt, rf, km, mapping, p_svm, p_dt, p_rf, p_km, m_svm, m_dt, m_rf, m_km.
  do 13 (split; [done |]). cbn zeta.
  destruct (skip_cnn args); cbn [negb] in H.
  - by injection H as <-.
  - apply bind_Ok in H as ([model history] & Htrain & H). cbn [fst] in H.
    apply bind_Ok in H as (p_cnn & Hp5 & H).
    apply bind_Ok in H as (m_cnn & [Hm5 _]%print_report_Ok & H).
    cbn in H. injection H as <-.
    by exists model, history, p_cnn, m_cnn.
Qed.

(** X23.  The arrays that [main] hands to the network fit it: when every
    image read has height times width pixels and scaling keeps them, the
    train and the test part of the prepared data are well-formed arrays
    that [_reshape_for_cnn] accepts, turning each row into one image. *)
Theorem prepared_data_fits_the_network (folder : str) (d : Data (list Pixel)) :
  prepare folder = Ok d ->
  (forall fname img, open_image folder fname = Ok img -> length img = pixels_per_image) ->
  (forall img, length (div255 img) = length img) ->
  (np.well_formed (as_array (X_train d))
   /\ _reshape_for_cnn (as_array (X_train d))
      = Ok {| np.shape := [length (X_train d); config.IMG_SIZE.1; config.IMG_SIZE.2;
                           1%nat];
              np.data := concat (X_train d) |})
  /\ (np.well_formed (as_array (X_test d))
      /\ _reshape_for_cnn (as_array (X_test d))
         = Ok {| np.shape := [length (X_test d); config.IMG_SIZE.1; config.IMG_SIZE.2;
                              1%nat];
                 np.data := concat (X_test d) |}).
Proof.
  intros Hd Hopen Hdiv.
  assert (forall row, row ∈ X_train d \/ row ∈ X_test d -> length row = pixels_per_image)
    as Hrows.
  { intros row Hrow.
    destruct (prepared_rows _ _ _ _ _ _ _ _ _ _ _ Hd Hrow) as (f & img & Hf & ->).
    rewrite Hdiv. by eapply Hopen. }
  split; apply reshape_as_array, Forall_forall; intros row Hrow; apply Hrows; tauto.
Qed.

(** X24.  A class that the split left out of the test part brings the
    whole run down: when no image of some class is in [y_test] and the
    first model scored, the SVM, predicts that class for no test row
    (its predictions being class ids), [main] raises ValueError at the
    first report, and no model is scored. *)
Theorem main_missing_class_aborts (args : Args) (d : Data (list Pixel))
    (models : list (string * entry SVC DecisionTree RandomForest KMeans))
    (svm : SVC) (y_pred : list Z) (k : Z) :
  grid_search args = false ->
  prepare (data args) = Ok d ->
  train_all_models SVC_fit DecisionTree_fit RandomForest_fit KMeans_fit KMeans_predict
    (X_train d) (y_train d) (Z.of_nat (length (class_names d))) = Ok models ->
  SVC_fit (X_train d) (y_train d) = Ok svm ->
  SVC_predict svm (X_test d) = Ok y_pred ->
  (forall v, v ∈ y_pred -> 0 <= v < Z.of_nat (length (class_names d))) ->
  0 <= k < Z.of_nat (length (class_names d)) ->
  k ∉ y_test d -> k ∉ y_pred ->
  run args = Raise ValueError.
Proof.
  intros Hgs Hd Hmodels Hsvm Hpred Hids Hk Hkt Hkp.
  unfold main_run. rewrite Hd, Hgs. cbn [Py.bind]. rewrite Hmodels. cbn [Py.bind].
  apply train_all_models_Ok in Hmodels
    as (svm' & dt & rf & km & mapping & Hsvm' & _ & _ & _ & ->).
  assert (svm' = svm) as -> by congruence.
  cbn [evaluate_models entry_predict]. rewrite Hpred. cbn [Py.bind].
  rewrite (print_report_class_missing "SVM" (y_test d) y_pred (class_names d) k);
    [done | | done | done | done].
  intros v [Hv|Hv]; [| by apply Hids].
  apply prepare_data_Ok in Hd as (train & test & Hrun).
  apply prepare_data_run_inv in Hrun
    as (images & labels & n_train & n_test & _ & _ & -> & _ & _ & _ & _ & _ & _ & Hyte).
  apply SplitFacts.take_indices_inv in Hyte.
  apply list_elem_of_lookup_1 in Hv as [i Hi].
  destruct (Forall2_lookup_r _ _ _ _ _ Hyte Hi) as (j & _ & Hj).
  apply fit_transform_class_ids. by eapply list_elem_of_lookup_2.
Qed.

(** X25.  The grid search leaves no mark on what [main] computes: with
    [--grid-search] the three supervised estimators are searched in the
    order SVM, Decision Tree, Random Forest on the train part; if a
    search raises, [main] raises the same before any model is trained;
    if all succeed, their outcome is dropped and the run goes on exactly
    as without the flag, the models being trained with the fixed
    parameters. *)
Theorem main_grid_search_changes_nothing (args : Args) (d : Data (list Pixel)) :
  prepare (data args) = Ok d ->
  grid_search args = true ->
  match run_grid_search GridSearchCV_fit (X_train d) (y_train d) with
  | Ok searches =>
      searches.*1 = ["SVM"%string; "Decision Tree"%string; "Random Forest"%string]
      /\ run args
         = run {| data := data args; grid_search := false; skip_cnn := skip_cnn args |}
  | Raise e => run args = Raise e
  end.
Proof.
  intros Hd Hgs. unfold main_run. cbn [data grid_search skip_cnn].
  rewrite Hd, Hgs. cbn [Py.bind].
  destruct (run_grid_search GridSearchCV_fit (X_train d) (y_train d))
    as [searches|e] eqn:Hs; [| done].
  split; [| done].
  unfold run_grid_search in Hs. cbn [configs grid_search_loop] in Hs.
  apply bind_Ok in Hs as (gs1 & _ & Hs). apply bind_Ok in Hs as (gs2 & _ & Hs).
  apply bind_Ok in Hs as (gs3 & _ & Hs). cbn in Hs. by injection Hs as <-.
Qed.

End Main.

Lemma main_grid_search_changes_nothing_witness :
  match run_grid_search toy.search_ok (X_train toy.ten_rows_split)
          (y_train toy.ten_rows_split) with
  | Ok searches =>
      searches.*1 = ["SVM"%string; "Decision Tree"%string; "Random Forest"%string]
      /\ main_run toy.isdigit toy.lower toy.isdir toy.listdir_ten toy.open_row
           toy.div255_row toy.seed toy.permutation toy.search_ok
           toy.fit_rows toy.fit_rows toy.fit_rows toy.KMeans_fit_rows
           toy.predict_one toy.predict_one toy.predict_one toy.KMeans_predict_rows
           toy.build_cnn toy.run_epoch toy.Keras_predict false
           {| data := lit "data"; grid_search := true; skip_cnn := true |}
         = main_run toy.isdigit toy.lower toy.isdir toy.listdir_ten toy.open_row
             toy.div255_row toy.seed toy.permutation toy.search_ok
             toy.fit_rows toy.fit_rows toy.fit_rows toy.KMeans_fit_rows
             toy.predict_one toy.predict_one toy.predict_one toy.KMeans_predict_rows
             toy.build_cnn toy.run_epoch toy.Keras_predict false
             {| data := lit "data"; grid_search := false; skip_cnn := true |}
  | Raise e =>
      main_run toy.isdigit toy.lower toy.isdir toy.listdir_ten toy.open_row
        toy.div255_row toy.seed toy.permutation toy.search_ok
        toy.fit_rows toy.fit_rows toy.fit_rows toy.KMeans_fit_rows
        toy.predict_one toy.predict_one toy.predict_one toy.KMeans_predict_rows
        toy.build_cnn toy.run_epoch toy.Keras_predict false
        {| data := lit "data"; grid_search := true; skip_cnn := true |}
      = Raise e
  end.
Proof.
  apply (main_grid_search_changes_nothing toy.isdigit toy.lower toy.isdir
           toy.listdir_ten toy.open_row toy.div255_row toy.seed toy.permutation
           toy.search_ok toy.fit_rows toy.fit_rows toy.fit_rows toy.KMeans_fit_rows
           toy.predict_one toy.predict_one toy.predict_one toy.KMeans_predict_rows
           toy.build_cnn toy.run_epoch toy.Keras_predict false
           {| data := lit "data"; grid_search := true; skip_cnn := true |}
           toy.ten_rows_split).
  - vm_compute. reflexivity.
  - reflexivity.
Defined.

Lemma main_results_table_witness :
  let prepare :=
    prepare_data toy.isdigit toy.lower toy.isdir toy.listdir_ten toy.open_row
      toy.div255_row toy.seed toy.permutation in
  exists d svm dt rf km mapping p_svm p_dt p_rf p_km m_svm m_dt m_rf m_km,
    prepare (lit "data") = Ok d
    /\ toy.fit_rows (X_train d) (y_train d) = Ok svm
    /\ toy.fit_rows (X_train d) (y_train d) = Ok dt
    /\ toy.fit_rows (X_train d) (y_train d) = Ok rf
    /\ train_kmeans toy.KMeans_fit_rows toy.KMeans_predict_rows (X_train d) (y_train d)
         (Z.of_nat (length (class_names d))) = Ok (km, mapping)
    /\ toy.predict_one svm (X_test d) = Ok p_svm
    /\ compute_metrics (y_test d) p_svm = Ok m_svm
    /\ toy.predict_one dt (X_test d) = Ok p_dt
    /\ compute_metrics (y_test d) p_dt = Ok m_dt
    /\ toy.predict_one rf (X_test d) = Ok p_rf
    /\ compute_metrics (y_test d) p_rf = Ok m_rf
    /\ predict_kmeans toy.KMeans_predict_rows km mapping (X_test d) = Ok p_km
    /\ compute_metrics (y_test d) p_km = Ok m_km
    /\ let table := [("SVM"%string, m_svm); ("Decision Tree"%string, m_dt);
                     ("Random Forest"%string, m_rf); ("K-Means"%string, m_km)] in
       exists model history p_cnn m_cnn,
         train_cnn toy.build_cnn toy.run_epoch false
           (as_array (X_train d)) (y_train d) (as_array (X_test d)) (y_test d)
           (Z.of_nat (length (class_names d))) = Ok (model, history)
         /\ predict_cnn toy.Keras_predict model (as_array (X_test d)) = Ok p_cnn
         /\ compute_metrics (y_test d) (map Z.of_nat p_cnn) = Ok m_cnn
         /\ main_run toy.isdigit toy.lower toy.isdir toy.listdir_ten toy.open_row
              toy.div255_row toy.seed toy.permutation toy.search_ok
              toy.fit_rows toy.fit_rows toy.fit_rows toy.KMeans_fit_rows
              toy.predict_one toy.predict_one toy.predict_one toy.KMeans_predict_rows
              toy.build_cnn toy.run_epoch toy.Keras_predict false
              {| data := lit "data"; grid_search := true; skip_cnn := false |}
            = Ok (table ++ [("CNN"%string, m_cnn)]).
Proof.
  cbn zeta.
  evar (results : list (string * MetricsRecord)).
  assert (main_run toy.isdigit toy.lower toy.isdir toy.listdir_ten toy.open_row
            toy.div255_row toy.seed toy.permutation toy.search_ok
            toy.fit_rows toy.fit_rows toy.fit_rows toy.KMeans_fit_rows
            toy.predict_one toy.predict_one toy.predict_one toy.KMeans_predict_rows
            toy.build_cnn toy.run_epoch toy.Keras_predict false
            {| data := lit "data"; grid_search := true; skip_cnn := false |}
          = Ok results) as Hrun by (vm_compute; reflexivity).
  destruct (main_results_table toy.isdigit toy.lower toy.isdir toy.listdir_ten
              toy.open_row toy.div255_row toy.seed toy.permutation toy.search_ok
              toy.fit_rows toy.fit_rows toy.fit_rows toy.KMeans_fit_rows
              toy.predict_one toy.predict_one toy.predict_one toy.KMeans_predict_rows
              toy.build_cnn toy.run_epoch toy.Keras_predict false
              {| data := lit "data"; grid_search := true; skip_cnn := false |}
              results Hrun)
    as (d & svm & dt & rf & km & mapping & p_svm & p_dt & p_rf & p_km
        & m_svm & m_dt & m_rf & m_km & H1 & H2 & H3 & H4 & H5 & H6 & H7 & H8 & H9
        & H10 & H11 & H12 & H13 & model & history & p_cnn & m_cnn & H14 & H15 & H16
        & H17).
  exists d, svm, dt, rf, km, mapping, p_svm, p_dt, p_rf, p_km, m_svm, m_dt, m_rf, m_km.
  do 13 (split; [assumption |]).
  exists model, history, p_cnn, m_cnn.
  do 3 (split; [assumption |]). rewrite <- H17. exact Hrun.
Defined.

Lemma prepared_data_fits_the_network_witness :
  let d := toy.two_eight_split in
  (np.well_formed (as_array (X_train d))
   /\ _reshape_for_cnn (as_array (X_train d))
      = Ok {| np.shape := [length (X_train d); config.IMG_SIZE.1; config.IMG_SIZE.2;
                           1%nat];
              np.data := concat (X_train d) |})
  /\ (np.well_formed (as_array (X_test d))
      /\ _reshape_for_cnn (as_array (X_test d))
         = Ok {| np.shape := [length (X_test d); config.IMG_SIZE.1; config.IMG_SIZE.2;
                              1%nat];
                 np.data := concat (X_test d) |}).
Proof.
  apply (prepared_data_fits_the_network toy.isdigit toy.lower toy.isdir
           toy.listdir_two_eight toy.open_row toy.div255_row toy.seed toy.permutation
           (lit "data") toy.two_eight_split).
  - vm_compute. reflexivity.
  - intros fname img [= <-]. vm_compute. reflexivity.
  - reflexivity.
Defined.

Lemma main_missing_class_aborts_witness :
  main_run toy.isdigit toy.lower toy.isdir toy.listdir_two_eight toy.open_row
    toy.div255_row toy.seed toy.permutation toy.search_ok
    toy.fit_rows toy.fit_rows toy.fit_rows toy.KMeans_fit_rows
    toy.predict_one toy.predict_one toy.predict_one toy.KMeans_predict_rows
    toy.build_cnn toy.run_epoch toy.Keras_predict false
    {| data := lit "data"; grid_search := false; skip_cnn := true |}
  = Raise ValueError.
Proof.
  eapply (main_missing_class_aborts toy.isdigit toy.lower toy.isdir
            toy.listdir_two_eight toy.open_row toy.div255_row toy.seed toy.permutation
            toy.search_ok toy.fit_rows toy.fit_rows toy.fit_rows toy.KMeans_fit_rows
            toy.predict_one toy.predict_one toy.predict_one toy.KMeans_predict_rows
            toy.build_cnn toy.run_epoch toy.Keras_predict false
            {| data := lit "data"; grid_search := false; skip_cnn := true |}
            toy.two_eight_split _ tt [1; 1] 0).
  - reflexivity.
  - vm_compute. reflexivity.
  - vm_compute. reflexivity.
  - reflexivity.
  - reflexivity.
  - intros v Hv. repeat (apply elem_of_cons in Hv as [->|Hv]; [simpl; lia |]).
    by apply elem_of_nil in Hv.
  - simpl. lia.
  - intros Hin. simpl in Hin.
    repeat (apply elem_of_cons in Hin as [Hin|Hin]; [discriminate |]).
    by apply elem_of_nil in Hin.
  - intros Hin.
    repeat (apply elem_of_cons in Hin as [Hin|Hin]; [discriminate |]).
    by apply elem_of_nil in Hin.
Defined.

End main_properties.
